(** * NDVI Monitoring App: a shallow embedding of [index.js]

    The script is an Earth Engine Code Editor application.  Its own code is
    the wiring of a few handlers ([drawAOIButton], [yearDropdown],
    [addPointButton], [runAnalysisButton]) around five functions
    ([performNDVIAnalysis], [generateExportURL], [processLandsat],
    [processSentinel], [computeMonthlyNDVI]).  Everything those functions call
    lives in the hosted platform ([ee.*], [ui.*], [Map.*]).

    The development has three layers:
    - [Calendar]: civil dates over milliseconds since the epoch, as
      [ee.Date] has them;
    - [EE]: the platform primitives the script calls, each modelled after its
      documented behaviour (server-side values that may fail are [Computed]);
    - [App]: the script itself, handler by handler, over an explicit
      [AppState] holding the script's global variables and the parts of the
      map and panel it mutates. *)

From Stdlib Require Import ZArith QArith Qround Lqa List Lia Ascii String.
From stdpp Require Import base gmap strings pretty list sorting.

Local Open Scope Z_scope.

(* ===================================================================== *)
(** * Calendar arithmetic ([ee.Date]) *)
(* ===================================================================== *)

Module Calendar.

(** An [ee.Date] is an instant: milliseconds since 1970-01-01T00:00:00Z.
    All calendar fields below are read in UTC, the platform's default. *)
Definition Date := Z.

Definition msPerDay : Z := 86400000.

(** Day of the (March-based) year of day [d] of month [m]. *)
Definition doy_of (m d : Z) : Z :=
  (153 * (if 2 <? m then m - 3 else m + 9) + 2) / 5 + d - 1.

(** Day of the 400-year era. *)
Definition doe_of (yoe m d : Z) : Z :=
  yoe * 365 + yoe / 4 - yoe / 100 + doy_of m d.

(** Days since the epoch of the proleptic Gregorian date [y]-[m]-[d]. *)
Definition days_from_civil (y m d : Z) : Z :=
  let y' := if m <=? 2 then y - 1 else y in
  let era := y' / 400 in
  let yoe := y' - era * 400 in
  era * 146097 + doe_of yoe m d - 719468.

(** Year of era (with the January/February carry), month and day of a day
    of the era. *)
Definition civil_of_doe (doe : Z) : Z * Z * Z :=
  let yoe := (doe - doe / 1460 + doe / 36524 - doe / 146096) / 365 in
  let doy := doe - (365 * yoe + yoe / 4 - yoe / 100) in
  let mp := (5 * doy + 2) / 153 in
  let d := doy - (153 * mp + 2) / 5 + 1 in
  let m := if mp <? 10 then mp + 3 else mp - 9 in
  (yoe + (if m <=? 2 then 1 else 0), m, d).

Definition civil_from_days (z : Z) : Z * Z * Z :=
  let z' := z + 719468 in
  let era := z' / 146097 in
  let doe := z' - era * 146097 in
  let '(y, m, d) := civil_of_doe doe in
  (y + era * 400, m, d).

(** [ee.Date.fromYMD(year, month, day)]: midnight UTC of that day. *)
Definition fromYMD (y m d : Z) : Date := days_from_civil y m d * msPerDay.

(** [date.millis()]. *)
Definition millis (t : Date) : Z := t.

Definition civil (t : Date) : Z * Z * Z := civil_from_days (t / msPerDay).

(** [date.get('year')], [date.get('month')], [date.get('day')]. *)
Definition year_of (t : Date) : Z := fst (fst (civil t)).
Definition month_of (t : Date) : Z := snd (fst (civil t)).
Definition day_of (t : Date) : Z := snd (civil t).

Definition is_leap (y : Z) : bool :=
  (y mod 4 =? 0) && (negb (y mod 100 =? 0) || (y mod 400 =? 0)).

Definition days_in_month (y m : Z) : Z :=
  if m =? 2 then (if is_leap y then 29 else 28)
  else if (m =? 4) || (m =? 6) || (m =? 9) || (m =? 11) then 30
  else 31.

(** [date.advance(n, 'year')]: same month, day and time of day [n] years
    later; a 29 February that does not exist there becomes the 28th. *)
Definition advance_years (n : Z) (t : Date) : Date :=
  let '(y, m, d) := civil t in
  let d' := Z.min d (days_in_month (y + n) m) in
  days_from_civil (y + n) m d' * msPerDay + t mod msPerDay.

(** Left padding with zeros, for the fixed-width fields of [date.format]. *)
Fixpoint zeros (n : nat) : string :=
  match n with
  | O => EmptyString
  | S n' => String "0"%char (zeros n')
  end.

Definition pad (width : nat) (s : string) : string :=
  zeros (width - String.length s) +:+ s.

(** [date.format('YYYY-MM')]. *)
Definition format_YYYY_MM (t : Date) : string :=
  let y := year_of t in
  (if y <? 0 then "-" else EmptyString) +:+ pad 4 (pretty (Z.abs_N y))
    +:+ "-" +:+ pad 2 (pretty (Z.to_N (month_of t))).

(** Two intermediate quantities of [civil_of_doe]: the year of the era of
    a day of the era, and the month index (from March) of a day of the year. *)
Definition yoe_of (doe : Z) : Z :=
  (doe - doe / 1460 + doe / 36524 - doe / 146096) / 365.

Definition mp_of (doy : Z) : Z := (5 * doy + 2) / 153.

(** The table behind the round trip, one entry per month of the era: the
    first and the last day of the month fall in that year of the era and
    under the same month index, and the first day decodes to itself.
    [yoe] counts years from March, so the civil year is [yoe] plus one in
    January and February. *)
Definition month_ok (yoe m : Z) : bool :=
  let carry := if m <=? 2 then 1 else 0 in
  let a := doe_of yoe m 1 in
  let b := doe_of yoe m (days_in_month (yoe + carry) m) in
  let g := 365 * yoe + yoe / 4 - yoe / 100 in
  (0 <=? a) && (b <? 146097)
  && (yoe_of a =? yoe) && (yoe_of b =? yoe)
  && (mp_of (a - g) =? mp_of (b - g))
  && match civil_of_doe a with
     | (y, m', d) => (y =? yoe + carry) && (m' =? m) && (d =? 1)
     end.

End Calendar.

(* ===================================================================== *)
(** * The platform: values, images, collections *)
(* ===================================================================== *)

Module EE.

Import Calendar.

(** A server-side value: the platform evaluates the expression the script
    built and either yields a value or reports an error. *)
Inductive Computed (A : Type) : Type :=
| Ok (a : A)
| Err (msg : string).
Arguments Ok {A} a.
Arguments Err {A} msg.

#[export] Instance Computed_ret : MRet Computed := fun A a => Ok a.
#[export] Instance Computed_bind : MBind Computed := fun A B f c =>
  match c with
  | Ok a => f a
  | Err e => Err e
  end.
#[export] Instance Computed_fmap : FMap Computed := fun A B f c =>
  match c with
  | Ok a => Ok (f a)
  | Err e => Err e
  end.

Definition is_Ok {A} (c : Computed A) : Prop := exists a, c = Ok a.

(** [collection.map(f)]: one failing element fails the collection. *)
Fixpoint mapC {A B} (f : A -> Computed B) (l : list A) : Computed (list B) :=
  match l with
  | [] => Ok []
  | x :: l' => y ← f x; ys ← mapC f l'; mret (y :: ys)
  end.

(** Property values: integers (timestamps, counters), other numbers, and
    strings. *)
Inductive PropValue : Type :=
| PInt (z : Z)
| PNum (q : Q)
| PStr (s : string).

(** [ee.Number(v)]. *)
Definition toNumber (v : option PropValue) : Computed Q :=
  match v with
  | Some (PInt z) => Ok (inject_Z z)
  | Some (PNum q) => Ok q
  | Some (PStr _) => Err "Number: not a number"
  | None => Err "Number: parameter is required"
  end.

(** Rasters live on one fixed grid; a pixel is masked ([None]) or carries a
    value.  Values are exact rationals, where the platform computes in
    floating point: what is proved of ranges, order and masks carries over,
    an equality between two differently computed values need not. *)
Definition Pixel : Type := Z * Z.
Definition Raster : Type := Pixel -> option Q.

Record Image : Type := mkImage {
  bands : list (string * Raster);
  properties : gmap string PropValue
}.

Inductive Geometry : Type :=
| Point (lon lat : Q)
| Rectangle (west south east north : Q).

Record Feature : Type := mkFeature {
  geometry : Geometry;
  fproperties : gmap string PropValue
}.

Definition bandNames (img : Image) : list string := (bands img).*1.

Fixpoint assoc {A} (n : string) (l : list (string * A)) : option A :=
  match l with
  | [] => None
  | (k, v) :: l' => if String.eqb k n then Some v else assoc n l'
  end.

Definition band (img : Image) (n : string) : option Raster :=
  assoc n (bands img).

(** The value of band [n] of [img] at pixel [p], if there is one. *)
Definition valueAt (img : Image) (n : string) (p : Pixel) : option Q :=
  r ← band img n; r p.

(** What the specification calls a fully-masked raster: a raster, so an
    image with its one band, none of whose pixels carries a value. *)
Definition fullyMaskedRaster (img : Image) : Prop :=
  exists n, bandNames img = [n] /\ forall p, valueAt img n p = None.

(** [element.get(name)], [element.set(name, value)], [propertyNames()]. *)
Definition get (img : Image) (n : string) : option PropValue :=
  properties img !! n.

Definition set (n : string) (v : PropValue) (img : Image) : Image :=
  mkImage (bands img) (<[n := v]> (properties img)).

Definition propertyNames (img : Image) : list string :=
  (map_to_list (properties img)).*1.

(** [dst.copyProperties(src, names)]: each named property of [src] is
    written onto [dst]. *)
Definition copyProperties (dst src : Image) (names : list string) : Image :=
  mkImage (bands dst)
    (foldl (fun acc k =>
              match properties src !! k with
              | Some v => <[k := v]> acc
              | None => acc
              end) (properties dst) names).

(** The acquisition instant, ['system:time_start']. *)
Definition timeStart (img : Image) : option Date :=
  match get img "system:time_start" with
  | Some (PInt z) => Some z
  | Some (PNum q) => Some (Qfloor q)
  | _ => None
  end.

(** ** Band selection by regular expression *)

Inductive Regex : Type :=
| RVoid
| REps
| RChar (c : ascii)
| RAny
| RRange (lo hi : ascii)
| RSeq (r1 r2 : Regex)
| RStar (r : Regex).

Fixpoint nullable (r : Regex) : bool :=
  match r with
  | RVoid | RChar _ | RAny | RRange _ _ => false
  | REps | RStar _ => true
  | RSeq r1 r2 => nullable r1 && nullable r2
  end.

Definition in_range (lo hi c : ascii) : bool :=
  (N_of_ascii lo <=? N_of_ascii c)%N && (N_of_ascii c <=? N_of_ascii hi)%N.

(** Brzozowski derivative.  The sum a derivative of a sequence needs is kept
    out of the syntax by returning the alternatives as a list. *)
Fixpoint deriv (c : ascii) (r : Regex) : list Regex :=
  match r with
  | RVoid | REps => []
  | RChar c' => if Ascii.eqb c c' then [REps] else []
  | RAny => [REps]
  | RRange lo hi => if in_range lo hi c then [REps] else []
  | RSeq r1 r2 =>
      map (fun r1' => RSeq r1' r2) (deriv c r1)
        ++ (if nullable r1 then deriv c r2 else [])
  | RStar r1 => map (fun r1' => RSeq r1' (RStar r1)) (deriv c r1)
  end.

Fixpoint matchesAny (rs : list Regex) (s : string) : bool :=
  match s with
  | EmptyString => existsb nullable rs
  | String c s' => matchesAny (flat_map (deriv c) rs) s'
  end.

(** The whole name must match, as in [image.select(pattern)]. *)
Definition matches (r : Regex) (s : string) : bool := matchesAny [r] s.

Fixpoint RLit (s : string) : Regex :=
  match s with
  | EmptyString => REps
  | String c s' => RSeq (RChar c) (RLit s')
  end.

(** ['SR_B[2-5]'] and ['B.*']. *)
Definition pat_SR_B_2_5 : Regex := RSeq (RLit "SR_B") (RRange "2"%char "5"%char).
Definition pat_B_any : Regex := RSeq (RChar "B"%char) (RStar RAny).

(** [image.select(pattern)]: the bands whose names match, in the image's
    order; a pattern that matches no band is an error. *)
Definition select (img : Image) (r : Regex) : Computed Image :=
  match List.filter (fun b => matches r b.1) (bands img) with
  | [] => Err "Image.select: pattern did not match any bands"
  | bs => Ok (mkImage bs (properties img))
  end.

(** ** Per-pixel arithmetic *)

Definition lift2 (f : Q -> Q -> Q) (a b : option Q) : option Q :=
  match a, b with
  | Some x, Some y => Some (f x y)
  | _, _ => None
  end.

(** [ee.Image.constant(q)]. *)
Definition constant (q : Q) : Image :=
  mkImage [("constant", fun _ => Some q)] ∅.

(** A binary operation on images: a single-band operand is used against
    every band of the other, otherwise bands are matched in order.  A pixel
    of the result is masked where either input is. *)
Definition binop (f : Q -> Q -> Q) (a b : Image) : Image :=
  match bands b, bands a with
  | [(_, rb)], _ =>
      mkImage (map (fun '(n, ra) => (n, fun p => lift2 f (ra p) (rb p))) (bands a))
              (properties a)
  | _, [(_, ra)] =>
      mkImage (map (fun '(n, rb) => (n, fun p => lift2 f (ra p) (rb p))) (bands b))
              (properties a)
  | _, _ =>
      mkImage (zip_with (fun '(n, ra) '(_, rb) => (n, fun p => lift2 f (ra p) (rb p)))
                        (bands a) (bands b))
              (properties a)
  end.

Definition multiply : Image -> Image -> Image := binop Qmult.
Definition add : Image -> Image -> Image := binop Qplus.

(** Modelled from the spec: the platform's normalized difference of two
    pixel values.  The platform documents the ratio
    [(first - second) / (first + second)] and that a negative value in either
    input masks the output pixel; for a zero sum the specification says the
    output pixel is masked (no value, no default). *)
Definition ndPixel (a b : option Q) : option Q :=
  match a, b with
  | Some x, Some y =>
      if negb (Qle_bool 0 x) || negb (Qle_bool 0 y) then None
      else if Qeq_bool (x + y) 0 then None
      else Some ((x - y) / (x + y))%Q
  | _, _ => None
  end.

(** [image.normalizedDifference([n1, n2])]: one band, named ['nd']; the
    properties of the input are not retained. *)
Definition normalizedDifference (img : Image) (n1 n2 : string) : Computed Image :=
  match band img n1, band img n2 with
  | Some r1, Some r2 =>
      Ok (mkImage [("nd", fun p => ndPixel (r1 p) (r2 p))] ∅)
  | _, _ => Err "Image.normalizedDifference: band not found"
  end.

(** [image.rename(name)], for one new name. *)
Definition rename (img : Image) (n : string) : Computed Image :=
  match bands img with
  | [(_, r)] => Ok (mkImage [(n, r)] (properties img))
  | _ => Err "Image.rename: the number of names must match the number of bands"
  end.

(** [image.clip(geometry)]: pixels outside the geometry are masked. *)
Definition clip (inside : Geometry -> Pixel -> bool) (g : Geometry) (img : Image) : Image :=
  mkImage (map (fun '(n, r) => (n, fun p => if inside g p then r p else None)) (bands img))
          (properties img).

(** ** Collections *)

Fixpoint insert_sorted {A} (le : A -> A -> bool) (x : A) (l : list A) : list A :=
  match l with
  | [] => [x]
  | y :: l' => if le x y then x :: l else y :: insert_sorted le x l'
  end.

Definition isort {A} (le : A -> A -> bool) (l : list A) : list A :=
  foldr (insert_sorted le) [] l.

(** [collection.filterDate(start, end)]: start inclusive, end exclusive. *)
Definition filterDate (start stop : Date) (c : list Image) : list Image :=
  List.filter (fun img => match timeStart img with
                          | Some t => (start <=? t) && (t <? stop)
                          | None => false
                          end) c.

Definition filterBounds (intersects : Image -> Geometry -> bool) (g : Geometry)
    (c : list Image) : list Image :=
  List.filter (fun img => intersects img g) c.

(** [c1.merge(c2)]: the images of [c1], then those of [c2]. *)
Definition merge (c1 c2 : Computed (list Image)) : Computed (list Image) :=
  l1 ← c1; l2 ← c2; mret (l1 ++ l2).

Definition time_le (a b : Image) : bool :=
  match timeStart a, timeStart b with
  | Some x, Some y => x <=? y
  | None, _ => true
  | Some _, None => false
  end.

(** [collection.sort('system:time_start')]. *)
Definition sortByTime (c : list Image) : list Image := isort time_le c.

(** [ee.Filter.calendarRange(start, end, 'month')] on the acquisition
    instant: only the calendar month is looked at. *)
Definition calendarRangeMonth (start stop : Z) (img : Image) : bool :=
  match timeStart img with
  | Some t =>
      let m := month_of t in
      if start <=? stop then (start <=? m) && (m <=? stop)
      else (start <=? m) || (m <=? stop)
  | None => false
  end.

(** The median of a list of values: the middle one of the sorted list, the
    mean of the two middle ones for an even count, nothing for no value. *)
Definition medianQ (l : list Q) : option Q :=
  let s := isort Qle_bool l in
  let n := length s in
  if Nat.eqb n 0 then None
  else if Nat.odd n then s !! (n / 2)%nat
  else lift2 (fun a b => (a + b) / 2)%Q (s !! (n / 2 - 1)%nat) (s !! (n / 2)%nat).

(** What it means for [v] to be a median of [l]: at least half of the
    values are at most [v] and at least half are at least [v]. *)
Definition countLe (v : Q) (l : list Q) : nat :=
  length (List.filter (fun x => Qle_bool x v) l).

Definition countGe (v : Q) (l : list Q) : nat :=
  length (List.filter (fun x => Qle_bool v x) l).

Definition isMedian (v : Q) (l : list Q) : Prop :=
  (length l <= 2 * countLe v l)%nat /\ (length l <= 2 * countGe v l)%nat.

(** [collection.median()]: per band and per pixel, the median of the
    unmasked values of the images.  The result has the bands of the first
    image, so the median of an empty collection is an image with no bands. *)
Definition median (c : list Image) : Image :=
  match c with
  | [] => mkImage [] ∅
  | first :: _ =>
      mkImage (map (fun n => (n, fun p => medianQ (omap (fun img => valueAt img n p) c)))
                   (bandNames first)) ∅
  end.

(** [ee.List.sequence(start, end)], both ends included. *)
Definition sequence (start stop : Z) : list Z := seqZ start (stop - start + 1).

(** The id [toBands] prefixes band names with: the image's ['system:index'],
    or its position when it has none. *)
Definition imageId (i : nat) (img : Image) : string :=
  match get img "system:index" with
  | Some (PStr s) => s
  | _ => pretty i
  end.

(** [collection.toBands()]: all bands of all images, in collection order,
    each named [<image id>_<band name>]. *)
Definition toBands (c : list Image) : Image :=
  mkImage (concat (imap (fun i img =>
                           map (fun '(n, r) => (imageId i img +:+ "_" +:+ n, r)) (bands img))
                        c)) ∅.

(** ** Charts *)

Inductive Reducer : Type := ReducerMean.

Record ChartOptions : Type := mkOptions {
  title : string;
  hAxisTitle : string;
  vAxisTitle : string;
  legendPosition : string
}.

Inductive Chart : Type :=
| ImageSeries (ic : Computed (list Image)) (region : Geometry) (reducer : Reducer)
    (scale : Z) (xProperty : string) (options : ChartOptions)
| ImageSeriesByRegion (ic : Computed (list Image)) (regions : list Feature)
    (reducer : Reducer) (bandName : string) (scale : Z)
    (xProperty seriesProperty : string) (options : ChartOptions).

(** What [ui.Chart.image.seriesByRegion] draws.  From each image of the
    collection it selects the band [bandName] and reduces it over every
    region: the collection must compute and every image must have that band,
    or the chart fails.  It then draws one series per region, labelled by the
    region's [seriesProperty].  (A chart of the other kind has no series by
    region.) *)
Definition regionSeries (c : Chart) : Computed (list (option PropValue)) :=
  match c with
  | ImageSeries _ _ _ _ _ _ => Ok []
  | ImageSeriesByRegion ic regions _ bandName _ _ seriesProperty _ =>
      images ← ic;
      _ ← mapC (fun img => select img (RLit bandName)) images;
      mret (map (fun f => fproperties f !! seriesProperty) regions)
  end.

Definition isRegionChart (c : Chart) : bool :=
  match c with
  | ImageSeries _ _ _ _ _ _ => false
  | ImageSeriesByRegion _ _ _ _ _ _ _ _ => true
  end.

(** ** Export *)

Record ExportRequest : Type := mkExport {
  exImage : Image;
  exFormat : string;
  exScale : Z;
  exRegion : Geometry
}.

(** What the script cannot see: the catalogue behind each collection id, the
    spatial predicates, the URL the platform hands out for a download, and
    whether [Map.clear()] also unregisters the callbacks given to
    [Map.onClick] (the script does not say, and nothing below depends on
    it). *)
Record Backend : Type := mkBackend {
  catalog : string -> list Image;
  intersects : Image -> Geometry -> bool;
  inside : Geometry -> Pixel -> bool;
  downloadURL : ExportRequest -> string;
  clearUnlistens : bool
}.

End EE.

(* ===================================================================== *)
(** * The script *)
(* ===================================================================== *)

Module App.

Import Calendar EE.

(** ** Image processing: [processLandsat], [processSentinel],
       [computeMonthlyNDVI] *)

(** Process Landsat data to compute NDVI with calibration. *)
Definition processLandsat (img : Image) : Computed Image :=
  multBand ← constant <$> toNumber (get img "REFLECTANCE_MULT_BAND_4");
  addBand ← constant <$> toNumber (get img "REFLECTANCE_ADD_BAND_4");
  sel ← select img pat_SR_B_2_5;
  let reflectance := add (multiply sel multBand) addBand in
  nd ← normalizedDifference reflectance "SR_B5" "SR_B4";
  ndvi ← rename nd "ndvi";
  mret (copyProperties ndvi img (propertyNames img)).

(** Process Sentinel-2 data to compute NDVI. *)
Definition processSentinel (img : Image) : Computed Image :=
  sel ← select img pat_B_any;
  let reflectance := multiply sel (constant (1 # 10000)) in
  nd ← normalizedDifference reflectance "B8" "B4";
  ndvi ← rename nd "ndvi";
  mret (copyProperties ndvi img (propertyNames img)).

(** The value of the local variable [reflectance] in each of the two
    functions: the band window after calibration. *)
Definition landsatReflectance (img : Image) : Computed Image :=
  multBand ← constant <$> toNumber (get img "REFLECTANCE_MULT_BAND_4");
  addBand ← constant <$> toNumber (get img "REFLECTANCE_ADD_BAND_4");
  sel ← select img pat_SR_B_2_5;
  mret (add (multiply sel multBand) addBand).

Definition sentinelReflectance (img : Image) : Computed Image :=
  sel ← select img pat_B_any;
  mret (multiply sel (constant (1 # 10000))).

(** The two kinds of source [performNDVIAnalysis] maps over, with the
    function it maps for each and the bands that function names. *)
Inductive Source : Type := Landsat | Sentinel2.

Definition transform (src : Source) : Image -> Computed Image :=
  match src with
  | Landsat => processLandsat
  | Sentinel2 => processSentinel
  end.

Definition reflectanceOf (src : Source) : Image -> Computed Image :=
  match src with
  | Landsat => landsatReflectance
  | Sentinel2 => sentinelReflectance
  end.

Definition nirBand (src : Source) : string :=
  match src with
  | Landsat => "SR_B5"
  | Sentinel2 => "B8"
  end.

Definition redBand (src : Source) : string :=
  match src with
  | Landsat => "SR_B4"
  | Sentinel2 => "B4"
  end.

Definition window (src : Source) : Regex :=
  match src with
  | Landsat => pat_SR_B_2_5
  | Sentinel2 => pat_B_any
  end.

(** [reflectance = rawBand * gain + offset], on a pixel that may be masked. *)
Definition calibrate (gain offset : Q) (v : option Q) : option Q :=
  lift2 Qplus (lift2 Qmult v (Some gain)) (Some offset).

(** The gain and offset each kind of source is calibrated with: read from
    the image's red-band metadata for Landsat, fixed for Sentinel-2 (which
    has no additive term: [multiply(0.0001)] alone). *)
Definition gainOf (src : Source) (img : Image) : Computed Q :=
  match src with
  | Landsat => toNumber (get img "REFLECTANCE_MULT_BAND_4")
  | Sentinel2 => Ok (1 # 10000)
  end.

Definition offsetOf (src : Source) (img : Image) : Computed (option Q) :=
  match src with
  | Landsat => Some <$> toNumber (get img "REFLECTANCE_ADD_BAND_4")
  | Sentinel2 => Ok None
  end.

Definition calibrated (gain : Q) (offset : option Q) (v : option Q) : option Q :=
  match offset with
  | Some o => calibrate gain o v
  | None => lift2 Qmult v (Some gain)
  end.

(** What the NDVI of a pixel is, given its calibrated near-infrared and red
    values [N] and [R]: the ratio [(N - R) / (N + R)] where both are
    non-negative and their sum is not zero, and no value where one of them is
    negative or the sum is zero.  This is the statement [processLandsat] and
    [processSentinel] are compared with. *)
Definition ndviWhereDefined (N R : Q) (out : option Q) : Prop :=
  ((0 <= N)%Q -> (0 <= R)%Q -> ~ (N + R == 0)%Q -> out = Some ((N - R) / (N + R))%Q)
  /\ ((N < 0)%Q \/ (R < 0)%Q \/ (N + R == 0)%Q -> out = None).

(** Whether the transform can work on an image: the calibration constants
    are there and so are the two bands of the ratio. *)
Definition usable (src : Source) (img : Image) : bool :=
  match gainOf src img, offsetOf src img,
        band img (nirBand src), band img (redBand src) with
  | Ok _, Ok _, Some _, Some _ => true
  | _, _, _, _ => false
  end.

(** The body of the function mapped over the months; [startYear] is the
    script's global variable. *)
Definition monthlyComposite (startYear : Z) (collection : list Image) (month : Z) : Image :=
  let filtered := median (List.filter (calendarRangeMonth month month) collection) in
  let date := fromYMD (startYear + 1) month 1 in
  set "system:index" (PStr (format_YYYY_MM date))
      (set "system:time_start" (PInt (millis date)) filtered).

(** An image acquired in calendar month [m], of whatever year. *)
Definition inMonth (m : Z) (img : Image) : bool :=
  match timeStart img with
  | Some t => month_of t =? m
  | None => false
  end.

(** The month a composite stands for, read off its timestamp. *)
Definition monthField (img : Image) : option Z := month_of <$> timeStart img.

(** Compute monthly NDVI by aggregating data. *)
Definition computeMonthlyNDVI (startYear : Z) (collection : list Image) : list Image :=
  let months := sequence 1 12 in
  map (monthlyComposite startYear collection) months.

(** ** The state the handlers share *)

Inductive EEObject : Type :=
| ObjImage (img : Image)
| ObjGeometry (g : Geometry).

Record MapLayer : Type := mkLayer {
  layerObject : Computed EEObject;
  layerColor : option string;
  layerName : string
}.

Inductive Widget : Type :=
| Label (value : string) (style : list (string * string)) (url : option string)
| Button (label : string)
| Select (items : list string) (placeholder value : string)
| ChartWidget (c : Chart).

(** The script passes one function to [Map.onClick], the one that adds a
    point; a listener is a registration of it. *)
Inductive ClickHandler : Type := AddPointOnClick.

Record DrawingTools : Type := mkTools {
  shape : option string;
  linked : bool;
  drawing : bool;
  layers : list Geometry
}.

(** The script's global variables ([userAOI], [startYear], [points],
    [pointCounter], [controlPanel]) and what it touches of the map, the
    alerts it raises, the downloads it requests and the exceptions no
    handler catches. *)
Record AppState : Type := mkState {
  userAOI : option Geometry;
  startYear : Z;
  points : list Feature;
  pointCounter : N;
  controlPanel : list Widget;
  drawingTools : DrawingTools;
  mapListeners : list ClickHandler;
  mapLayers : list MapLayer;
  mapCenter : option Geometry;
  alerts : list string;
  downloads : list ExportRequest;
  uncaught : list string
}.

Definition set_userAOI (v : option Geometry) (s : AppState) : AppState :=
  mkState v (startYear s) (points s) (pointCounter s) (controlPanel s) (drawingTools s)
          (mapListeners s) (mapLayers s) (mapCenter s) (alerts s) (downloads s) (uncaught s).

Definition set_startYear (v : Z) (s : AppState) : AppState :=
  mkState (userAOI s) v (points s) (pointCounter s) (controlPanel s) (drawingTools s)
          (mapListeners s) (mapLayers s) (mapCenter s) (alerts s) (downloads s) (uncaught s).

Definition set_points (v : list Feature) (s : AppState) : AppState :=
  mkState (userAOI s) (startYear s) v (pointCounter s) (controlPanel s) (drawingTools s)
          (mapListeners s) (mapLayers s) (mapCenter s) (alerts s) (downloads s) (uncaught s).

Definition set_pointCounter (v : N) (s : AppState) : AppState :=
  mkState (userAOI s) (startYear s) (points s) v (controlPanel s) (drawingTools s)
          (mapListeners s) (mapLayers s) (mapCenter s) (alerts s) (downloads s) (uncaught s).

Definition set_drawingTools (v : DrawingTools) (s : AppState) : AppState :=
  mkState (userAOI s) (startYear s) (points s) (pointCounter s) (controlPanel s) v
          (mapListeners s) (mapLayers s) (mapCenter s) (alerts s) (downloads s) (uncaught s).

(** [controlPanel.add(widget)]. *)
Definition controlPanel_add (w : Widget) (s : AppState) : AppState :=
  mkState (userAOI s) (startYear s) (points s) (pointCounter s) (controlPanel s ++ [w])
          (drawingTools s) (mapListeners s) (mapLayers s) (mapCenter s) (alerts s)
          (downloads s) (uncaught s).

(** [Map.onClick(callback)]: one more listener; earlier ones stay. *)
Definition Map_onClick (h : ClickHandler) (s : AppState) : AppState :=
  mkState (userAOI s) (startYear s) (points s) (pointCounter s) (controlPanel s)
          (drawingTools s) (mapListeners s ++ [h]) (mapLayers s) (mapCenter s) (alerts s)
          (downloads s) (uncaught s).

(** [Map.addLayer(object, visParams, name)]. *)
Definition Map_addLayer (o : Computed EEObject) (color : option string) (name : string)
    (s : AppState) : AppState :=
  mkState (userAOI s) (startYear s) (points s) (pointCounter s) (controlPanel s)
          (drawingTools s) (mapListeners s) (mapLayers s ++ [mkLayer o color name])
          (mapCenter s) (alerts s) (downloads s) (uncaught s).

(** [Map.clear()]: the layers go, and so do the click listeners if the
    platform unregisters them ([unlisten]); the drawing tools keep their
    geometries. *)
Definition Map_clear (unlisten : bool) (s : AppState) : AppState :=
  mkState (userAOI s) (startYear s) (points s) (pointCounter s) (controlPanel s)
          (drawingTools s) (if unlisten then [] else mapListeners s) []
          (mapCenter s) (alerts s) (downloads s) (uncaught s).

(** [Map.centerObject(object)]. *)
Definition Map_centerObject (g : Geometry) (s : AppState) : AppState :=
  mkState (userAOI s) (startYear s) (points s) (pointCounter s) (controlPanel s)
          (drawingTools s) (mapListeners s) (mapLayers s) (Some g) (alerts s)
          (downloads s) (uncaught s).

(** [ui.alert(message)]: the message is shown to the user. *)
Definition ui_alert (msg : string) (s : AppState) : AppState :=
  mkState (userAOI s) (startYear s) (points s) (pointCounter s) (controlPanel s)
          (drawingTools s) (mapListeners s) (mapLayers s) (mapCenter s) (alerts s ++ [msg])
          (downloads s) (uncaught s).

Definition log_download (r : ExportRequest) (s : AppState) : AppState :=
  mkState (userAOI s) (startYear s) (points s) (pointCounter s) (controlPanel s)
          (drawingTools s) (mapListeners s) (mapLayers s) (mapCenter s) (alerts s)
          (downloads s ++ [r]) (uncaught s).

Definition throw (msg : string) (s : AppState) : AppState :=
  mkState (userAOI s) (startYear s) (points s) (pointCounter s) (controlPanel s)
          (drawingTools s) (mapListeners s) (mapLayers s) (mapCenter s) (alerts s)
          (downloads s) (uncaught s ++ [msg]).

Definition bold : list (string * string) := [("fontWeight", "bold")].

(** The items of the year dropdown. *)
Definition yearItems : list string := ["2020"; "2021"; "2022"; "2023"; "2024"].

(** The state when the script has run to its end: the panel is built, the
    placeholder variables hold their defaults, nothing is drawn and nothing
    listens. *)
Definition init : AppState :=
  mkState None 2022 [] 0%N
    [ Label "NDVI Monitoring App"
        [("fontSize", "22px"); ("fontWeight", "bold"); ("margin", "10px 0")] None;
      Label "1. Draw AOI." [] None;
      Label "2. Select Start Year." [] None;
      Label "3. Add Points for NDVI Comparison." [] None;
      Label "4. Run Analysis and Export Results." [] None;
      Button "Draw AOI";
      Label "Start Year:" [] None;
      Select yearItems "Select Start Year" "2022";
      Button "Add Points for NDVI Comparison";
      Button "Run Analysis" ]
    (mkTools None false false []) [] [] None [] [] [].

(** [parseInt(value, 10)]: leading white space is skipped, a sign is read,
    then the longest run of decimal digits; [None] stands for NaN, the
    result when no digit follows.  The number is exact (JavaScript's is, up
    to 2^53). *)
Definition digit_of (c : ascii) : option Z :=
  let n := N_of_ascii c in
  if ((48 <=? n) && (n <=? 57))%N then Some (Z.of_N n - 48) else None.

Fixpoint parseDigits (s : string) (acc : Z) : Z :=
  match s with
  | EmptyString => acc
  | String c s' =>
      match digit_of c with
      | Some d => parseDigits s' (acc * 10 + d)
      | None => acc
      end
  end.

Fixpoint skipSpaces (s : string) : string :=
  match s with
  | String c s' => if Ascii.is_space c then skipSpaces s' else s
  | EmptyString => s
  end.

Definition parseUnsigned (s : string) : option Z :=
  match s with
  | EmptyString => None
  | String c _ =>
      match digit_of c with
      | Some _ => Some (parseDigits s 0)
      | None => None
      end
  end.

Definition parseInt (s : string) : option Z :=
  match skipSpaces s with
  | String "-"%char s' => Z.opp <$> parseUnsigned s'
  | String "+"%char s' => parseUnsigned s'
  | s' => parseUnsigned s'
  end.

Definition pointName (n : N) : string := "Point " +:+ pretty n.

(** The feature a click at ([lon], [lat]) adds when the counter reaches [n]. *)
Definition featureAt (lon lat : Q) (n : N) : Feature :=
  mkFeature (Point lon lat) {[ "name" := PStr (pointName n) ]}.

(** The legend label a point is charted under: its ['name'] property. *)
Definition nameOf (f : Feature) : option PropValue := fproperties f !! "name".

(** A raster of the run: one band named ['ndvi'], and an acquisition
    instant inside the year asked for. *)
Definition runRaster (year : Z) (r : Image) : Prop :=
  bandNames r = ["ndvi"]
  /\ exists t, timeStart r = Some t
               /\ fromYMD year 1 1 <= t < advance_years 1 (fromYMD year 1 1).

(** The months of the year in which a collection has at least one image. *)
Definition monthsWithImages (c : list Image) : list Z :=
  List.filter (fun m => existsb (inMonth m) c) (sequence 1 12).

(** The name [toBands] gives the band of the composite of month [m]. *)
Definition exportBandName (startYear m : Z) : string :=
  format_YYYY_MM (fromYMD (startYear + 1) m 1) +:+ "_" +:+ "ndvi".

(** The points are named Point 1, Point 2, ... up to the counter. *)
Definition namedInOrder (s : AppState) : Prop :=
  map nameOf (points s)
  = map (fun i => Some (PStr (pointName (N.of_nat i)))) (seq 1 (N.to_nat (pointCounter s))).

Section WithBackend.

Variable backend : Backend.

(** Generate export URL for NDVI map.  [getDownloadURL] asks the platform
    at once, so an image that fails to compute makes it throw. *)
Definition generateExportURL (ndviImage : Computed Image) (aoi : Geometry)
    (s : AppState) : AppState :=
  match ndviImage with
  | Err msg => throw msg s
  | Ok img =>
      let request := mkExport img "GeoTIFF" 30 aoi in
      let ndviExportUrl := downloadURL backend request in
      let s := log_download request s in
      let s := controlPanel_add (Label "Export NDVI Map as GeoTIFF:" bold None) s in
      controlPanel_add (Label ndviExportUrl [("color", "blue")] (Some ndviExportUrl)) s
  end.

(** [ee.ImageCollection(id)]. *)
Definition ImageCollection (id : string) : list Image := catalog backend id.

(** The variable [ndviCollection] of [performNDVIAnalysis], as a function
    of the AOI and the year: that part of the function touches no state. *)
Definition ndviCollectionOf (aoi : Geometry) (year : Z) : Computed (list Image) :=
  let startDate := fromYMD year 1 1 in
  let endDate := advance_years 1 startDate in
  let landsat8 :=
    mapC processLandsat
      (filterBounds (intersects backend) aoi
         (filterDate startDate endDate (ImageCollection "LANDSAT/LC08/C02/T1_L2"))) in
  let landsat9 :=
    mapC processLandsat
      (filterBounds (intersects backend) aoi
         (filterDate startDate endDate (ImageCollection "LANDSAT/LC09/C02/T1_L2"))) in
  let sentinel2 :=
    mapC processSentinel
      (filterBounds (intersects backend) aoi
         (filterDate startDate endDate (ImageCollection "COPERNICUS/S2_SR_HARMONIZED"))) in
  sortByTime <$> merge (merge landsat8 landsat9) sentinel2.

(** Every image of the three collections can be transformed. *)
Definition catalogUsable : bool :=
  forallb (usable Landsat) (catalog backend "LANDSAT/LC08/C02/T1_L2")
  && forallb (usable Landsat) (catalog backend "LANDSAT/LC09/C02/T1_L2")
  && forallb (usable Sentinel2) (catalog backend "COPERNICUS/S2_SR_HARMONIZED").

(** The two charts, with the options the script sets. *)
Definition aoiChartOf (monthlyNDVI : Computed (list Image)) (aoi : Geometry) : Chart :=
  ImageSeries monthlyNDVI aoi ReducerMean 30 "system:time_start"
    (mkOptions "NDVI Trends Over Time (AOI)" "Month" "NDVI" "none").

Definition pointsChartOf (monthlyNDVI : Computed (list Image)) (pts : list Feature) : Chart :=
  ImageSeriesByRegion monthlyNDVI pts ReducerMean "ndvi" 30 "system:time_start" "name"
    (mkOptions "NDVI Comparison for Points" "Month" "NDVI" "right").

(** Perform NDVI analysis for the selected AOI and year. *)
Definition performNDVIAnalysis (aoi : Geometry) (year : Z) (pts : list Feature)
    (s : AppState) : AppState :=
  let s := Map_clear (clearUnlistens backend) s in
  let s := Map_centerObject aoi s in
  (* Define the time range for analysis *)
  let startDate := fromYMD year 1 1 in
  let endDate := advance_years 1 startDate in
  (* Load and process Sentinel-2 and Landsat data *)
  let landsat8 :=
    mapC processLandsat
      (filterBounds (intersects backend) aoi
         (filterDate startDate endDate (ImageCollection "LANDSAT/LC08/C02/T1_L2"))) in
  let landsat9 :=
    mapC processLandsat
      (filterBounds (intersects backend) aoi
         (filterDate startDate endDate (ImageCollection "LANDSAT/LC09/C02/T1_L2"))) in
  let sentinel2 :=
    mapC processSentinel
      (filterBounds (intersects backend) aoi
         (filterDate startDate endDate (ImageCollection "COPERNICUS/S2_SR_HARMONIZED"))) in
  (* Merge all collections and compute monthly NDVI *)
  let ndviCollection := sortByTime <$> merge (merge landsat8 landsat9) sentinel2 in
  let monthlyNDVI := computeMonthlyNDVI (startYear s) <$> ndviCollection in
  (* Display NDVI on map *)
  let ndviImage := clip (inside backend) aoi <$> (toBands <$> monthlyNDVI) in
  let s := Map_addLayer (ObjImage <$> ndviImage) None "Monthly NDVI" s in
  (* NDVI Chart for AOI *)
  let aoiChart := aoiChartOf monthlyNDVI aoi in
  let s := controlPanel_add (Label "NDVI Trends Over Time (AOI):" bold None) s in
  let s := controlPanel_add (ChartWidget aoiChart) s in
  (* NDVI Charts for Points *)
  let s :=
    if (0 <? length pts)%nat then
      let pointsChart := pointsChartOf monthlyNDVI pts in
      let s := controlPanel_add (Label "NDVI Comparison for Points:" bold None) s in
      controlPanel_add (ChartWidget pointsChart) s
    else s in
  (* Generate export URL *)
  generateExportURL ndviImage aoi s.

(** The same function with its collection named: everything after the
    variable [ndviCollection] is computed from [ndviCollectionOf]. *)
Definition analysisFrom (ndviCollection : Computed (list Image)) (aoi : Geometry)
    (pts : list Feature) (s : AppState) : AppState :=
  let s := Map_clear (clearUnlistens backend) s in
  let s := Map_centerObject aoi s in
  let monthlyNDVI := computeMonthlyNDVI (startYear s) <$> ndviCollection in
  let ndviImage := clip (inside backend) aoi <$> (toBands <$> monthlyNDVI) in
  let s := Map_addLayer (ObjImage <$> ndviImage) None "Monthly NDVI" s in
  let s := controlPanel_add (Label "NDVI Trends Over Time (AOI):" bold None) s in
  let s := controlPanel_add (ChartWidget (aoiChartOf monthlyNDVI aoi)) s in
  let s :=
    if (0 <? length pts)%nat then
      let s := controlPanel_add (Label "NDVI Comparison for Points:" bold None) s in
      controlPanel_add (ChartWidget (pointsChartOf monthlyNDVI pts)) s
    else s in
  generateExportURL ndviImage aoi s.

(** ** The handlers *)

Definition drawAOIButton_onClick (s : AppState) : AppState :=
  let s := set_drawingTools
             (mkTools (Some "rectangle") true true (layers (drawingTools s))) s in
  ui_alert "Draw a rectangle on the map to define your AOI." s.

(** The dropdown's [onChange].  The widget passes one of its items, on which
    [parseInt] yields a number; on a string without digits the script would
    store NaN, which is no year: the state is left as it is there, and [step]
    never gets there. *)
Definition yearDropdown_onChange (value : string) (s : AppState) : AppState :=
  match parseInt value with
  | Some y => set_startYear y s
  | None => s
  end.

(** The function [addPointButton] registers with [Map.onClick]. *)
Definition addPoint (lon lat : Q) (s : AppState) : AppState :=
  let s := set_pointCounter (pointCounter s + 1)%N s in
  let name := pointName (pointCounter s) in
  let point := Point lon lat in
  let feature := mkFeature point {[ "name" := PStr name ]} in
  let s := set_points (points s ++ [feature]) s in
  let s := Map_addLayer (Ok (ObjGeometry point)) (Some "red") name s in
  ui_alert ("Point added! Total points: " +:+ pretty (pointCounter s)) s.

Definition addPointButton_onClick (s : AppState) : AppState :=
  let s := Map_onClick AddPointOnClick s in
  ui_alert "Click on the map to add points for NDVI comparison." s.

Definition runHandler (lon lat : Q) (s : AppState) (h : ClickHandler) : AppState :=
  match h with
  | AddPointOnClick => addPoint lon lat s
  end.

(** A click on the map calls every listener registered at that moment, in
    registration order. *)
Definition Map_click (lon lat : Q) (s : AppState) : AppState :=
  foldl (runHandler lon lat) s (mapListeners s).

Definition runAnalysisButton_onClick (s : AppState) : AppState :=
  match layers (drawingTools s) with
  | [] => ui_alert "Please draw an AOI before running the analysis." s
  | layer :: _ =>
      let s := set_userAOI (Some layer) s in
      performNDVIAnalysis layer (startYear s) (points s) s
  end.

(** ** Sessions *)

Inductive Event : Type :=
| ClickDrawAOI
| EditDrawing (ls : list Geometry)
| ChangeYear (value : string)
| ClickAddPoints
| ClickMap (lon lat : Q)
| ClickRunAnalysis.

(** What one user action does.  The drawing tools belong to the platform:
    the user may leave any list of geometries there.  The dropdown offers
    its items only. *)
Definition step (s : AppState) (e : Event) : AppState :=
  match e with
  | ClickDrawAOI => drawAOIButton_onClick s
  | EditDrawing ls =>
      set_drawingTools (mkTools (shape (drawingTools s)) (linked (drawingTools s)) false ls) s
  | ChangeYear value =>
      if bool_decide (value ∈ yearItems) then yearDropdown_onChange value s else s
  | ClickAddPoints => addPointButton_onClick s
  | ClickMap lon lat => Map_click lon lat s
  | ClickRunAnalysis => runAnalysisButton_onClick s
  end.

Definition run (s : AppState) (es : list Event) : AppState := foldl step s es.

Definition reachable (s : AppState) : Prop := exists es, s = run init es.

(** The widgets a handler added to the panel. *)
Definition addedWidgets (before after : AppState) : list Widget :=
  drop (length (controlPanel before)) (controlPanel after).

Definition regionCharts (ws : list Widget) : list Chart :=
  omap (fun w => match w with
                 | ChartWidget c => if isRegionChart c then Some c else None
                 | _ => None
                 end) ws.

End WithBackend.

End App.

(* ===================================================================== *)
(** * Sample data *)
(* ===================================================================== *)

Module Samples.

Import Calendar EE App.

Definition flat (q : Q) : Raster := fun _ => Some q.

(** A Landsat scene of 15 January 2022. *)
Definition landsatScene : Image :=
  mkImage
    [("SR_B1", flat 7000); ("SR_B2", flat 7500); ("SR_B3", flat 8000);
     ("SR_B4", flat 9000); ("SR_B5", flat 20000); ("SR_B6", flat 15000);
     ("QA_PIXEL", flat 21824)]
    (<["REFLECTANCE_MULT_BAND_4" := PNum (275 # 10000000)]>
       (<["REFLECTANCE_ADD_BAND_4" := PNum (-2 # 10)]>
          (<["system:time_start" := PInt (fromYMD 2022 1 15)]>
             (<["system:index" := PStr "LC08_044034_20220115"]> ∅)))).

(** A Sentinel-2 scene of 20 January 2022. *)
Definition sentinelScene : Image :=
  mkImage
    [("B2", flat 600); ("B3", flat 800); ("B4", flat 1000); ("B8", flat 3000);
     ("B8A", flat 3100); ("SCL", flat 4)]
    (<["system:time_start" := PInt (fromYMD 2022 1 20)]>
       (<["system:index" := PStr "20220120T184719_T10SEG"]> ∅)).

(** A Landsat scene with dark red pixels: a raw red value of 5000 is below
    the offset once calibrated. *)
Definition shadowScene : Image :=
  mkImage [("SR_B4", flat 5000); ("SR_B5", flat 20000)]
    (<["REFLECTANCE_MULT_BAND_4" := PNum (275 # 10000000)]>
       (<["REFLECTANCE_ADD_BAND_4" := PNum (-2 # 10)]>
          (<["system:time_start" := PInt (fromYMD 2022 1 15)]> ∅))).


(** A Sentinel-2 scene of 3 February 2022 that is all zeros. *)
Definition darkScene : Image :=
  mkImage [("B4", flat 0); ("B8", flat 0)]
    (<["system:time_start" := PInt (fromYMD 2022 2 3)]> ∅).

(** An NDVI raster with one value everywhere, acquired at [t]. *)
Definition ndviRaster (t : Date) (v : Q) : Image :=
  mkImage [("ndvi", flat v)] (<["system:time_start" := PInt t]> ∅).

(** Three January rasters (one of them of another year), none of
    February, one of March. *)
Definition winterStack : list Image :=
  [ ndviRaster (fromYMD 2022 1 5) (2 # 10);
    ndviRaster (fromYMD 2019 1 17) (8 # 10);
    ndviRaster (fromYMD 2022 1 25) (5 # 10);
    ndviRaster (fromYMD 2022 3 9) (4 # 10) ].

Definition aoi : Geometry := Rectangle 0 0 1 1.

(** A Sentinel-2 scene acquired on the tenth of month [m] of 2022. *)
Definition sceneOfMonth (m : Z) : Image :=
  mkImage [("B4", flat 1000); ("B8", flat 3000)]
    (<["system:time_start" := PInt (fromYMD 2022 m 10)]> ∅).

(** A high-latitude catalogue: one Landsat scene in summer, Sentinel-2
    scenes from February to October, nothing in the dark months. *)
Definition northern : Backend :=
  mkBackend
    (fun id =>
       if String.eqb id "COPERNICUS/S2_SR_HARMONIZED"
       then map sceneOfMonth [2; 3; 4; 5; 6; 7; 8; 9; 10]
       else if String.eqb id "LANDSAT/LC08/C02/T1_L2"
       then [mkImage (bands landsatScene)
               (<["system:time_start" := PInt (fromYMD 2022 6 21)]>
                  (properties landsatScene))]
       else [])
    (fun _ _ => true)
    (fun _ _ => true)
    (fun _ => "https://example.invalid/download")
    true.

(** A catalogue with a Sentinel-2 scene in every month of 2022. *)
Definition allYear : Backend :=
  mkBackend
    (fun id =>
       if String.eqb id "COPERNICUS/S2_SR_HARMONIZED"
       then map sceneOfMonth [1; 2; 3; 4; 5; 6; 7; 8; 9; 10; 11; 12]
       else [])
    (fun _ _ => true)
    (fun _ _ => true)
    (fun _ => "https://example.invalid/download")
    false.

(** A session: an AOI is drawn, Add Points is pressed once, the map is
    clicked twice. *)
Definition session (b : Backend) : AppState :=
  run b init [EditDrawing [aoi]; ClickAddPoints; ClickMap 1 2; ClickMap 3 4].

End Samples.

(* ===================================================================== *)
(** * Further vocabulary *)
(* ===================================================================== *)

Module Derived.

Import Calendar EE App.

(** The day number on which the month after month [m] of year [y] starts. *)
Definition nextMonthStart (y m : Z) : Z :=
  if m =? 12 then days_from_civil (y + 1) 1 1 else days_from_civil y (m + 1) 1.

(** One entry of the table behind the tiling of a year by its months: the
    next month starts [days_in_month] days after month [m] does. *)
Definition tiling_ok (y m : Z) : bool :=
  nextMonthStart y m =? days_from_civil y m 1 + days_in_month y m.

(** Two pixels agree: both masked, or both valued with equal rationals. *)
Definition samePixel (a b : option Q) : Prop :=
  match a, b with
  | Some x, Some y => (x == y)%Q
  | None, None => True
  | _, _ => False
  end.

(** [a] was acquired no later than [b]. *)
Definition notLater (a b : Image) : Prop :=
  exists ta tb, timeStart a = Some ta /\ timeStart b = Some tb /\ ta <= tb.

(** The images of collection [id] a run over [aoi] in [year] loads:
    [ee.ImageCollection(id).filterDate(startDate, endDate).filterBounds(aoi)]. *)
Definition loaded (backend : Backend) (aoi : Geometry) (year : Z) (id : string)
    : list Image :=
  filterBounds (intersects backend) aoi
    (filterDate (fromYMD year 1 1) (advance_years 1 (fromYMD year 1 1))
       (ImageCollection backend id)).

End Derived.

(* ===================================================================== *)
(** * Calendar facts *)
(* ===================================================================== *)

Import Calendar EE App.

Lemma civil_of_doe_eq (doe : Z) :
  civil_of_doe doe
  = let yoe := yoe_of doe in
    let doy := doe - (365 * yoe + yoe / 4 - yoe / 100) in
    let mp := mp_of doy in
    let m := if mp <? 10 then mp + 3 else mp - 9 in
    (yoe + (if m <=? 2 then 1 else 0), m, doy - (153 * mp + 2) / 5 + 1).
Proof. reflexivity. Qed.

Lemma yoe_of_mono (x y : Z) : 0 <= x <= y -> yoe_of x <= yoe_of y.
Proof.
  intros H. unfold yoe_of. apply Z.div_le_mono; [lia|].
  Z.div_mod_to_equations. lia.
Qed.

Lemma mp_of_mono (x y : Z) : x <= y -> mp_of x <= mp_of y.
Proof. intros H. unfold mp_of. apply Z.div_le_mono; lia. Qed.

Lemma month_table :
  forallb (fun yoe => forallb (month_ok yoe) (seqZ 1 12)) (seqZ 0 400) = true.
Proof. vm_compute. reflexivity. Qed.

Lemma month_ok_true (yoe m : Z) :
  0 <= yoe < 400 -> 1 <= m <= 12 -> month_ok yoe m = true.
Proof.
  intros Hy Hm.
  pose proof month_table as T.
  rewrite forallb_forall in T.
  assert (In yoe (seqZ 0 400)) as Hin by (apply list_elem_of_In, elem_of_seqZ; lia).
  specialize (T _ Hin). rewrite forallb_forall in T.
  apply T. apply list_elem_of_In, elem_of_seqZ; lia.
Qed.

Lemma doe_of_day (yoe m d : Z) : doe_of yoe m d = doe_of yoe m 1 + (d - 1).
Proof. unfold doe_of, doy_of. lia. Qed.

(** Within one era, every day of the calendar decodes to itself: between
    the first and the last day of a month the year of the era and the month
    index cannot move, and the day advances with the day number. *)
Lemma civil_of_doe_valid (yoe m d : Z) :
  0 <= yoe < 400 -> 1 <= m <= 12 ->
  1 <= d <= days_in_month (yoe + (if m <=? 2 then 1 else 0)) m ->
  0 <= doe_of yoe m d < 146097
  /\ civil_of_doe (doe_of yoe m d) = (yoe + (if m <=? 2 then 1 else 0), m, d).
Proof.
  intros Hy Hm Hd.
  pose proof (month_ok_true yoe m Hy Hm) as Hok. unfold month_ok in Hok.
  set (carry := if m <=? 2 then 1 else 0) in *.
  set (L := days_in_month (yoe + carry) m) in *.
  set (a := doe_of yoe m 1) in *. set (b := doe_of yoe m L) in *.
  set (g := 365 * yoe + yoe / 4 - yoe / 100) in *.
  set (x := doe_of yoe m d).
  assert (x = a + (d - 1)) as Hx by apply doe_of_day.
  assert (b = a + (L - 1)) as Hb by apply doe_of_day.
  destruct (civil_of_doe a) as [[ya ma] da] eqn:Hca.
  apply andb_prop in Hok as [Hok Hciv]. apply andb_prop in Hok as [Hok Hmp].
  apply andb_prop in Hok as [Hok Hyb]. apply andb_prop in Hok as [Hok Hya].
  apply andb_prop in Hok as [Ha0 Hb1].
  apply andb_prop in Hciv as [Hciv Hd1]. apply andb_prop in Hciv as [Hy1 Hm1].
  apply Z.leb_le in Ha0. apply Z.ltb_lt in Hb1.
  apply Z.eqb_eq in Hmp, Hyb, Hya, Hd1, Hy1, Hm1. subst ya ma da.
  split; [lia|].
  assert (yoe_of x = yoe) as Hyx.
  { pose proof (yoe_of_mono a x ltac:(lia)). pose proof (yoe_of_mono x b ltac:(lia)). lia. }
  assert (mp_of (x - g) = mp_of (a - g)) as Hmx.
  { pose proof (mp_of_mono (a - g) (x - g) ltac:(lia)).
    pose proof (mp_of_mono (x - g) (b - g) ltac:(lia)). lia. }
  rewrite civil_of_doe_eq in Hca |- *. cbv zeta in Hca |- *.
  rewrite Hya in Hca. rewrite Hyx. fold g in Hca |- *. rewrite Hmx.
  injection Hca as Hc1 Hc2 Hc3. rewrite Hc2.
  replace (x - g - (153 * mp_of (a - g) + 2) / 5 + 1) with d by lia.
  done.
Qed.

Lemma is_leap_period (y k : Z) : is_leap (y + k * 400) = is_leap y.
Proof.
  unfold is_leap.
  replace (y + k * 400) with (y + (k * 100) * 4) at 1 by lia.
  replace (y + k * 400) with (y + (k * 4) * 100) at 1 by lia.
  by rewrite !Z.mod_add by lia.
Qed.

Lemma days_in_month_bounds (y m : Z) : 28 <= days_in_month y m <= 31.
Proof.
  unfold days_in_month.
  destruct (m =? 2); [destruct (is_leap y); lia|].
  destruct ((m =? 4) || (m =? 6) || (m =? 9) || (m =? 11)); lia.
Qed.

(** Decoding the day number of a date of the calendar gives that date back,
    in every year. *)
Lemma civil_from_days_valid (y m d : Z) :
  1 <= m <= 12 -> 1 <= d <= days_in_month y m ->
  civil_from_days (days_from_civil y m d) = (y, m, d).
Proof.
  intros Hm Hd. unfold civil_from_days, days_from_civil.
  set (carry := if m <=? 2 then 1 else 0).
  set (y' := if m <=? 2 then y - 1 else y).
  assert (y = y' + carry) as Hy' by (subst y' carry; destruct (m <=? 2); lia).
  set (era := y' / 400). set (yoe := y' - era * 400).
  assert (0 <= yoe < 400) as Hyoe.
  { subst yoe era. pose proof (Z.mod_pos_bound y' 400 ltac:(lia)) as Hb.
    rewrite Z.mod_eq in Hb by lia. lia. }
  assert (days_in_month (yoe + carry) m = days_in_month y m) as Hdim.
  { unfold days_in_month.
    replace y with (yoe + carry + era * 400) by (subst yoe; lia).
    by rewrite is_leap_period. }
  destruct (civil_of_doe_valid yoe m d Hyoe Hm) as [Hrange Hc].
  { fold carry. by rewrite Hdim. }
  fold carry in Hc. set (doe := doe_of yoe m d) in *.
  replace (era * 146097 + doe - 719468 + 719468) with (doe + era * 146097) by lia.
  rewrite Z.div_add by lia. rewrite (Z.div_small doe) by lia.
  replace (doe + era * 146097 - (0 + era) * 146097) with doe by lia.
  rewrite Hc. f_equal. f_equal. subst yoe. lia.
Qed.

(** Any instant of a day of the calendar reads as that day. *)
Lemma civil_fromYMD (y m d ms : Z) :
  1 <= m <= 12 -> 1 <= d <= days_in_month y m -> 0 <= ms < msPerDay ->
  civil (fromYMD y m d + ms) = (y, m, d).
Proof.
  intros Hm Hd Hms. unfold civil, fromYMD.
  rewrite Z.add_comm, Z.div_add by (unfold msPerDay; lia).
  rewrite Z.div_small by done. simpl.
  by apply civil_from_days_valid.
Qed.

Lemma month_of_fromYMD (y m d ms : Z) :
  1 <= m <= 12 -> 1 <= d <= days_in_month y m -> 0 <= ms < msPerDay ->
  month_of (fromYMD y m d + ms) = m.
Proof. intros Hm Hd Hms. unfold month_of. by rewrite civil_fromYMD. Qed.

Lemma civil_fromYMD_first (y m : Z) :
  1 <= m <= 12 -> civil (fromYMD y m 1) = (y, m, 1).
Proof.
  intros Hm. rewrite <- (Z.add_0_r (fromYMD y m 1)).
  apply civil_fromYMD; [done| |unfold msPerDay; lia].
  pose proof (days_in_month_bounds y m). lia.
Qed.

Lemma fromYMD_midnight (y m d : Z) : fromYMD y m d mod msPerDay = 0.
Proof. unfold fromYMD. apply Z.mod_mul. unfold msPerDay. lia. Qed.

(** The range of a run ends where the next year starts. *)
Lemma advance_one_year (y : Z) :
  advance_years 1 (fromYMD y 1 1) = fromYMD (y + 1) 1 1.
Proof.
  unfold advance_years. rewrite civil_fromYMD_first by lia.
  rewrite fromYMD_midnight.
  replace (Z.min 1 (days_in_month (y + 1) 1)) with 1.
  - unfold fromYMD. lia.
  - pose proof (days_in_month_bounds (y + 1) 1). lia.
Qed.

(* ===================================================================== *)
(** * The monthly aggregator *)
(* ===================================================================== *)

Lemma timeStart_monthlyComposite (Y : Z) (c : list Image) (m : Z) :
  timeStart (monthlyComposite Y c m) = Some (fromYMD (Y + 1) m 1).
Proof.
  unfold monthlyComposite, timeStart, get, set, millis. simpl.
  rewrite lookup_insert_ne by done. by rewrite lookup_insert_eq.
Qed.

Lemma bands_monthlyComposite (Y : Z) (c : list Image) (m : Z) :
  bands (monthlyComposite Y c m)
  = bands (median (List.filter (calendarRangeMonth m m) c)).
Proof. reflexivity. Qed.

Lemma computeMonthlyNDVI_unfold (Y : Z) (c : list Image) :
  computeMonthlyNDVI Y c
  = map (monthlyComposite Y c) [1; 2; 3; 4; 5; 6; 7; 8; 9; 10; 11; 12].
Proof. reflexivity. Qed.

Lemma computeMonthlyNDVI_lookup (Y : Z) (c : list Image) (m : Z) :
  1 <= m <= 12 ->
  computeMonthlyNDVI Y c !! Z.to_nat (m - 1) = Some (monthlyComposite Y c m).
Proof.
  intros Hm. unfold computeMonthlyNDVI, sequence.
  rewrite list_lookup_fmap, lookup_seqZ_lt by lia. simpl. f_equal. f_equal. lia.
Qed.

(** C1: for selected year [Y], the composite emitted for month [m] carries
    as ['system:time_start'] the first day of month [m] of year [Y + 1]:
    the instant is midnight of that day, and its year, month and day fields
    are [Y + 1], [m] and [1]. *)
Theorem C1_composite_timestamp (Y : Z) (collection : list Image) (m : Z) :
  1 <= m <= 12 ->
  exists img t,
    computeMonthlyNDVI Y collection !! Z.to_nat (m - 1) = Some img
    /\ timeStart img = Some t
    /\ t = fromYMD (Y + 1) m 1
    /\ year_of t = Y + 1 /\ month_of t = m /\ day_of t = 1
    /\ t mod msPerDay = 0.
Proof.
  intros Hm.
  exists (monthlyComposite Y collection m), (fromYMD (Y + 1) m 1).
  split; [by apply computeMonthlyNDVI_lookup|].
  split; [apply timeStart_monthlyComposite|].
  split; [done|].
  unfold year_of, month_of, day_of. rewrite civil_fromYMD_first by done.
  simpl. repeat split. apply fromYMD_midnight.
Qed.

Lemma C1_composite_timestamp_witness :
  exists img t,
    computeMonthlyNDVI 2022 [Samples.sentinelScene] !! Z.to_nat (3 - 1) = Some img
    /\ timeStart img = Some t
    /\ t = fromYMD (2022 + 1) 3 1
    /\ year_of t = 2022 + 1 /\ month_of t = 3 /\ day_of t = 1
    /\ t mod msPerDay = 0.
Proof. apply (C1_composite_timestamp 2022 [Samples.sentinelScene] 3). lia. Defined.

(** For the default year 2022 the March composite is stamped 2023-03-01 and
    indexed ["2023-03"]. *)
Example march_composite_2022 :
  exists img,
    computeMonthlyNDVI 2022 Samples.winterStack !! 2%nat = Some img
    /\ timeStart img = Some 1677628800000
    /\ get img "system:index" = Some (PStr "2023-03").
Proof. eexists. split; [reflexivity|]. split; vm_compute; reflexivity. Qed.

(** C2: whatever the input collection and the year, the aggregator emits
    twelve composites whose months are 1, 2, ..., 12 in this order: every
    month once, ascending.  The collection does not occur on the right-hand
    side, so neither its content nor its order matters. *)
Theorem C2_twelve_months_in_order (Y : Z) (collection : list Image) :
  length (computeMonthlyNDVI Y collection) = 12%nat
  /\ map monthField (computeMonthlyNDVI Y collection)
     = map Some [1; 2; 3; 4; 5; 6; 7; 8; 9; 10; 11; 12]
  /\ NoDup (map monthField (computeMonthlyNDVI Y collection)).
Proof.
  assert (map monthField (computeMonthlyNDVI Y collection)
          = map Some [1; 2; 3; 4; 5; 6; 7; 8; 9; 10; 11; 12]) as E.
  { rewrite computeMonthlyNDVI_unfold. rewrite map_map.
    apply map_ext_in. intros m Hin. unfold monthField.
    rewrite timeStart_monthlyComposite. simpl. f_equal.
    unfold month_of. rewrite civil_fromYMD_first; [done|].
    simpl in Hin. lia. }
  split; [reflexivity|]. split; [exact E|].
  rewrite E. apply NoDup_fmap; [apply _|].
  apply NoDup_ListNoDup. repeat (constructor; [simpl; lia|]). constructor.
Qed.

(* ===================================================================== *)
(** * The per-image transform *)
(* ===================================================================== *)

Lemma assoc_filter {A} (f : string -> bool) (n : string) (l : list (string * A)) :
  assoc n (List.filter (fun b => f b.1) l) = if f n then assoc n l else None.
Proof.
  induction l as [|[k v] l IH]; simpl.
  - by destruct (f n).
  - destruct (f k) eqn:Hk; simpl.
    + destruct (String.eqb_spec k n) as [->|Hne].
      * by rewrite Hk.
      * exact IH.
    + rewrite IH. destruct (f n) eqn:Hn; [|done].
      destruct (String.eqb_spec k n) as [->|Hne]; [congruence|done].
Qed.

Lemma assoc_map {A B} (g : A -> B) (n : string) (l : list (string * A)) :
  assoc n (map (fun '(k, r) => (k, g r)) l) = g <$> assoc n l.
Proof.
  induction l as [|[k v] l IH]; simpl; [done|].
  destruct (String.eqb k n); [done|exact IH].
Qed.

Lemma names_filter {A} (f : string -> bool) (l : list (string * A)) :
  (List.filter (fun b => f b.1) l).*1 = List.filter f l.*1.
Proof.
  induction l as [|[k v] l IH]; simpl; [done|].
  destruct (f k); simpl; [f_equal|]; exact IH.
Qed.

Lemma names_map {A B} (g : A -> B) (l : list (string * A)) :
  (map (fun '(k, r) => (k, g r)) l).*1 = l.*1.
Proof. induction l as [|[k v] l IH]; simpl; [done|f_equal; exact IH]. Qed.

(** What [select] returns, when it returns. *)
Lemma select_Ok (img sel : Image) (r : Regex) :
  select img r = Ok sel ->
  bands sel = List.filter (fun b => matches r b.1) (bands img)
  /\ properties sel = properties img.
Proof.
  unfold select. destruct (List.filter _ (bands img)) eqn:E; [done|].
  intros [= <-]. done.
Qed.

Lemma select_has_band (img : Image) (r : Regex) (n : string) (x : Raster) :
  band img n = Some x -> matches r n = true -> is_Ok (select img r).
Proof.
  intros Hb Hm. unfold select.
  destruct (List.filter _ (bands img)) eqn:E; [|by eexists].
  exfalso. unfold band in Hb.
  pose proof (assoc_filter (matches r) n (bands img)) as Ha.
  rewrite E, Hm, Hb in Ha. done.
Qed.

Lemma valueAt_select (img sel : Image) (r : Regex) (n : string) (p : Pixel) :
  select img r = Ok sel ->
  valueAt sel n p = if matches r n then valueAt img n p else None.
Proof.
  intros [Hb _]%select_Ok. unfold valueAt, band. rewrite Hb, assoc_filter.
  by destruct (matches r n).
Qed.

Lemma bands_binop_constant (f : Q -> Q -> Q) (a : Image) (q : Q) :
  bands (binop f a (constant q))
  = map (fun '(n, ra) => (n, fun p => lift2 f (ra p) (Some q))) (bands a).
Proof. reflexivity. Qed.

Lemma band_binop_constant (f : Q -> Q -> Q) (a : Image) (q : Q) (n : string) :
  band (binop f a (constant q)) n
  = (fun ra p => lift2 f (ra p) (Some q)) <$> band a n.
Proof. unfold band. rewrite bands_binop_constant. apply assoc_map. Qed.

Lemma valueAt_binop_constant (f : Q -> Q -> Q) (a : Image) (q : Q) (n : string) (p : Pixel) :
  valueAt (binop f a (constant q)) n p = lift2 f (valueAt a n p) (Some q).
Proof.
  unfold valueAt. rewrite band_binop_constant.
  destruct (band a n); simpl; [done|done].
Qed.

Lemma bandNames_binop_constant (f : Q -> Q -> Q) (a : Image) (q : Q) :
  bandNames (binop f a (constant q)) = bandNames a.
Proof. unfold bandNames. rewrite bands_binop_constant. apply names_map. Qed.

(** Copying every property of an image onto an image that has none gives
    that image's properties. *)
Lemma foldl_copy_lookup (src : gmap string PropValue) (names : list string)
    (acc : gmap string PropValue) (i : string) :
  foldl (fun acc k => match src !! k with
                      | Some v => <[k := v]> acc
                      | None => acc
                      end) acc names !! i
  = if bool_decide (i ∈ names) then
      match src !! i with Some v => Some v | None => acc !! i end
    else acc !! i.
Proof.
  revert acc. induction names as [|k names IH]; intros acc; cbn [foldl].
  - by rewrite bool_decide_eq_false_2 by set_solver.
  - rewrite IH. destruct (decide (i = k)) as [->|Hne].
    + rewrite (bool_decide_eq_true_2 (k ∈ k :: names)) by set_solver.
      destruct (src !! k) eqn:Hk.
      * rewrite lookup_insert_eq. by destruct (bool_decide (k ∈ names)).
      * by destruct (bool_decide (k ∈ names)).
    + assert ((match src !! k with Some v => <[k:=v]> acc | None => acc end) !! i
              = acc !! i) as ->.
      { destruct (src !! k); [by rewrite lookup_insert_ne|done]. }
      destruct (decide (i ∈ names)) as [Hin|Hnin].
      * rewrite (bool_decide_eq_true_2 (i ∈ names) Hin).
        rewrite (bool_decide_eq_true_2 (i ∈ k :: names)); [done|].
        by apply list_elem_of_further.
      * rewrite (bool_decide_eq_false_2 (i ∈ names) Hnin).
        rewrite (bool_decide_eq_false_2 (i ∈ k :: names)); [done|].
        intros [?|?]%elem_of_cons; done.
Qed.

Lemma properties_copyProperties (dst src : Image) :
  properties dst = ∅ ->
  properties (copyProperties dst src (propertyNames src)) = properties src.
Proof.
  intros Hd. unfold copyProperties. simpl. apply map_eq. intros i.
  rewrite foldl_copy_lookup, Hd, lookup_empty.
  destruct (properties src !! i) as [v|] eqn:Hi.
  - rewrite bool_decide_eq_true_2; [done|].
    unfold propertyNames. apply list_elem_of_fmap. exists (i, v).
    split; [done|]. by apply elem_of_map_to_list.
  - by destruct (bool_decide _).
Qed.

Lemma bands_copyProperties (dst src : Image) (names : list string) :
  bands (copyProperties dst src names) = bands dst.
Proof. reflexivity. Qed.

(** Both functions are: calibrate, take the normalized difference of the
    near-infrared and red bands, rename, copy the properties. *)
Lemma transform_unfold (src : Source) (img : Image) :
  transform src img
  = (refl ← reflectanceOf src img;
     nd ← normalizedDifference refl (nirBand src) (redBand src);
     ndvi ← rename nd "ndvi";
     mret (copyProperties ndvi img (propertyNames img))).
Proof.
  destruct src; simpl.
  - unfold processLandsat, landsatReflectance.
    destruct (toNumber (get img "REFLECTANCE_MULT_BAND_4")); simpl; [|done].
    destruct (toNumber (get img "REFLECTANCE_ADD_BAND_4")); simpl; [|done].
    destruct (select img pat_SR_B_2_5); simpl; done.
  - unfold processSentinel, sentinelReflectance.
    destruct (select img pat_B_any); simpl; done.
Qed.

Lemma window_nir (src : Source) : matches (window src) (nirBand src) = true.
Proof. by destruct src. Qed.

Lemma window_red (src : Source) : matches (window src) (redBand src) = true.
Proof. by destruct src. Qed.

Lemma band_select (img sel : Image) (r : Regex) (n : string) :
  select img r = Ok sel ->
  band sel n = if matches r n then band img n else None.
Proof.
  intros [Hb _]%select_Ok. unfold band. rewrite Hb. apply assoc_filter.
Qed.

(** The calibrated band window: which bands it has and what each of them
    is. *)
Lemma reflectanceOf_Ok (src : Source) (img refl : Image) :
  reflectanceOf src img = Ok refl ->
  exists gain offset,
    gainOf src img = Ok gain /\ offsetOf src img = Ok offset
    /\ bandNames refl = List.filter (matches (window src)) (bandNames img)
    /\ forall n,
         band refl n
         = if matches (window src) n
           then (fun r p => calibrated gain offset (r p)) <$> band img n
           else None.
Proof.
  destruct src; simpl.
  - unfold landsatReflectance.
    destruct (toNumber (get img "REFLECTANCE_MULT_BAND_4")) as [g|] eqn:Hg; simpl; [|done].
    destruct (toNumber (get img "REFLECTANCE_ADD_BAND_4")) as [o|] eqn:Ho; simpl; [|done].
    destruct (select img pat_SR_B_2_5) as [sel|] eqn:Hs; simpl; [|done].
    intros [= <-]. exists g, (Some o). split; [done|]. split; [done|]. split.
    + unfold add, multiply. rewrite !bandNames_binop_constant.
      apply select_Ok in Hs as [Hb _]. unfold bandNames. rewrite Hb.
      apply names_filter.
    + intros n. unfold add, multiply. rewrite !band_binop_constant.
      rewrite (band_select _ _ _ _ Hs).
      destruct (matches pat_SR_B_2_5 n); [|done].
      by destruct (band img n).
  - unfold sentinelReflectance.
    destruct (select img pat_B_any) as [sel|] eqn:Hs; simpl; [|done].
    intros [= <-]. exists (1 # 10000)%Q, None. split; [done|]. split; [done|]. split.
    + unfold multiply. rewrite bandNames_binop_constant.
      apply select_Ok in Hs as [Hb _]. unfold bandNames. rewrite Hb.
      apply names_filter.
    + intros n. unfold multiply. rewrite band_binop_constant.
      rewrite (band_select _ _ _ _ Hs).
      destruct (matches pat_B_any n); [|done].
      by destruct (band img n).
Qed.

Lemma valueAt_reflectanceOf (src : Source) (img refl : Image) (gain : Q)
    (offset : option Q) (n : string) (p : Pixel) :
  reflectanceOf src img = Ok refl ->
  gainOf src img = Ok gain -> offsetOf src img = Ok offset ->
  valueAt refl n p
  = if matches (window src) n then calibrated gain offset (valueAt img n p) else None.
Proof.
  intros (g & o & Hg & Ho & _ & Hb)%reflectanceOf_Ok Hg' Ho'.
  rewrite Hg in Hg'. rewrite Ho in Ho'. injection Hg' as ->. injection Ho' as ->.
  unfold valueAt. rewrite Hb.
  destruct (matches (window src) n); [|done].
  destruct (band img n) as [r|]; simpl; [done|].
  by destruct offset.
Qed.

Lemma reflectanceOf_is_Ok (src : Source) (img : Image) (gain : Q) (offset : option Q)
    (n : string) (r : Raster) :
  gainOf src img = Ok gain -> offsetOf src img = Ok offset ->
  band img n = Some r -> matches (window src) n = true ->
  is_Ok (reflectanceOf src img).
Proof.
  intros Hg Ho Hb Hm.
  destruct (select_has_band img (window src) n r Hb Hm) as [sel Hs].
  destruct src; simpl in *.
  - unfold landsatReflectance. rewrite Hg. simpl.
    destruct (toNumber (get img "REFLECTANCE_ADD_BAND_4")); simpl in *; [|done].
    rewrite Hs. simpl. by eexists.
  - unfold sentinelReflectance. rewrite Hs. simpl. by eexists.
Qed.

Lemma band_valueAt (img : Image) (n : string) (r : Raster) (p : Pixel) :
  band img n = Some r -> valueAt img n p = r p.
Proof. intros H. unfold valueAt. by rewrite H. Qed.

(** The raster the transform emits, when it emits one. *)
Lemma transform_Ok (src : Source) (img out : Image) :
  transform src img = Ok out ->
  exists refl r1 r2,
    reflectanceOf src img = Ok refl
    /\ band refl (nirBand src) = Some r1 /\ band refl (redBand src) = Some r2
    /\ bands out = [("ndvi", fun p => ndPixel (r1 p) (r2 p))]
    /\ properties out = properties img.
Proof.
  rewrite transform_unfold.
  destruct (reflectanceOf src img) as [refl|] eqn:Hr; simpl; [|done].
  unfold normalizedDifference.
  destruct (band refl (nirBand src)) as [r1|] eqn:H1; simpl; [|done].
  destruct (band refl (redBand src)) as [r2|] eqn:H2; simpl; [|done].
  intros [= <-]. exists refl, r1, r2. repeat split; try done.
  by apply properties_copyProperties.
Qed.

Lemma transform_is_Ok (src : Source) (img refl : Image) :
  reflectanceOf src img = Ok refl ->
  is_Some (band refl (nirBand src)) -> is_Some (band refl (redBand src)) ->
  is_Ok (transform src img).
Proof.
  intros Hr [r1 H1] [r2 H2]. rewrite transform_unfold, Hr. simpl.
  unfold normalizedDifference. rewrite H1, H2. simpl. by eexists.
Qed.

Lemma valueAt_transform (src : Source) (img out : Image) (p : Pixel) :
  transform src img = Ok out ->
  exists refl,
    reflectanceOf src img = Ok refl
    /\ valueAt out "ndvi" p
       = ndPixel (valueAt refl (nirBand src) p) (valueAt refl (redBand src) p).
Proof.
  intros (refl & r1 & r2 & Hr & H1 & H2 & Hb & _)%transform_Ok.
  exists refl. split; [done|].
  rewrite (band_valueAt _ _ _ _ H1), (band_valueAt _ _ _ _ H2).
  unfold valueAt, band. rewrite Hb. done.
Qed.

(** ** The ratio *)

Lemma ndPixel_Some (a b : option Q) (v : Q) :
  ndPixel a b = Some v ->
  exists x y, a = Some x /\ b = Some y
    /\ (0 <= x)%Q /\ (0 <= y)%Q /\ ~ (x + y == 0)%Q
    /\ v = ((x - y) / (x + y))%Q.
Proof.
  unfold ndPixel. destruct a as [x|], b as [y|]; try done.
  destruct (Qle_bool 0 x) eqn:Hx; simpl; [|done].
  destruct (Qle_bool 0 y) eqn:Hy; simpl; [|done].
  destruct (Qeq_bool (x + y) 0) eqn:Hs; [done|].
  intros [= <-]. exists x, y.
  apply Qle_bool_iff in Hx, Hy. apply Qeq_bool_neq in Hs. done.
Qed.

Lemma ndPixel_value (x y : Q) :
  (0 <= x)%Q -> (0 <= y)%Q -> ~ (x + y == 0)%Q ->
  ndPixel (Some x) (Some y) = Some ((x - y) / (x + y))%Q.
Proof.
  intros Hx Hy Hs. unfold ndPixel.
  apply Qle_bool_iff in Hx, Hy. rewrite Hx, Hy. simpl.
  destruct (Qeq_bool (x + y) 0) eqn:E; [|done].
  apply Qeq_bool_iff in E. done.
Qed.

Lemma ndPixel_zero_sum (x y : Q) :
  (x + y == 0)%Q -> ndPixel (Some x) (Some y) = None.
Proof.
  intros Hs. unfold ndPixel.
  destruct (negb (Qle_bool 0 x) || negb (Qle_bool 0 y)); [done|].
  apply Qeq_bool_iff in Hs. by rewrite Hs.
Qed.

Lemma ratio_range (x y : Q) :
  (0 <= x)%Q -> (0 <= y)%Q -> ~ (x + y == 0)%Q ->
  (-1 <= (x - y) / (x + y) <= 1)%Q.
Proof.
  intros Hx Hy Hs.
  assert (0 < x + y)%Q as Hpos.
  { destruct (Qlt_le_dec 0 (x + y)) as [H|H]; [done|].
    exfalso. apply Hs. lra. }
  split.
  - apply Qle_shift_div_l; [done|]. lra.
  - apply Qle_shift_div_r; [done|]. lra.
Qed.

Lemma ndPixel_range (a b : option Q) (v : Q) :
  ndPixel a b = Some v -> (-1 <= v <= 1)%Q.
Proof.
  intros (x & y & _ & _ & Hx & Hy & Hs & ->)%ndPixel_Some.
  by apply ratio_range.
Qed.

Lemma usable_transform (src : Source) (img : Image) :
  usable src img = true -> is_Ok (transform src img).
Proof.
  unfold usable.
  destruct (gainOf src img) as [g|] eqn:Hg; [|done].
  destruct (offsetOf src img) as [o|] eqn:Ho; [|done].
  destruct (band img (nirBand src)) as [nir|] eqn:Hn; [|done].
  destruct (band img (redBand src)) as [red|] eqn:Hr; [|done].
  intros _.
  destruct (reflectanceOf_is_Ok src img g o _ _ Hg Ho Hn (window_nir src)) as [refl Hrefl].
  destruct (reflectanceOf_Ok _ _ _ Hrefl) as (g' & o' & _ & _ & _ & Hb).
  apply (transform_is_Ok src img refl Hrefl).
  - rewrite Hb, window_nir, Hn. by eexists.
  - rewrite Hb, window_red, Hr. by eexists.
Qed.

Lemma transform_usable (src : Source) (img out : Image) :
  transform src img = Ok out -> usable src img = true.
Proof.
  intros (refl & r1 & r2 & Hrefl & H1 & H2 & _)%transform_Ok.
  destruct (reflectanceOf_Ok _ _ _ Hrefl) as (g & o & Hg & Ho & _ & Hb).
  unfold usable. rewrite Hg, Ho.
  rewrite Hb, window_nir in H1. rewrite Hb, window_red in H2.
  destruct (band img (nirBand src)); [|done].
  destruct (band img (redBand src)); done.
Qed.

(** The transform on a usable image, pixel by pixel. *)
Lemma transform_value (src : Source) (img : Image) (gain : Q) (offset : option Q)
    (nir red : Raster) :
  gainOf src img = Ok gain ->
  offsetOf src img = Ok offset ->
  band img (nirBand src) = Some nir ->
  band img (redBand src) = Some red ->
  exists refl out,
    reflectanceOf src img = Ok refl
    /\ transform src img = Ok out
    /\ (exists r, bands out = [("ndvi", r)])
    /\ properties out = properties img
    /\ forall p, valueAt out "ndvi" p
                 = ndPixel (calibrated gain offset (nir p))
                           (calibrated gain offset (red p)).
Proof.
  intros Hg Ho Hn Hr.
  assert (usable src img = true) as Hu by (unfold usable; by rewrite Hg, Ho, Hn, Hr).
  destruct (usable_transform _ _ Hu) as [out Hout].
  destruct (transform_Ok _ _ _ Hout) as (refl & r1 & r2 & Hrefl & _ & _ & Hb & Hp).
  exists refl, out. split; [done|]. split; [done|].
  split; [by eexists|]. split; [done|].
  intros p. destruct (valueAt_transform src img out p Hout) as (refl' & Hrefl' & ->).
  rewrite Hrefl in Hrefl'. injection Hrefl' as <-.
  rewrite !(valueAt_reflectanceOf _ _ _ _ _ _ p Hrefl Hg Ho).
  rewrite window_nir, window_red.
  by rewrite (band_valueAt _ _ _ _ Hn), (band_valueAt _ _ _ _ Hr).
Qed.

(** The spec's own example: calibrated NIR 0.5 and RED 0.1 give 0.6667. *)
Example ndPixel_example :
  exists v, ndPixel (Some (5 # 10)) (Some (1 # 10)) = Some v /\ (v == 2 # 3)%Q.
Proof. eexists. split; [reflexivity|]. reflexivity. Qed.

(** C4: where the calibrated near-infrared and red values [N] and [R] of a
    pixel are non-negative, the transform yields a raster whose value there
    lies in [-1, 1] when [N + R > 0] and which is masked there (no value at
    all) when [N + R = 0]; and no pixel of the raster ever carries a value
    outside [-1, 1].  The transform is a total function: it yields a raster
    or an error value, nothing else. *)
Theorem C4_ndvi_range_and_mask (src : Source) (img : Image) (gain : Q)
    (offset : option Q) (nir red : Raster) (p : Pixel) (N R : Q) :
  gainOf src img = Ok gain ->
  offsetOf src img = Ok offset ->
  band img (nirBand src) = Some nir ->
  band img (redBand src) = Some red ->
  calibrated gain offset (nir p) = Some N ->
  calibrated gain offset (red p) = Some R ->
  (0 <= N)%Q -> (0 <= R)%Q ->
  exists out,
    transform src img = Ok out
    /\ ((0 < N + R)%Q ->
        exists v, valueAt out "ndvi" p = Some v /\ (-1 <= v <= 1)%Q)
    /\ ((N + R == 0)%Q -> valueAt out "ndvi" p = None)
    /\ (forall q v, valueAt out "ndvi" q = Some v -> (-1 <= v <= 1)%Q).
Proof.
  intros Hg Ho Hn Hr HN HR H0N H0R.
  destruct (transform_value src img gain offset nir red Hg Ho Hn Hr)
    as (refl & out & _ & Hout & _ & _ & Hv).
  exists out. split; [done|]. split; [|split].
  - intros Hpos. exists ((N - R) / (N + R))%Q.
    assert (~ (N + R == 0)%Q) as Hs by (intros E; rewrite E in Hpos; by apply Qlt_irrefl in Hpos).
    split; [|by apply ratio_range].
    rewrite Hv, HN, HR. by apply ndPixel_value.
  - intros Hz. rewrite Hv, HN, HR. by apply ndPixel_zero_sum.
  - intros q v Hq. rewrite Hv in Hq. by apply ndPixel_range in Hq.
Qed.

Lemma C4_ndvi_range_and_mask_witness :
  exists out,
    transform Sentinel2 Samples.sentinelScene = Ok out
    /\ ((0 < 3000 * (1 # 10000) + 1000 * (1 # 10000))%Q ->
        exists v, valueAt out "ndvi" (0, 0) = Some v /\ (-1 <= v <= 1)%Q)
    /\ ((3000 * (1 # 10000) + 1000 * (1 # 10000) == 0)%Q ->
        valueAt out "ndvi" (0, 0) = None)
    /\ (forall q v, valueAt out "ndvi" q = Some v -> (-1 <= v <= 1)%Q).
Proof.
  apply (C4_ndvi_range_and_mask Sentinel2 Samples.sentinelScene (1 # 10000) None
           (Samples.flat 3000) (Samples.flat 1000) (0, 0)
           (3000 * (1 # 10000))%Q (1000 * (1 # 10000))%Q);
    try reflexivity; vm_compute; discriminate.
Defined.

(** A pixel where both bands are zero: the transform masks it. *)
Example zero_sum_is_masked :
  exists out,
    transform Sentinel2 Samples.darkScene = Ok out
    /\ valueAt out "ndvi" (0, 0) = None.
Proof. eexists. split; reflexivity. Qed.

(** ** The two band windows *)

Lemma matchesAny_nil (s : string) : matchesAny [] s = false.
Proof. induction s as [|c s IH]; simpl; done. Qed.

Lemma matchesAny_any_star (s : string) :
  matchesAny [RSeq REps (RStar RAny)] s = true.
Proof. induction s as [|c s IH]; simpl; done. Qed.

(** ['B.*'] selects exactly the bands whose name starts with B. *)
Lemma matches_B_any (n : string) :
  matches pat_B_any n = true <-> exists rest, n = String "B"%char rest.
Proof.
  unfold matches. destruct n as [|c rest]; simpl.
  - split; [done|]. by intros [? ?].
  - destruct (Ascii.eqb_spec c "B"%char) as [->|Hne]; simpl.
    + split; [by eexists|]. intros _. apply matchesAny_any_star.
    + rewrite matchesAny_nil. split; [done|]. intros [rest' Heq]. injection Heq as Hc _. done.
Qed.

Lemma in_range_2_5 (c : ascii) :
  in_range "2"%char "5"%char c = true ->
  c = "2"%char \/ c = "3"%char \/ c = "4"%char \/ c = "5"%char.
Proof.
  unfold in_range. intros [H1 H2]%andb_prop.
  apply N.leb_le in H1, H2. simpl in H1, H2.
  rewrite <- (ascii_N_embedding c).
  assert (N_of_ascii c = 50 \/ N_of_ascii c = 51 \/ N_of_ascii c = 52
          \/ N_of_ascii c = 53)%N as Hc by lia.
  destruct Hc as [Hc|[Hc|[Hc|Hc]]]; rewrite Hc; auto.
Qed.

(** ['SR_B[2-5]'] selects exactly SR_B2, SR_B3, SR_B4 and SR_B5. *)
Lemma matches_SR_B_2_5 (n : string) :
  matches pat_SR_B_2_5 n = true
  <-> n = "SR_B2" \/ n = "SR_B3" \/ n = "SR_B4" \/ n = "SR_B5".
Proof.
  split.
  - unfold matches, pat_SR_B_2_5.
    destruct n as [|c1 n]; [done|]. simpl.
    destruct (Ascii.eqb_spec c1 "S"%char) as [->|]; simpl; [|by rewrite matchesAny_nil].
    destruct n as [|c2 n]; [done|]. simpl.
    destruct (Ascii.eqb_spec c2 "R"%char) as [->|]; simpl; [|by rewrite matchesAny_nil].
    destruct n as [|c3 n]; [done|]. simpl.
    destruct (Ascii.eqb_spec c3 "_"%char) as [->|]; simpl; [|by rewrite matchesAny_nil].
    destruct n as [|c4 n]; [done|]. simpl.
    destruct (Ascii.eqb_spec c4 "B"%char) as [->|]; simpl; [|by rewrite matchesAny_nil].
    destruct n as [|c5 n]; [done|]. simpl.
    destruct (in_range "2"%char "5"%char c5) eqn:Hr; simpl; [|by rewrite matchesAny_nil].
    destruct n as [|c6 n]; [|simpl; by rewrite matchesAny_nil].
    intros _. destruct (in_range_2_5 c5 Hr) as [ -> | [ -> | [ -> | -> ] ] ]; auto.
  - intros [ -> | [ -> | [ -> | -> ] ] ]; reflexivity.
Qed.

(* ===================================================================== *)
(** * The transform, band by band and pixel by pixel *)
(* ===================================================================== *)

Lemma ndPixel_masked (x y : Q) :
  (x < 0)%Q \/ (y < 0)%Q \/ (x + y == 0)%Q -> ndPixel (Some x) (Some y) = None.
Proof.
  intros [Hx|[Hy|Hs]].
  - unfold ndPixel. destruct (Qle_bool 0 x) eqn:E; [|done].
    apply Qle_bool_iff in E. by apply Qle_not_lt in E.
  - unfold ndPixel. destruct (Qle_bool 0 y) eqn:E; [|by rewrite orb_true_r].
    apply Qle_bool_iff in E. by apply Qle_not_lt in E.
  - by apply ndPixel_zero_sum.
Qed.

Lemma ndPixel_where_defined (x y : Q) :
  ndviWhereDefined x y (ndPixel (Some x) (Some y)).
Proof. split; [apply ndPixel_value|apply ndPixel_masked]. Qed.

Lemma In_bandNames_reflectanceOf (src : Source) (img refl : Image) (n : string) :
  reflectanceOf src img = Ok refl ->
  In n (bandNames refl) <-> In n (bandNames img) /\ matches (window src) n = true.
Proof.
  intros (g & o & _ & _ & Hnames & _)%reflectanceOf_Ok.
  rewrite Hnames. apply filter_In.
Qed.

(** C3, as the code has it.  On a Landsat image that has the bands SR_B5
    and SR_B4 and numeric red-band gain and offset in its metadata
    (REFLECTANCE_MULT_BAND_4, REFLECTANCE_ADD_BAND_4), [processLandsat]
    calibrates exactly the bands SR_B2..SR_B5, each as [raw * gain + offset]
    with that one gain and offset; on a Sentinel-2 image that has the bands
    B8 and B4, [processSentinel] scales exactly the bands whose name starts
    with B, each as [raw * 0.0001].  On both, the raster emitted has at each
    pixel the ratio [(N - R) / (N + R)] of the calibrated near-infrared and
    red values where these are non-negative with a non-zero sum, and no
    value where one of them is negative, their sum is zero, or a band is
    masked. *)
Theorem C3_ndvi_after_calibration (img : Image) :
  (forall gain offset nir red,
     toNumber (get img "REFLECTANCE_MULT_BAND_4") = Ok gain ->
     toNumber (get img "REFLECTANCE_ADD_BAND_4") = Ok offset ->
     band img "SR_B5" = Some nir -> band img "SR_B4" = Some red ->
     exists refl out,
       landsatReflectance img = Ok refl
       /\ (forall n, In n (bandNames refl)
                     <-> In n (bandNames img)
                         /\ In n ["SR_B2"; "SR_B3"; "SR_B4"; "SR_B5"])
       /\ (forall n p, In n ["SR_B2"; "SR_B3"; "SR_B4"; "SR_B5"] ->
             valueAt refl n p = (fun v => v * gain + offset)%Q <$> valueAt img n p)
       /\ processLandsat img = Ok out
       /\ forall p,
            match nir p, red p with
            | Some a, Some b =>
                ndviWhereDefined (a * gain + offset) (b * gain + offset)
                  (valueAt out "ndvi" p)
            | _, _ => valueAt out "ndvi" p = None
            end)
  /\ (forall nir red,
        band img "B8" = Some nir -> band img "B4" = Some red ->
        exists refl out,
          sentinelReflectance img = Ok refl
          /\ (forall n, In n (bandNames refl)
                        <-> In n (bandNames img) /\ exists rest, n = String "B"%char rest)
          /\ (forall n p, (exists rest, n = String "B"%char rest) ->
                valueAt refl n p = (fun v => v * (1 # 10000))%Q <$> valueAt img n p)
          /\ processSentinel img = Ok out
          /\ forall p,
               match nir p, red p with
               | Some a, Some b =>
                   ndviWhereDefined (a * (1 # 10000)) (b * (1 # 10000))
                     (valueAt out "ndvi" p)
               | _, _ => valueAt out "ndvi" p = None
               end).
Proof.
  split.
  - intros gain offset nir red Hg Ho Hn Hr.
    assert (gainOf Landsat img = Ok gain) as Hg' by exact Hg.
    assert (offsetOf Landsat img = Ok (Some offset)) as Ho'
      by (unfold offsetOf; by rewrite Ho).
    destruct (transform_value Landsat img gain (Some offset) nir red Hg' Ho' Hn Hr)
      as (refl & out & Hrefl & Hout & _ & _ & Hv).
    exists refl, out. split; [exact Hrefl|]. split; [|split; [|split; [exact Hout|]]].
    + intros n. rewrite (In_bandNames_reflectanceOf Landsat img refl n Hrefl).
      change (window Landsat) with pat_SR_B_2_5. rewrite matches_SR_B_2_5.
      simpl. intuition congruence.
    + intros n p Hin.
      rewrite (valueAt_reflectanceOf Landsat img refl gain (Some offset) n p Hrefl Hg' Ho').
      change (window Landsat) with pat_SR_B_2_5.
      rewrite (proj2 (matches_SR_B_2_5 n)) by (simpl in Hin; intuition congruence).
      by destruct (valueAt img n p).
    + intros p. rewrite Hv. destruct (nir p) as [a|], (red p) as [b|]; try done.
      apply ndPixel_where_defined.
  - intros nir red Hn Hr.
    destruct (transform_value Sentinel2 img (1 # 10000) None nir red)
      as (refl & out & Hrefl & Hout & _ & _ & Hv); try done.
    exists refl, out. split; [exact Hrefl|]. split; [|split; [|split; [exact Hout|]]].
    + intros n. rewrite (In_bandNames_reflectanceOf Sentinel2 img refl n Hrefl).
      change (window Sentinel2) with pat_B_any. by rewrite matches_B_any.
    + intros n p Hin.
      rewrite (valueAt_reflectanceOf Sentinel2 img refl (1 # 10000) None n p Hrefl)
        by done.
      change (window Sentinel2) with pat_B_any.
      rewrite (proj2 (matches_B_any n) Hin).
      by destruct (valueAt img n p).
    + intros p. rewrite Hv. destruct (nir p) as [a|], (red p) as [b|]; try done.
      apply ndPixel_where_defined.
Qed.

Lemma C3_ndvi_after_calibration_witness :
  (exists refl out,
     landsatReflectance Samples.landsatScene = Ok refl
     /\ (forall n, In n (bandNames refl)
                   <-> In n (bandNames Samples.landsatScene)
                       /\ In n ["SR_B2"; "SR_B3"; "SR_B4"; "SR_B5"])
     /\ (forall n p, In n ["SR_B2"; "SR_B3"; "SR_B4"; "SR_B5"] ->
           valueAt refl n p
           = (fun v => v * (275 # 10000000) + (-2 # 10))%Q
               <$> valueAt Samples.landsatScene n p)
     /\ processLandsat Samples.landsatScene = Ok out
     /\ forall p,
          match Samples.flat 20000 p, Samples.flat 9000 p with
          | Some a, Some b =>
              ndviWhereDefined (a * (275 # 10000000) + (-2 # 10))
                (b * (275 # 10000000) + (-2 # 10)) (valueAt out "ndvi" p)
          | _, _ => valueAt out "ndvi" p = None
          end)
  /\ (exists refl out,
        sentinelReflectance Samples.sentinelScene = Ok refl
        /\ (forall n, In n (bandNames refl)
                      <-> In n (bandNames Samples.sentinelScene)
                          /\ exists rest, n = String "B"%char rest)
        /\ (forall n p, (exists rest, n = String "B"%char rest) ->
              valueAt refl n p
              = (fun v => v * (1 # 10000))%Q <$> valueAt Samples.sentinelScene n p)
        /\ processSentinel Samples.sentinelScene = Ok out
        /\ forall p,
             match Samples.flat 3000 p, Samples.flat 1000 p with
             | Some a, Some b =>
                 ndviWhereDefined (a * (1 # 10000)) (b * (1 # 10000))
                   (valueAt out "ndvi" p)
             | _, _ => valueAt out "ndvi" p = None
             end).
Proof.
  split.
  - apply (proj1 (C3_ndvi_after_calibration Samples.landsatScene)
             (275 # 10000000) (-2 # 10) (Samples.flat 20000) (Samples.flat 9000));
      reflexivity.
  - apply (proj2 (C3_ndvi_after_calibration Samples.sentinelScene)
             (Samples.flat 3000) (Samples.flat 1000)); reflexivity.
Defined.

(** C3 as stated fails where a calibrated value is negative.  In this
    Landsat scene the red band calibrates to [5000 * 0.0000275 - 0.2 = -1/16]
    and the near-infrared to [7/20]: the ratio of the claim would be 33/23,
    and the transform emits no value there. *)
Lemma C3_negative_reflectance_counterexample :
  exists (out : Image) (N R : Q),
    processLandsat Samples.shadowScene = Ok out
    /\ valueAt Samples.shadowScene "SR_B5" (0, 0) = Some 20000%Q
    /\ valueAt Samples.shadowScene "SR_B4" (0, 0) = Some 5000%Q
    /\ N = (20000 * (275 # 10000000) + (-2 # 10))%Q
    /\ R = (5000 * (275 # 10000000) + (-2 # 10))%Q
    /\ (N == 7 # 20)%Q /\ (R == -1 # 16)%Q
    /\ ((N - R) / (N + R) == 33 # 23)%Q
    /\ valueAt out "ndvi" (0, 0) = None
    /\ valueAt out "ndvi" (0, 0) <> Some ((N - R) / (N + R))%Q.
Proof.
  eexists. exists (20000 * (275 # 10000000) + (-2 # 10))%Q.
  exists (5000 * (275 # 10000000) + (-2 # 10))%Q.
  split; [reflexivity|]. split; [reflexivity|]. split; [reflexivity|].
  split; [reflexivity|]. split; [reflexivity|]. split; [reflexivity|].
  split; [reflexivity|]. split; [reflexivity|].
  split; [vm_compute; reflexivity|]. vm_compute. discriminate.
Qed.

(* ===================================================================== *)
(** * Sorting and the median *)
(* ===================================================================== *)

Section InsertionSort.

Context {A : Type} (le : A -> A -> bool).

Lemma insert_sorted_perm (x : A) (l : list A) :
  Permutation (insert_sorted le x l) (x :: l).
Proof.
  induction l as [|y l IH]; simpl; [done|].
  destruct (le x y); [done|].
  rewrite IH. apply perm_swap.
Qed.

Lemma isort_perm (l : list A) : Permutation (isort le l) l.
Proof.
  induction l as [|x l IH]; simpl; [done|].
  rewrite insert_sorted_perm. by constructor.
Qed.

Lemma length_isort (l : list A) : length (isort le l) = length l.
Proof. apply Permutation_length, isort_perm. Qed.

Lemma Forall_isort (P : A -> Prop) (l : list A) :
  Forall P l -> Forall P (isort le l).
Proof. intros H. by rewrite isort_perm. Qed.

Hypothesis le_total : forall x y, le x y = false -> le y x = true.
Hypothesis le_trans : forall x y z, le x y = true -> le y z = true -> le x z = true.

Lemma insert_sorted_sorted (x : A) (l : list A) :
  StronglySorted (fun a b => le a b = true) l ->
  StronglySorted (fun a b => le a b = true) (insert_sorted le x l).
Proof.
  induction l as [|y l IH]; simpl; intros Hs.
  - constructor; [constructor|constructor].
  - apply StronglySorted_inv in Hs as [Hs Hy].
    destruct (le x y) eqn:Hxy.
    + constructor; [by constructor|].
      constructor; [done|].
      eapply Forall_impl; [exact Hy|]. intros z Hz. simpl in Hz. by eapply le_trans.
    + constructor; [by apply IH|].
      rewrite insert_sorted_perm. constructor; [by apply le_total|done].
Qed.

Lemma isort_sorted (l : list A) :
  StronglySorted (fun a b => le a b = true) (isort le l).
Proof.
  induction l as [|x l IH]; simpl; [constructor|].
  by apply insert_sorted_sorted.
Qed.

Hypothesis le_refl : forall x, le x x = true.

(** In a sorted list, an earlier entry is below a later one. *)
Lemma sorted_lookup_le (l : list A) (i j : nat) (a b : A) :
  StronglySorted (fun a b => le a b = true) l ->
  (i <= j)%nat -> l !! i = Some a -> l !! j = Some b -> le a b = true.
Proof.
  intros Hs. revert i j. induction Hs as [|x l Hs IH Hx]; intros i j Hij Hi Hj.
  - done.
  - destruct i as [|i], j as [|j]; simpl in *.
    + injection Hi as <-. injection Hj as <-. apply le_refl.
    + injection Hi as <-. rewrite Forall_forall in Hx. apply Hx.
      by eapply list_elem_of_lookup_2.
    + lia.
    + apply (IH i j); [lia|done|done].
Qed.

End InsertionSort.

Lemma length_filter_all {A} (f : A -> bool) (l : list A) :
  (forall x, x ∈ l -> f x = true) -> length (List.filter f l) = length l.
Proof.
  intros H. rewrite forallb_filter_id; [done|].
  apply forallb_forall. intros x Hx. apply H. by apply list_elem_of_In.
Qed.

Lemma length_filter_perm {A} (f : A -> bool) (l1 l2 : list A) :
  Permutation l1 l2 -> length (List.filter f l1) = length (List.filter f l2).
Proof.
  induction 1 as [|x l1 l2 _ IH|x y l|l1 l2 l3 _ IH1 _ IH2]; simpl.
  - done.
  - destruct (f x); simpl; by rewrite IH.
  - destruct (f x), (f y); done.
  - by rewrite IH1.
Qed.

(** If the first [k] entries of a list satisfy [f], at least [k] entries do. *)
Lemma count_prefix {A} (f : A -> bool) (l : list A) (k : nat) :
  (k <= length l)%nat ->
  (forall i x, (i < k)%nat -> l !! i = Some x -> f x = true) ->
  (k <= length (List.filter f l))%nat.
Proof.
  intros Hk H. rewrite <- (take_drop k l), Stdlib.Lists.List.filter_app, length_app.
  rewrite length_filter_all.
  - rewrite length_take. lia.
  - intros x [i Hi]%list_elem_of_lookup_1.
    apply lookup_take_Some in Hi as [Hi Hlt]. by apply (H i).
Qed.

(** If the entries from position [k] on satisfy [f], at least
    [length l - k] entries do. *)
Lemma count_suffix {A} (f : A -> bool) (l : list A) (k : nat) :
  (forall i x, (k <= i)%nat -> l !! i = Some x -> f x = true) ->
  (length l - k <= length (List.filter f l))%nat.
Proof.
  intros H. rewrite <- (take_drop k l) at 2. rewrite Stdlib.Lists.List.filter_app, length_app.
  rewrite (length_filter_all f (drop k l)).
  - rewrite length_drop. lia.
  - intros x [i Hi]%list_elem_of_lookup_1.
    rewrite lookup_drop in Hi. apply (H (k + i)%nat); [lia|done].
Qed.

Lemma Qle_bool_total (x y : Q) : Qle_bool x y = false -> Qle_bool y x = true.
Proof.
  intros H. apply Qle_bool_iff.
  destruct (Qlt_le_dec y x) as [Hlt|Hle]; [by apply Qlt_le_weak|].
  apply Qle_bool_iff in Hle. congruence.
Qed.

Lemma Qle_bool_trans (x y z : Q) :
  Qle_bool x y = true -> Qle_bool y z = true -> Qle_bool x z = true.
Proof.
  rewrite !Qle_bool_iff. apply Qle_trans.
Qed.

Lemma Qle_bool_refl (x : Q) : Qle_bool x x = true.
Proof. apply Qle_bool_iff, Qle_refl. Qed.

Lemma medianQ_nil_iff (l : list Q) : medianQ l = None <-> l = [].
Proof.
  destruct l as [|x l]; [done|]. split; [|done].
  unfold medianQ. cbv zeta. rewrite length_isort.
  set (s := isort Qle_bool (x :: l)).
  assert (length s = S (length l)) as Hlen by (subst s; by rewrite length_isort).
  simpl length. cbn [Nat.eqb].
  pose proof (Nat.div_lt (S (length l)) 2 ltac:(lia) ltac:(lia)) as Hdiv.
  destruct (Nat.odd (S (length l))).
  - intros Hn. apply lookup_ge_None in Hn. lia.
  - destruct (s !! (S (length l) / 2 - 1)%nat) eqn:H1.
    + destruct (s !! (S (length l) / 2)%nat) eqn:H2; [done|].
      intros _. apply lookup_ge_None in H2. lia.
    + intros _. apply lookup_ge_None in H1. lia.
Qed.

(** The value [medianQ] returns splits the list in the middle: at least
    half of the values are not above it and at least half are not below. *)
Lemma medianQ_isMedian (l : list Q) (v : Q) :
  medianQ l = Some v -> isMedian v l.
Proof.
  unfold medianQ, isMedian, countLe, countGe.
  set (s := isort Qle_bool l).
  assert (Permutation s l) as Hp by apply isort_perm.
  assert (StronglySorted (fun a b => Qle_bool a b = true) s) as Hs
    by (apply isort_sorted; [apply Qle_bool_total|apply Qle_bool_trans]).
  rewrite <- !(length_filter_perm _ _ _ Hp), <- (Permutation_length Hp).
  set (n := length s).
  destruct (Nat.eqb n 0) eqn:Hn0; [done|]. apply Nat.eqb_neq in Hn0.
  destruct (Nat.odd n) eqn:Hodd.
  - intros Hv.
    assert (n = 2 * (n / 2) + 1)%nat as Hn.
    { apply Nat.odd_spec in Hodd as [k Hk]. rewrite Hk.
      replace (2 * k + 1)%nat with (1 + k * 2)%nat by lia.
      rewrite Nat.div_add by lia. simpl. lia. }
    split.
    + pose proof (count_prefix (fun x => Qle_bool x v) s (S (n / 2)) ltac:(lia)) as Hc.
      enough (S (n / 2) <= length (List.filter (fun x => Qle_bool x v) s))%nat by lia.
      apply Hc. intros i x Hi Hx.
      apply (sorted_lookup_le Qle_bool Qle_bool_refl s i (n / 2)%nat); [done|lia|done|done].
    + pose proof (count_suffix (fun x => Qle_bool v x) s (n / 2)) as Hc.
      enough (n - n / 2 <= length (List.filter (fun x => Qle_bool v x) s))%nat by lia.
      apply Hc. intros i x Hi Hx.
      apply (sorted_lookup_le Qle_bool Qle_bool_refl s (n / 2)%nat i); [done|lia|done|done].
  - destruct (s !! (n / 2 - 1)%nat) as [a|] eqn:Ha; [|done].
    destruct (s !! (n / 2)%nat) as [b|] eqn:Hb; [|done].
    simpl. intros [= <-].
    assert (n = 2 * (n / 2))%nat as Hn.
    { assert (Nat.even n = true) as He by (rewrite <- Nat.negb_odd, Hodd; done).
      apply Nat.even_spec in He as [k Hk]. rewrite Hk.
      rewrite (Nat.mul_comm 2 k), Nat.div_mul by lia. lia. }
    assert (a <= b)%Q as Hab.
    { apply Qle_bool_iff.
      apply (sorted_lookup_le Qle_bool Qle_bool_refl s (n / 2 - 1)%nat (n / 2)%nat);
        [done|lia|done|done]. }
    assert (a <= (a + b) / 2)%Q as Hlo by (apply Qle_shift_div_l; lra).
    assert ((a + b) / 2 <= b)%Q as Hhi by (apply Qle_shift_div_r; lra).
    split.
    + pose proof (count_prefix (fun x => Qle_bool x ((a + b) / 2)) s (n / 2) ltac:(lia)) as Hc.
      enough (n / 2 <= length (List.filter (fun x => Qle_bool x ((a + b) / 2)) s))%nat by lia.
      apply Hc. intros i x Hi Hx.
      apply Qle_bool_iff. apply Qle_trans with a; [|done].
      apply Qle_bool_iff.
      apply (sorted_lookup_le Qle_bool Qle_bool_refl s i (n / 2 - 1)%nat); [done|lia|done|done].
    + pose proof (count_suffix (fun x => Qle_bool ((a + b) / 2) x) s (n / 2)) as Hc.
      enough (n - n / 2 <= length (List.filter (fun x => Qle_bool ((a + b) / 2) x) s))%nat by lia.
      apply Hc. intros i x Hi Hx.
      apply Qle_bool_iff. apply Qle_trans with b; [done|].
      apply Qle_bool_iff.
      apply (sorted_lookup_le Qle_bool Qle_bool_refl s (n / 2)%nat i); [done|lia|done|done].
Qed.

(** The median lies between two of the values. *)
Lemma medianQ_between (l : list Q) (v : Q) :
  medianQ l = Some v ->
  exists lo hi, In lo l /\ In hi l /\ (lo <= v <= hi)%Q.
Proof.
  unfold medianQ.
  set (s := isort Qle_bool l).
  assert (Permutation s l) as Hp by apply isort_perm.
  assert (StronglySorted (fun a b => Qle_bool a b = true) s) as Hs
    by (apply isort_sorted; [apply Qle_bool_total|apply Qle_bool_trans]).
  assert (forall i x, s !! i = Some x -> In x l) as Hin.
  { intros i x Hx. apply list_elem_of_In. rewrite <- Hp.
    by eapply list_elem_of_lookup_2. }
  set (n := length s).
  destruct (Nat.eqb n 0); [done|].
  destruct (Nat.odd n).
  - intros Hv. exists v, v. split; [by eapply Hin|]. split; [by eapply Hin|].
    split; apply Qle_refl.
  - destruct (s !! (n / 2 - 1)%nat) as [a|] eqn:Ha; [|done].
    destruct (s !! (n / 2)%nat) as [b|] eqn:Hb; [|done].
    simpl. intros [= <-].
    assert (a <= b)%Q as Hab.
    { apply Qle_bool_iff.
      apply (sorted_lookup_le Qle_bool Qle_bool_refl s (n / 2 - 1)%nat (n / 2)%nat);
        [done|lia|done|done]. }
    exists a, b. split; [by eapply Hin|]. split; [by eapply Hin|]. split.
    + apply Qle_shift_div_l; lra.
    + apply Qle_shift_div_r; lra.
Qed.

(* ===================================================================== *)
(** * Monthly composites *)
(* ===================================================================== *)

Lemma calendarRangeMonth_same (m : Z) (img : Image) :
  calendarRangeMonth m m img = inMonth m img.
Proof.
  unfold calendarRangeMonth, inMonth. destruct (timeStart img) as [t|]; [|done].
  rewrite Z.leb_refl.
  destruct (Z.eqb_spec (month_of t) m) as [->|Hne].
  - by rewrite Z.leb_refl.
  - destruct (Z.leb_spec m (month_of t)), (Z.leb_spec (month_of t) m); simpl; try done.
    lia.
Qed.

Lemma filter_calendarRangeMonth (m : Z) (c : list Image) :
  List.filter (calendarRangeMonth m m) c = List.filter (inMonth m) c.
Proof. apply filter_ext. intros img. apply calendarRangeMonth_same. Qed.

Lemma assoc_names {A} (g : string -> A) (n : string) (ks : list string) :
  assoc n (map (fun k => (k, g k)) ks)
  = if bool_decide (n ∈ ks) then Some (g n) else None.
Proof.
  induction ks as [|k ks IH]; simpl; [done|].
  destruct (String.eqb_spec k n) as [->|Hne].
  - rewrite bool_decide_eq_true_2; [done|]. apply list_elem_of_here.
  - rewrite IH. destruct (decide (n ∈ ks)) as [Hin|Hnin].
    + rewrite (bool_decide_eq_true_2 _ Hin).
      rewrite bool_decide_eq_true_2; [done|]. by apply list_elem_of_further.
    + rewrite (bool_decide_eq_false_2 _ Hnin).
      rewrite bool_decide_eq_false_2; [done|].
      intros [?|?]%elem_of_cons; [congruence|done].
Qed.

Lemma bandNames_median (c : list Image) :
  bandNames (median c) = match c with [] => [] | first :: _ => bandNames first end.
Proof.
  destruct c as [|first rest]; [done|].
  unfold median, bandNames. cbn [bands].
  generalize (bands first).*1. intros ks.
  induction ks as [|k ks IH]; simpl; [done|]. f_equal. exact IH.
Qed.

Lemma valueAt_median (c : list Image) (n : string) (p : Pixel) :
  valueAt (median c) n p
  = if bool_decide (n ∈ bandNames (median c))
    then medianQ (omap (fun img => valueAt img n p) c)
    else None.
Proof.
  rewrite bandNames_median. destruct c as [|first rest].
  - by rewrite bool_decide_eq_false_2 by apply not_elem_of_nil.
  - unfold valueAt at 1, band, median. cbn [bands].
    rewrite (assoc_names
               (fun n => fun p => medianQ (omap (fun img => valueAt img n p) (first :: rest)))).
    by destruct (bool_decide (n ∈ bandNames first)).
Qed.

(** C5, as the code has it: the composite of month [m] is built from
    exactly the images of the collection whose acquisition month is [m], of
    whatever year: an image acquired at any instant of any day of month [m]
    of any year is among them.  The composite has the bands of the first of
    them; at each pixel of each band, if none of them has a value there the
    pixel is masked, and otherwise it has a value, which is a median of the
    values they have there (at least half of them on either side) and lies
    between two of them.  When no image falls in the month the composite is
    still produced, without error: it is an image with no band at all. *)
Theorem C5_monthly_median (Y : Z) (collection : list Image) (m : Z) :
  1 <= m <= 12 ->
  exists img selected,
    computeMonthlyNDVI Y collection !! Z.to_nat (m - 1) = Some img
    /\ selected = List.filter (calendarRangeMonth m m) collection
    /\ (forall x, In x selected
                  <-> In x collection /\ exists t, timeStart x = Some t /\ month_of t = m)
    /\ (forall x y d ms,
          In x collection ->
          timeStart x = Some (fromYMD y m d + ms) ->
          1 <= d <= days_in_month y m -> 0 <= ms < msPerDay ->
          In x selected)
    /\ bandNames img
       = match selected with
         | [] => []
         | first :: _ => bandNames first
         end
    /\ (forall n p,
          In n (bandNames img) ->
          (forall x, In x selected -> valueAt x n p = None) ->
          valueAt img n p = None)
    /\ (forall n p x w,
          In n (bandNames img) ->
          In x selected -> valueAt x n p = Some w ->
          exists v lo hi,
            valueAt img n p = Some v
            /\ isMedian v (omap (fun x => valueAt x n p) selected)
            /\ In lo (omap (fun x => valueAt x n p) selected)
            /\ In hi (omap (fun x => valueAt x n p) selected)
            /\ (lo <= v <= hi)%Q)
    /\ (selected = [] -> bandNames img = []).
Proof.
  intros Hm. exists (monthlyComposite Y collection m).
  exists (List.filter (calendarRangeMonth m m) collection).
  split; [by apply computeMonthlyNDVI_lookup|]. split; [done|].
  rewrite filter_calendarRangeMonth.
  assert (forall n p, valueAt (monthlyComposite Y collection m) n p
                      = valueAt (median (List.filter (inMonth m) collection)) n p) as Hv.
  { intros n p. unfold valueAt, band. rewrite bands_monthlyComposite.
    by rewrite filter_calendarRangeMonth. }
  assert (bandNames (monthlyComposite Y collection m)
          = bandNames (median (List.filter (inMonth m) collection))) as Hb.
  { unfold bandNames. rewrite bands_monthlyComposite.
    by rewrite filter_calendarRangeMonth. }
  split.
  { intros x. rewrite filter_In. unfold inMonth. split.
    - intros [Hin Ht]. split; [done|].
      destruct (timeStart x) as [t|]; [|done]. exists t. split; [done|]. lia.
    - intros [Hin (t & -> & <-)]. split; [done|]. apply Z.eqb_refl. }
  split.
  { intros x y d ms Hin Ht Hd Hms. apply filter_In. split; [done|].
    unfold inMonth. rewrite Ht, month_of_fromYMD by done. apply Z.eqb_refl. }
  split; [by rewrite Hb, bandNames_median|].
  split.
  { intros n p Hn Hnone. rewrite Hv, valueAt_median.
    destruct (bool_decide _); [|done].
    apply medianQ_nil_iff. clear Hv Hb Hn.
    induction (List.filter (inMonth m) collection) as [|x l IH]; [done|].
    cbn [omap list_omap]. rewrite (Hnone x) by (by left).
    apply IH. intros x' Hx'. apply Hnone. by right. }
  split.
  { intros n p x w Hn Hx Hw. rewrite Hv, valueAt_median.
    rewrite Hb in Hn. rewrite bool_decide_eq_true_2 by (by apply list_elem_of_In).
    set (vals := omap (fun x => valueAt x n p) (List.filter (inMonth m) collection)).
    assert (In w vals) as Hwin.
    { apply list_elem_of_In, list_elem_of_omap. exists x.
      split; [by apply list_elem_of_In|done]. }
    destruct (medianQ vals) as [v|] eqn:Hmed.
    - destruct (medianQ_between vals v Hmed) as (lo & hi & Hlo & Hhi & Hle).
      exists v, lo, hi. split; [done|]. split; [by apply medianQ_isMedian|]. done.
    - apply medianQ_nil_iff in Hmed. rewrite Hmed in Hwin. destruct Hwin. }
  intros He. by rewrite Hb, He.
Qed.

Lemma C5_monthly_median_witness :
  exists img selected,
    computeMonthlyNDVI 2022 Samples.winterStack !! Z.to_nat (1 - 1) = Some img
    /\ selected = List.filter (calendarRangeMonth 1 1) Samples.winterStack
    /\ (forall x, In x selected
                  <-> In x Samples.winterStack
                      /\ exists t, timeStart x = Some t /\ month_of t = 1)
    /\ (forall x y d ms,
          In x Samples.winterStack ->
          timeStart x = Some (fromYMD y 1 d + ms) ->
          1 <= d <= days_in_month y 1 -> 0 <= ms < msPerDay ->
          In x selected)
    /\ bandNames img
       = match selected with
         | [] => []
         | first :: _ => bandNames first
         end
    /\ (forall n p,
          In n (bandNames img) ->
          (forall x, In x selected -> valueAt x n p = None) ->
          valueAt img n p = None)
    /\ (forall n p x w,
          In n (bandNames img) ->
          In x selected -> valueAt x n p = Some w ->
          exists v lo hi,
            valueAt img n p = Some v
            /\ isMedian v (omap (fun x => valueAt x n p) selected)
            /\ In lo (omap (fun x => valueAt x n p) selected)
            /\ In hi (omap (fun x => valueAt x n p) selected)
            /\ (lo <= v <= hi)%Q)
    /\ (selected = [] -> bandNames img = []).
Proof. apply (C5_monthly_median 2022 Samples.winterStack 1). lia. Defined.

(** C5 as stated fails for the empty month: with no image of February the
    composite of February is produced, but it has no band, so it is not a
    raster with a band masked everywhere. *)
Lemma C5_empty_month_counterexample :
  List.filter (calendarRangeMonth 2 2) Samples.winterStack = []
  /\ exists img,
       computeMonthlyNDVI 2022 Samples.winterStack !! 1%nat = Some img
       /\ bandNames img = []
       /\ ~ fullyMaskedRaster img.
Proof.
  split; [vm_compute; reflexivity|].
  exists (monthlyComposite 2022 Samples.winterStack 2). split; [reflexivity|].
  assert (bandNames (monthlyComposite 2022 Samples.winterStack 2) = []) as Hb
    by (vm_compute; reflexivity).
  split; [exact Hb|].
  intros (n & Hn & _). rewrite Hb in Hn. discriminate Hn.
Qed.

(** The spec's example: three January images (here one of them from 2019)
    and none in February.  January's composite is the median of the three,
    February's has no data, and there are twelve composites. *)
Example january_median_february_empty :
  length (computeMonthlyNDVI 2022 Samples.winterStack) = 12%nat
  /\ (exists jan, computeMonthlyNDVI 2022 Samples.winterStack !! 0%nat = Some jan
                  /\ valueAt jan "ndvi" (0, 0) = Some (5 # 10))
  /\ (exists feb, computeMonthlyNDVI 2022 Samples.winterStack !! 1%nat = Some feb
                  /\ bands feb = []
                  /\ valueAt feb "ndvi" (0, 0) = None).
Proof.
  split; [reflexivity|]. split.
  - eexists. split; [reflexivity|]. vm_compute. reflexivity.
  - eexists. split; [reflexivity|]. split; vm_compute; reflexivity.
Qed.

(* ===================================================================== *)
(** * The handlers *)
(* ===================================================================== *)

Section Handlers.

Variable backend : Backend.

(** What a run of the analysis leaves alone, and what it adds to the
    panel. *)
Lemma performNDVIAnalysis_unfold (aoi : Geometry) (year : Z) (pts : list Feature)
    (s : AppState) :
  performNDVIAnalysis backend aoi year pts s
  = analysisFrom backend (ndviCollectionOf backend aoi year) aoi pts s.
Proof. reflexivity. Qed.

Lemma performNDVIAnalysis_frame (aoi : Geometry) (year : Z) (pts : list Feature)
    (s : AppState) :
  let s' := performNDVIAnalysis backend aoi year pts s in
  userAOI s' = userAOI s /\ startYear s' = startYear s
  /\ points s' = points s /\ pointCounter s' = pointCounter s
  /\ drawingTools s' = drawingTools s /\ alerts s' = alerts s
  /\ mapListeners s' = if clearUnlistens backend then [] else mapListeners s.
Proof.
  rewrite performNDVIAnalysis_unfold. unfold analysisFrom, generateExportURL. cbv zeta.
  destruct (ndviCollectionOf backend aoi year); simpl;
    destruct (0 <? length pts)%nat; simpl; repeat split.
Qed.

Lemma performNDVIAnalysis_panel (aoi : Geometry) (year : Z) (pts : list Feature)
    (s : AppState) :
  exists exportLabels,
    controlPanel (performNDVIAnalysis backend aoi year pts s)
    = controlPanel s
      ++ [Label "NDVI Trends Over Time (AOI):" bold None;
          ChartWidget
            (aoiChartOf (computeMonthlyNDVI (startYear s) <$> ndviCollectionOf backend aoi year)
                        aoi)]
      ++ (if (0 <? length pts)%nat
          then [Label "NDVI Comparison for Points:" bold None;
                ChartWidget
                  (pointsChartOf
                     (computeMonthlyNDVI (startYear s) <$> ndviCollectionOf backend aoi year)
                     pts)]
          else [])
      ++ exportLabels
    /\ regionCharts exportLabels = [].
Proof.
  rewrite performNDVIAnalysis_unfold. unfold analysisFrom, generateExportURL. cbv zeta.
  destruct (ndviCollectionOf backend aoi year) as [c|e]; simpl.
  - exists [Label "Export NDVI Map as GeoTIFF:" bold None;
            Label (downloadURL backend
                     (mkExport (clip (inside backend) aoi
                                  (toBands (computeMonthlyNDVI (startYear s) c)))
                               "GeoTIFF" 30 aoi))
                  [("color", "blue")]
                  (Some (downloadURL backend
                           (mkExport (clip (inside backend) aoi
                                        (toBands (computeMonthlyNDVI (startYear s) c)))
                                     "GeoTIFF" 30 aoi)))].
    destruct (0 <? length pts)%nat; simpl; rewrite <- ?app_assoc; simpl; split; reflexivity.
  - exists [].
    destruct (0 <? length pts)%nat; simpl; rewrite <- ?app_assoc; simpl; split; reflexivity.
Qed.

Lemma regionCharts_app (ws1 ws2 : list Widget) :
  regionCharts (ws1 ++ ws2) = regionCharts ws1 ++ regionCharts ws2.
Proof. unfold regionCharts. apply omap_app. Qed.

Lemma addedWidgets_app (s s' : AppState) (ws : list Widget) :
  controlPanel s' = controlPanel s ++ ws -> addedWidgets s s' = ws.
Proof. intros H. unfold addedWidgets. rewrite H. by rewrite drop_app_length. Qed.

(** The point charts a run adds: none for no point, else the one chart by
    region over the composites and the points. *)
Lemma performNDVIAnalysis_point_charts (aoi : Geometry) (year : Z)
    (pts : list Feature) (s : AppState) :
  regionCharts (addedWidgets s (performNDVIAnalysis backend aoi year pts s))
  = match pts with
    | [] => []
    | _ :: _ =>
        [pointsChartOf
           (computeMonthlyNDVI (startYear s) <$> ndviCollectionOf backend aoi year) pts]
    end.
Proof.
  destruct (performNDVIAnalysis_panel aoi year pts s) as (ex & Hp & Hex).
  rewrite (addedWidgets_app _ _ _ Hp).
  rewrite !regionCharts_app, Hex.
  destruct pts as [|f pts]; simpl; done.
Qed.

(** ** Adding points *)

Lemma addPoint_fields (lon lat : Q) (s : AppState) :
  let s' := addPoint lon lat s in
  pointCounter s' = (pointCounter s + 1)%N
  /\ points s' = points s ++ [featureAt lon lat (pointCounter s + 1)]
  /\ mapListeners s' = mapListeners s
  /\ userAOI s' = userAOI s /\ startYear s' = startYear s
  /\ drawingTools s' = drawingTools s /\ controlPanel s' = controlPanel s.
Proof. cbv zeta. repeat split. Qed.

(** Running [k] listeners adds [k] points, numbered on from the counter. *)
Lemma run_listeners (lon lat : Q) (hs : list ClickHandler) (s : AppState) :
  let s' := foldl (runHandler lon lat) s hs in
  pointCounter s' = (pointCounter s + N.of_nat (length hs))%N
  /\ points s'
     = points s
       ++ map (fun i => featureAt lon lat (pointCounter s + N.of_nat i)) (seq 1 (length hs))
  /\ mapListeners s' = mapListeners s
  /\ userAOI s' = userAOI s /\ startYear s' = startYear s
  /\ drawingTools s' = drawingTools s /\ controlPanel s' = controlPanel s.
Proof.
  revert s. induction hs as [|h hs IH]; intros s; cbv zeta.
  - simpl. rewrite N.add_0_r, app_nil_r. repeat split.
  - cbn [foldl]. destruct h. cbn [runHandler].
    destruct (IH (addPoint lon lat s)) as (Hc & Hp & Hl & Ha & Hy & Hd & Hw).
    destruct (addPoint_fields lon lat s) as (Hc' & Hp' & Hl' & Ha' & Hy' & Hd' & Hw').
    cbv zeta in *.
    rewrite Hc, Hp, Hl, Ha, Hy, Hd, Hw, Hc', Hp', Hl', Ha', Hy', Hd', Hw'.
    split; [simpl length; lia|]. split; [|done].
    rewrite <- app_assoc. f_equal. simpl length. cbn [seq map]. simpl app.
    f_equal.
    rewrite <- (fmap_S_seq 1), <- list_fmap_compose.
    apply list_fmap_ext. intros k i _. simpl. f_equal. lia.
Qed.

Lemma press_fields (s : AppState) :
  mapListeners (addPointButton_onClick s) = mapListeners s ++ [AddPointOnClick]
  /\ pointCounter (addPointButton_onClick s) = pointCounter s
  /\ points (addPointButton_onClick s) = points s.
Proof. repeat split. Qed.

Lemma presses_fields (n : nat) (s : AppState) :
  let s' := Nat.iter n addPointButton_onClick s in
  mapListeners s' = mapListeners s ++ repeat AddPointOnClick n
  /\ pointCounter s' = pointCounter s /\ points s' = points s.
Proof.
  induction n as [|n IH]; cbv zeta.
  - simpl. by rewrite app_nil_r.
  - rewrite !Nat.iter_succ. destruct IH as (Hl & Hc & Hp).
    destruct (press_fields (Nat.iter n addPointButton_onClick s)) as (Hl' & Hc' & Hp').
    rewrite Hl', Hc', Hp', Hl, Hc, Hp. split; [|done].
    rewrite <- app_assoc. f_equal.
    change [AddPointOnClick] with (repeat AddPointOnClick 1).
    rewrite <- repeat_app. f_equal. lia.
Qed.

Lemma pointName_inj (a b : N) : pointName a = pointName b -> a = b.
Proof.
  unfold pointName. intros H.
  apply (inj (String.app "Point ")) in H. by apply (inj pretty) in H.
Qed.

Lemma NoDup_pointNames (c : N) (n : nat) :
  NoDup (map (fun i => pointName (c + N.of_nat i)) (seq 1 n)).
Proof.
  apply NoDup_fmap_2_strong; [|apply NoDup_seq].
  intros i j _ _ H. apply pointName_inj in H. lia.
Qed.

(** Three presses, then one click: three points, named Point 1 to 3. *)
Example three_presses_one_click :
  map nameOf (points (run backend init
                        [ClickAddPoints; ClickAddPoints; ClickAddPoints; ClickMap 1 2]))
  = [Some (PStr "Point 1"); Some (PStr "Point 2"); Some (PStr "Point 3")].
Proof. reflexivity. Qed.

(** ** What holds in every session *)

Lemma nameOf_featureAt (lon lat : Q) (n : N) :
  nameOf (featureAt lon lat n) = Some (PStr (pointName n)).
Proof. unfold nameOf, featureAt. simpl. apply lookup_singleton_eq. Qed.

Lemma namedInOrder_click (lon lat : Q) (s : AppState) :
  namedInOrder s -> namedInOrder (Map_click lon lat s).
Proof.
  unfold namedInOrder, Map_click. intros H.
  destruct (run_listeners lon lat (mapListeners s) s) as (Hc & Hp & _).
  cbv zeta in *. rewrite Hc, Hp, map_app, H.
  set (k := length (mapListeners s)). set (c := pointCounter s).
  replace (N.to_nat (c + N.of_nat k)) with (N.to_nat c + k)%nat by lia.
  rewrite seq_app, map_app. f_equal.
  rewrite map_map.
  replace (1 + N.to_nat c)%nat with (N.to_nat c + 1)%nat by lia.
  rewrite <- (fmap_add_seq (N.to_nat c) 1 k).
  change (map ?f (?g <$> ?l)) with (f <$> (g <$> l)).
  rewrite <- list_fmap_compose.
  apply list_fmap_ext. intros j i _. simpl.
  rewrite nameOf_featureAt. do 3 f_equal. lia.
Qed.

Lemma step_points_other (s : AppState) (e : Event) :
  (forall lon lat, e <> ClickMap lon lat) ->
  points (step backend s e) = points s
  /\ pointCounter (step backend s e) = pointCounter s.
Proof.
  intros He. destruct e; simpl.
  - done.
  - done.
  - destruct (bool_decide _); [|done]. unfold yearDropdown_onChange.
    by destruct (parseInt value).
  - done.
  - by destruct (He lon lat).
  - unfold runAnalysisButton_onClick. destruct (layers (drawingTools s)) as [|g gs]; [done|].
    destruct (performNDVIAnalysis_frame g (startYear (set_userAOI (Some g) s))
                (points (set_userAOI (Some g) s)) (set_userAOI (Some g) s))
      as (_ & _ & Hp & Hc & _).
    cbv zeta in *. by rewrite Hp, Hc.
Qed.

Lemma namedInOrder_step (s : AppState) (e : Event) :
  namedInOrder s -> namedInOrder (step backend s e).
Proof.
  intros H. destruct e as [|ls|value| |lon lat|].
  5: { simpl. by apply namedInOrder_click. }
  all: unfold namedInOrder;
       match goal with
       | |- context [step _ ?s0 ?e] =>
           destruct (step_points_other s0 e) as [-> ->]; [intros; discriminate|exact H]
       end.
Qed.

Lemma namedInOrder_reachable (s : AppState) : reachable backend s -> namedInOrder s.
Proof.
  intros [es ->]. unfold run.
  assert (namedInOrder init) as H0 by reflexivity.
  revert H0. generalize init. induction es as [|e es IH]; intros s0 H0; simpl.
  - done.
  - apply IH. by apply namedInOrder_step.
Qed.

Lemma NoDup_namedInOrder (s : AppState) :
  namedInOrder s -> NoDup (map nameOf (points s)).
Proof.
  intros ->. apply NoDup_fmap_2_strong; [|apply NoDup_seq].
  intros i j _ _ H.
  assert (pointName (N.of_nat i) = pointName (N.of_nat j)) as Hn by congruence.
  apply pointName_inj in Hn. lia.
Qed.

End Handlers.

(** C6: when no geometry is on the drawing layer, the click on Run
    Analysis shows the prompt and does nothing else: the state afterwards is
    the state before plus that one alert.  The point collection, the point
    counter, the stored AOI and the selected year are as they were, nothing
    is thrown, and the analysis has not touched the map or the panel. *)
Theorem C6_run_without_aoi_is_blocked (backend : Backend) (s : AppState) :
  layers (drawingTools s) = [] ->
  runAnalysisButton_onClick backend s
  = ui_alert "Please draw an AOI before running the analysis." s
  /\ points (runAnalysisButton_onClick backend s) = points s
  /\ pointCounter (runAnalysisButton_onClick backend s) = pointCounter s
  /\ userAOI (runAnalysisButton_onClick backend s) = userAOI s
  /\ startYear (runAnalysisButton_onClick backend s) = startYear s
  /\ alerts (runAnalysisButton_onClick backend s)
     = alerts s ++ ["Please draw an AOI before running the analysis."]
  /\ uncaught (runAnalysisButton_onClick backend s) = uncaught s
  /\ controlPanel (runAnalysisButton_onClick backend s) = controlPanel s
  /\ mapLayers (runAnalysisButton_onClick backend s) = mapLayers s
  /\ mapListeners (runAnalysisButton_onClick backend s) = mapListeners s
  /\ downloads (runAnalysisButton_onClick backend s) = downloads s.
Proof.
  intros H. unfold runAnalysisButton_onClick. rewrite H. repeat split.
Qed.

Lemma C6_run_without_aoi_is_blocked_witness :
  layers (drawingTools init) = []
  /\ runAnalysisButton_onClick Samples.northern init
     = ui_alert "Please draw an AOI before running the analysis." init
  /\ points (runAnalysisButton_onClick Samples.northern init) = points init
  /\ pointCounter (runAnalysisButton_onClick Samples.northern init) = pointCounter init
  /\ userAOI (runAnalysisButton_onClick Samples.northern init) = userAOI init
  /\ startYear (runAnalysisButton_onClick Samples.northern init) = startYear init
  /\ alerts (runAnalysisButton_onClick Samples.northern init)
     = alerts init ++ ["Please draw an AOI before running the analysis."]
  /\ uncaught (runAnalysisButton_onClick Samples.northern init) = uncaught init
  /\ controlPanel (runAnalysisButton_onClick Samples.northern init) = controlPanel init
  /\ mapLayers (runAnalysisButton_onClick Samples.northern init) = mapLayers init
  /\ mapListeners (runAnalysisButton_onClick Samples.northern init) = mapListeners init
  /\ downloads (runAnalysisButton_onClick Samples.northern init) = downloads init.
Proof.
  split; [reflexivity|].
  apply (C6_run_without_aoi_is_blocked Samples.northern init). reflexivity.
Defined.

(** C10: every press of Add Points appends one listener and removes none.
    Starting with no listener, after [n] presses the map has [n] of them,
    and one click then runs them all: the counter grows by [n] and [n]
    features are appended, all at the clicked place, named with the [n]
    next numbers, which are [n] different names. *)
Theorem C10_listeners_stack (s : AppState) (n : nat) (lon lat : Q) :
  mapListeners s = [] ->
  (forall s0, mapListeners (addPointButton_onClick s0)
              = mapListeners s0 ++ [AddPointOnClick])
  /\ mapListeners (Nat.iter n addPointButton_onClick s) = repeat AddPointOnClick n
  /\ pointCounter (Map_click lon lat (Nat.iter n addPointButton_onClick s))
     = (pointCounter s + N.of_nat n)%N
  /\ points (Map_click lon lat (Nat.iter n addPointButton_onClick s))
     = points s
       ++ map (fun i => featureAt lon lat (pointCounter s + N.of_nat i)) (seq 1 n)
  /\ length (points (Map_click lon lat (Nat.iter n addPointButton_onClick s)))
     = (length (points s) + n)%nat
  /\ NoDup (map (fun i => pointName (pointCounter s + N.of_nat i)) (seq 1 n)).
Proof.
  intros Hnil.
  destruct (presses_fields n s) as (Hl & Hc & Hp). cbv zeta in *.
  rewrite Hnil in Hl. simpl in Hl.
  split; [done|]. split; [done|].
  unfold Map_click. rewrite Hl.
  destruct (run_listeners lon lat (repeat AddPointOnClick n)
              (Nat.iter n addPointButton_onClick s)) as (Hc' & Hp' & _).
  cbv zeta in *. rewrite repeat_length in Hc', Hp'.
  rewrite Hc', Hp', Hc, Hp.
  split; [done|]. split; [done|]. split.
  - rewrite length_app, length_map, length_seq. done.
  - apply NoDup_pointNames.
Qed.

Lemma C10_listeners_stack_witness :
  mapListeners init = []
  /\ (forall s0, mapListeners (addPointButton_onClick s0)
                 = mapListeners s0 ++ [AddPointOnClick])
  /\ mapListeners (Nat.iter 3 addPointButton_onClick init) = repeat AddPointOnClick 3
  /\ pointCounter (Map_click 1 2 (Nat.iter 3 addPointButton_onClick init))
     = (pointCounter init + N.of_nat 3)%N
  /\ points (Map_click 1 2 (Nat.iter 3 addPointButton_onClick init))
     = points init
       ++ map (fun i => featureAt 1 2 (pointCounter init + N.of_nat i)) (seq 1 3)
  /\ length (points (Map_click 1 2 (Nat.iter 3 addPointButton_onClick init)))
     = (length (points init) + 3)%nat
  /\ NoDup (map (fun i => pointName (pointCounter init + N.of_nat i)) (seq 1 3)).
Proof. split; [reflexivity|]. apply (C10_listeners_stack init 3 1 2). reflexivity. Defined.

(* ===================================================================== *)
(** * The pipeline of one run *)
(* ===================================================================== *)

Lemma mapC_Ok {A B} (f : A -> Computed B) (l : list A) (l' : list B) :
  mapC f l = Ok l' -> Forall2 (fun x y => f x = Ok y) l l'.
Proof.
  revert l'. induction l as [|x l IH]; intros l'; simpl.
  - intros [= <-]. constructor.
  - destruct (f x) as [y|] eqn:Hx; simpl; [|done].
    destruct (mapC f l) as [ys|] eqn:Hl; simpl; [|done].
    intros [= <-]. constructor; [done|]. by apply IH.
Qed.

Lemma mapC_is_Ok {A B} (f : A -> Computed B) (l : list A) :
  Forall (fun x => is_Ok (f x)) l -> is_Ok (mapC f l).
Proof.
  induction 1 as [|x l [y Hy] _ [ys Hys]]; simpl.
  - by eexists.
  - rewrite Hy. simpl. rewrite Hys. simpl. by eexists.
Qed.

Lemma Forall_filter_sub {A} (P : A -> Prop) (f : A -> bool) (l : list A) :
  Forall P l -> Forall P (List.filter f l).
Proof.
  induction 1 as [|x l Hx _ IH]; simpl; [constructor|].
  destruct (f x); [by constructor|done].
Qed.

Lemma Forall_filter_both {A} (P : A -> Prop) (f : A -> bool) (l : list A) :
  Forall P l -> Forall (fun x => P x /\ f x = true) (List.filter f l).
Proof.
  induction 1 as [|x l Hx _ IH]; simpl; [constructor|].
  destruct (f x) eqn:Hf; [by constructor|done].
Qed.

Section Pipeline.

Variable backend : Backend.

Lemma filtered_dated (id : string) (start stop : Date) (aoi : Geometry) :
  Forall (fun img => exists t, timeStart img = Some t /\ start <= t < stop)
         (filterBounds (intersects backend) aoi
            (filterDate start stop (ImageCollection backend id))).
Proof.
  unfold filterBounds, filterDate.
  apply Forall_filter_sub.
  eapply Forall_impl.
  - apply (Forall_filter_both (fun _ => True)). by apply Forall_true.
  - intros img [_ H]. simpl in H. destruct (timeStart img) as [t|]; [|done].
    exists t. split; [done|]. apply andb_prop in H as [H1 H2].
    apply Z.leb_le in H1. apply Z.ltb_lt in H2. done.
Qed.

Lemma transformed_runRaster (src : Source) (year : Z) (imgs : list Image)
    (out : list Image) :
  Forall (fun img => exists t, timeStart img = Some t
                               /\ fromYMD year 1 1 <= t < advance_years 1 (fromYMD year 1 1))
         imgs ->
  mapC (transform src) imgs = Ok out ->
  Forall (runRaster year) out.
Proof.
  intros Hd Hm. apply mapC_Ok in Hm.
  induction Hm as [|img r imgs out Hr _ IH]; [constructor|].
  apply Forall_cons in Hd as [(t & Ht & Hrange) Hd].
  constructor; [|by apply IH].
  destruct (transform_Ok _ _ _ Hr) as (refl & r1 & r2 & _ & _ & _ & Hb & Hp).
  split.
  - unfold bandNames. by rewrite Hb.
  - exists t. split; [|done]. unfold timeStart, get in *. by rewrite Hp.
Qed.

(** Every raster of the collection of a run has the one band and an
    acquisition instant in the year: images without one do not pass
    [filterDate]. *)
Lemma ndviCollectionOf_runRaster (aoi : Geometry) (year : Z) (c : list Image) :
  ndviCollectionOf backend aoi year = Ok c -> Forall (runRaster year) c.
Proof.
  unfold ndviCollectionOf. cbv zeta.
  destruct (mapC processLandsat
              (filterBounds _ aoi (filterDate _ _ (ImageCollection backend "LANDSAT/LC08/C02/T1_L2"))))
    as [l8|] eqn:H8; simpl; [|done].
  destruct (mapC processLandsat
              (filterBounds _ aoi (filterDate _ _ (ImageCollection backend "LANDSAT/LC09/C02/T1_L2"))))
    as [l9|] eqn:H9; simpl; [|done].
  destruct (mapC processSentinel
              (filterBounds _ aoi
                 (filterDate _ _ (ImageCollection backend "COPERNICUS/S2_SR_HARMONIZED"))))
    as [s2|] eqn:H2; simpl; [|done].
  intros [= <-]. unfold sortByTime. apply Forall_isort.
  rewrite !Forall_app. split; [split|].
  - eapply (transformed_runRaster Landsat); [apply filtered_dated|exact H8].
  - eapply (transformed_runRaster Landsat); [apply filtered_dated|exact H9].
  - eapply (transformed_runRaster Sentinel2); [apply filtered_dated|exact H2].
Qed.

Lemma usable_mapC (src : Source) (imgs : list Image) (f : Image -> bool) (g : Image -> bool) :
  forallb (usable src) imgs = true ->
  is_Ok (mapC (transform src) (List.filter g (List.filter f imgs))).
Proof.
  intros H. apply mapC_is_Ok. do 2 apply Forall_filter_sub.
  rewrite forallb_forall in H. apply Forall_forall. intros img Hin.
  apply usable_transform, H. by apply list_elem_of_In.
Qed.

(** With a usable catalogue the collection of a run computes. *)
Lemma ndviCollectionOf_is_Ok (aoi : Geometry) (year : Z) :
  catalogUsable backend = true -> is_Ok (ndviCollectionOf backend aoi year).
Proof.
  unfold catalogUsable. intros [[H8 H9]%andb_prop H2]%andb_prop.
  unfold ndviCollectionOf, ImageCollection, filterBounds, filterDate. cbv zeta.
  destruct (usable_mapC Landsat _
              (fun img => match timeStart img with
                          | Some t => (fromYMD year 1 1 <=? t)
                                      && (t <? advance_years 1 (fromYMD year 1 1))
                          | None => false
                          end)
              (fun img => intersects backend img aoi) H8) as [l8 E8].
  destruct (usable_mapC Landsat _
              (fun img => match timeStart img with
                          | Some t => (fromYMD year 1 1 <=? t)
                                      && (t <? advance_years 1 (fromYMD year 1 1))
                          | None => false
                          end)
              (fun img => intersects backend img aoi) H9) as [l9 E9].
  destruct (usable_mapC Sentinel2 _
              (fun img => match timeStart img with
                          | Some t => (fromYMD year 1 1 <=? t)
                                      && (t <? advance_years 1 (fromYMD year 1 1))
                          | None => false
                          end)
              (fun img => intersects backend img aoi) H2) as [s2 E2].
  simpl in E8, E9, E2. rewrite E8, E9, E2. simpl.
  by eexists.
Qed.

End Pipeline.

(** ** The bands of the export *)

Lemma filter_nil_existsb {A} (f : A -> bool) (l : list A) :
  List.filter f l = [] <-> existsb f l = false.
Proof.
  induction l as [|x l IH]; simpl; [done|].
  destruct (f x); simpl; [split; done|exact IH].
Qed.

Lemma bandNames_monthlyComposite (Y year : Z) (c : list Image) (m : Z) :
  Forall (runRaster year) c ->
  bandNames (monthlyComposite Y c m) = if existsb (inMonth m) c then ["ndvi"] else [].
Proof.
  intros Hc.
  assert (bandNames (monthlyComposite Y c m)
          = bandNames (median (List.filter (inMonth m) c))) as ->.
  { unfold bandNames. by rewrite bands_monthlyComposite, filter_calendarRangeMonth. }
  rewrite bandNames_median.
  destruct (List.filter (inMonth m) c) as [|first rest] eqn:Hf.
  - apply filter_nil_existsb in Hf. by rewrite Hf.
  - assert (existsb (inMonth m) c = true) as ->.
    { destruct (existsb (inMonth m) c) eqn:E; [done|].
      apply filter_nil_existsb in E. congruence. }
    assert (In first (List.filter (inMonth m) c)) as Hin by (rewrite Hf; by left).
    apply filter_In in Hin as [Hin _].
    rewrite Forall_forall in Hc. apply list_elem_of_In in Hin.
    by destruct (Hc _ Hin) as [-> _].
Qed.

Lemma imageId_monthlyComposite (i : nat) (Y : Z) (c : list Image) (m : Z) :
  imageId i (monthlyComposite Y c m) = format_YYYY_MM (fromYMD (Y + 1) m 1).
Proof.
  unfold imageId, monthlyComposite, get, set. simpl. by rewrite lookup_insert_eq.
Qed.

Lemma imap_ignore {A B} (f : nat -> A -> B) (g : A -> B) (l : list A) :
  (forall i x, f i x = g x) -> imap f l = map g l.
Proof.
  revert f. induction l as [|x l IH]; intros f H; simpl; [done|].
  rewrite H. f_equal. apply IH. intros i y. apply H.
Qed.

Lemma bands_toBands_monthly (Y : Z) (c : list Image) (ms : list Z) :
  bands (toBands (map (monthlyComposite Y c) ms))
  = concat (map (fun m => map (fun '(n, r) =>
                                 (format_YYYY_MM (fromYMD (Y + 1) m 1) +:+ "_" +:+ n, r))
                              (bands (monthlyComposite Y c m))) ms).
Proof.
  unfold toBands. cbn [bands]. f_equal.
  change (map (monthlyComposite Y c) ms) with (monthlyComposite Y c <$> ms).
  rewrite imap_fmap. apply imap_ignore. intros i m. unfold compose.
  by rewrite imageId_monthlyComposite.
Qed.

Lemma names_prefixed (pre : string) (bs : list (string * Raster)) :
  (map (fun '(n, r) => (pre +:+ "_" +:+ n, r)) bs).*1
  = map (fun n => pre +:+ "_" +:+ n) bs.*1.
Proof. induction bs as [|[n r] bs IH]; simpl; [done|]. f_equal. exact IH. Qed.

Lemma bandNames_toBands_monthly (Y year : Z) (c : list Image) (ms : list Z) :
  Forall (runRaster year) c ->
  bandNames (toBands (map (monthlyComposite Y c) ms))
  = map (exportBandName Y) (List.filter (fun m => existsb (inMonth m) c) ms).
Proof.
  intros Hc. unfold bandNames at 1. rewrite bands_toBands_monthly.
  induction ms as [|m ms IH]; [done|].
  cbn [map concat List.filter]. rewrite fmap_app, IH, names_prefixed.
  pose proof (bandNames_monthlyComposite Y year c m Hc) as Hb.
  unfold bandNames in Hb. rewrite Hb. unfold exportBandName at 2.
  destruct (existsb (inMonth m) c); cbn [map app]; reflexivity.
Qed.

Lemma bandNames_clip (inside : Geometry -> Pixel -> bool) (g : Geometry) (img : Image) :
  bandNames (clip inside g img) = bandNames img.
Proof. unfold clip, bandNames. cbn [bands]. apply names_map. Qed.

Lemma length_filter_le {A} (f : A -> bool) (l : list A) :
  (length (List.filter f l) <= length l)%nat.
Proof. induction l as [|x l IH]; simpl; [done|]. destruct (f x); simpl; lia. Qed.

Lemma filter_all {A} (f : A -> bool) (l : list A) :
  (forall x, In x l -> f x = true) -> List.filter f l = l.
Proof.
  intros H. apply forallb_filter_id. by apply forallb_forall.
Qed.

(** The download a run asks for, when its collection computes. *)
Lemma performNDVIAnalysis_download (backend : Backend) (aoi : Geometry) (year : Z)
    (pts : list Feature) (s : AppState) (c : list Image) :
  ndviCollectionOf backend aoi year = Ok c ->
  downloads (performNDVIAnalysis backend aoi year pts s)
  = downloads s
    ++ [mkExport (clip (inside backend) aoi (toBands (computeMonthlyNDVI (startYear s) c)))
                 "GeoTIFF" 30 aoi].
Proof.
  intros Hc. rewrite performNDVIAnalysis_unfold.
  unfold analysisFrom, generateExportURL. cbv zeta.
  rewrite Hc. simpl. destruct (0 <? length pts)%nat; reflexivity.
Qed.

(** C9, as the code has it: the run asks for one download, a GeoTIFF over
    the AOI at scale 30, of an image with one band for each month of 1..12
    in which the run's collection has an image, in month order; that makes
    twelve bands when every month has an image, and fewer otherwise. *)
Theorem C9_export_bands_by_month (backend : Backend) (aoi : Geometry) (year : Z)
    (pts : list Feature) (s : AppState) :
  catalogUsable backend = true ->
  exists c req,
    ndviCollectionOf backend aoi year = Ok c
    /\ downloads (performNDVIAnalysis backend aoi year pts s) = downloads s ++ [req]
    /\ exFormat req = "GeoTIFF" /\ exScale req = 30 /\ exRegion req = aoi
    /\ bandNames (exImage req)
       = map (exportBandName (startYear s)) (monthsWithImages c)
    /\ (length (bandNames (exImage req)) <= 12)%nat
    /\ ((forall m, 1 <= m <= 12 -> existsb (inMonth m) c = true) ->
        bandNames (exImage req)
        = map (exportBandName (startYear s)) [1; 2; 3; 4; 5; 6; 7; 8; 9; 10; 11; 12]).
Proof.
  intros Hu. destruct (ndviCollectionOf_is_Ok backend aoi year Hu) as [c Hc].
  exists c. eexists. split; [exact Hc|].
  split; [by apply performNDVIAnalysis_download|].
  cbn [exFormat exScale exRegion exImage]. repeat (split; [reflexivity|]).
  assert (bandNames (clip (inside backend) aoi
                       (toBands (computeMonthlyNDVI (startYear s) c)))
          = map (exportBandName (startYear s)) (monthsWithImages c)) as Hb.
  { rewrite bandNames_clip. unfold computeMonthlyNDVI, monthsWithImages.
    apply (bandNames_toBands_monthly _ year).
    by apply (ndviCollectionOf_runRaster backend aoi). }
  split; [exact Hb|]. split.
  - rewrite Hb, length_map. unfold monthsWithImages.
    etransitivity; [apply length_filter_le|]. done.
  - intros Hall. rewrite Hb. f_equal. unfold monthsWithImages.
    apply filter_all. intros m Hin. apply Hall. simpl in Hin. lia.
Qed.

Lemma C9_export_bands_by_month_witness :
  catalogUsable Samples.northern = true
  /\ exists c req,
       ndviCollectionOf Samples.northern Samples.aoi 2022 = Ok c
       /\ downloads (performNDVIAnalysis Samples.northern Samples.aoi 2022 [] init)
          = downloads init ++ [req]
       /\ exFormat req = "GeoTIFF" /\ exScale req = 30 /\ exRegion req = Samples.aoi
       /\ bandNames (exImage req)
          = map (exportBandName (startYear init)) (monthsWithImages c)
       /\ (length (bandNames (exImage req)) <= 12)%nat
       /\ ((forall m, 1 <= m <= 12 -> existsb (inMonth m) c = true) ->
           bandNames (exImage req)
           = map (exportBandName (startYear init))
               [1; 2; 3; 4; 5; 6; 7; 8; 9; 10; 11; 12]).
Proof.
  split; [reflexivity|].
  apply (C9_export_bands_by_month Samples.northern Samples.aoi 2022 [] init).
  reflexivity.
Defined.

(** C9 as stated fails: with a catalogue that has scenes from February to
    October only, the run emits twelve composites and asks for a download of
    nine bands. *)
Lemma C9_twelve_bands_counterexample :
  exists c req,
    ndviCollectionOf Samples.northern Samples.aoi 2022 = Ok c
    /\ length (computeMonthlyNDVI (startYear init) c) = 12%nat
    /\ downloads (performNDVIAnalysis Samples.northern Samples.aoi 2022 [] init) = [req]
    /\ bandNames (exImage req)
       = ["2023-02_ndvi"; "2023-03_ndvi"; "2023-04_ndvi"; "2023-05_ndvi"; "2023-06_ndvi";
          "2023-07_ndvi"; "2023-08_ndvi"; "2023-09_ndvi"; "2023-10_ndvi"]
    /\ length (bandNames (exImage req)) <> 12%nat.
Proof.
  eexists. eexists. split; [vm_compute; reflexivity|].
  split; [reflexivity|]. split; [vm_compute; reflexivity|].
  split; [vm_compute; reflexivity|]. vm_compute. discriminate.
Qed.

(* ===================================================================== *)
(** * The calendar year of a run *)
(* ===================================================================== *)

Import Derived.

Lemma days_from_civil_period (y k m d : Z) :
  days_from_civil (y + k * 400) m d = days_from_civil y m d + k * 146097.
Proof.
  unfold days_from_civil.
  set (y' := if m <=? 2 then y - 1 else y).
  replace (if m <=? 2 then y + k * 400 - 1 else y + k * 400) with (y' + k * 400)
    by (subst y'; destruct (m <=? 2); lia).
  rewrite Z.div_add by lia.
  replace (y' + k * 400 - (y' / 400 + k) * 400) with (y' - y' / 400 * 400) by lia.
  lia.
Qed.

Lemma days_in_month_period (y k m : Z) :
  days_in_month (y + k * 400) m = days_in_month y m.
Proof. unfold days_in_month. by rewrite is_leap_period. Qed.

Lemma nextMonthStart_period (y k m : Z) :
  nextMonthStart (y + k * 400) m = nextMonthStart y m + k * 146097.
Proof.
  unfold nextMonthStart. destruct (m =? 12).
  - replace (y + k * 400 + 1) with (y + 1 + k * 400) by lia.
    apply days_from_civil_period.
  - apply days_from_civil_period.
Qed.

Lemma tiling_table :
  forallb (fun y => forallb (tiling_ok y) (seqZ 1 12)) (seqZ 0 400) = true.
Proof. vm_compute. reflexivity. Qed.

(** The months tile the year: each starts where the one before ends, and
    January of the next year follows December. *)
Lemma month_tiling (y m : Z) :
  1 <= m <= 12 ->
  nextMonthStart y m = days_from_civil y m 1 + days_in_month y m.
Proof.
  intros Hm.
  pose proof (Z.mod_pos_bound y 400 ltac:(lia)) as Hr.
  pose proof (Z.mod_eq y 400 ltac:(lia)) as Hy.
  remember (y mod 400) as r eqn:Er. remember (y / 400) as k eqn:Ek.
  replace y with (r + k * 400) by lia. clear Er Ek Hy.
  rewrite nextMonthStart_period, days_from_civil_period, days_in_month_period.
  pose proof tiling_table as T. rewrite forallb_forall in T.
  assert (In r (seqZ 0 400)) as Hin by (apply list_elem_of_In, elem_of_seqZ; lia).
  specialize (T _ Hin). rewrite forallb_forall in T.
  assert (In m (seqZ 1 12)) as Hin' by (apply list_elem_of_In, elem_of_seqZ; lia).
  specialize (T _ Hin'). unfold tiling_ok in T. apply Z.eqb_eq in T. lia.
Qed.

Lemma days_from_civil_day (y m d : Z) :
  days_from_civil y m d = days_from_civil y m 1 + (d - 1).
Proof. unfold days_from_civil. rewrite (doe_of_day _ m d). lia. Qed.

(** A day number between the start of a month and the start of the next
    decodes to a day of that month. *)
Lemma civil_from_days_in_month (y m z : Z) :
  1 <= m <= 12 ->
  days_from_civil y m 1 <= z < nextMonthStart y m ->
  civil_from_days z = (y, m, z - days_from_civil y m 1 + 1).
Proof.
  intros Hm Hz. rewrite month_tiling in Hz by done.
  assert (days_from_civil y m (z - days_from_civil y m 1 + 1) = z) as Hz'
    by (rewrite days_from_civil_day; lia).
  rewrite <- Hz' at 1. apply civil_from_days_valid; [done|lia].
Qed.

(** A day number within year [y] decodes to year [y]. *)
Lemma civil_from_days_in_year (y z : Z) :
  days_from_civil y 1 1 <= z < days_from_civil (y + 1) 1 1 ->
  exists m d, 1 <= m <= 12 /\ 1 <= d <= days_in_month y m
              /\ civil_from_days z = (y, m, d).
Proof.
  intros Hz.
  pose proof (month_tiling y 1 ltac:(lia)) as T1.
  pose proof (month_tiling y 2 ltac:(lia)) as T2.
  pose proof (month_tiling y 3 ltac:(lia)) as T3.
  pose proof (month_tiling y 4 ltac:(lia)) as T4.
  pose proof (month_tiling y 5 ltac:(lia)) as T5.
  pose proof (month_tiling y 6 ltac:(lia)) as T6.
  pose proof (month_tiling y 7 ltac:(lia)) as T7.
  pose proof (month_tiling y 8 ltac:(lia)) as T8.
  pose proof (month_tiling y 9 ltac:(lia)) as T9.
  pose proof (month_tiling y 10 ltac:(lia)) as T10.
  pose proof (month_tiling y 11 ltac:(lia)) as T11.
  pose proof (month_tiling y 12 ltac:(lia)) as T12.
  change (nextMonthStart y 1) with (days_from_civil y 2 1) in T1.
  change (nextMonthStart y 2) with (days_from_civil y 3 1) in T2.
  change (nextMonthStart y 3) with (days_from_civil y 4 1) in T3.
  change (nextMonthStart y 4) with (days_from_civil y 5 1) in T4.
  change (nextMonthStart y 5) with (days_from_civil y 6 1) in T5.
  change (nextMonthStart y 6) with (days_from_civil y 7 1) in T6.
  change (nextMonthStart y 7) with (days_from_civil y 8 1) in T7.
  change (nextMonthStart y 8) with (days_from_civil y 9 1) in T8.
  change (nextMonthStart y 9) with (days_from_civil y 10 1) in T9.
  change (nextMonthStart y 10) with (days_from_civil y 11 1) in T10.
  change (nextMonthStart y 11) with (days_from_civil y 12 1) in T11.
  change (nextMonthStart y 12) with (days_from_civil (y + 1) 1 1) in T12.
  assert (exists m, 1 <= m <= 12
                    /\ days_from_civil y m 1 <= z
                       < days_from_civil y m 1 + days_in_month y m) as (m & Hm & Hin).
  { pose proof (days_in_month_bounds y 1). pose proof (days_in_month_bounds y 2).
    pose proof (days_in_month_bounds y 3). pose proof (days_in_month_bounds y 4).
    pose proof (days_in_month_bounds y 5). pose proof (days_in_month_bounds y 6).
    pose proof (days_in_month_bounds y 7). pose proof (days_in_month_bounds y 8).
    pose proof (days_in_month_bounds y 9). pose proof (days_in_month_bounds y 10).
    pose proof (days_in_month_bounds y 11). pose proof (days_in_month_bounds y 12).
    destruct (Z_lt_le_dec z (days_from_civil y 2 1)); [exists 1; lia|].
    destruct (Z_lt_le_dec z (days_from_civil y 3 1)); [exists 2; lia|].
    destruct (Z_lt_le_dec z (days_from_civil y 4 1)); [exists 3; lia|].
    destruct (Z_lt_le_dec z (days_from_civil y 5 1)); [exists 4; lia|].
    destruct (Z_lt_le_dec z (days_from_civil y 6 1)); [exists 5; lia|].
    destruct (Z_lt_le_dec z (days_from_civil y 7 1)); [exists 6; lia|].
    destruct (Z_lt_le_dec z (days_from_civil y 8 1)); [exists 7; lia|].
    destruct (Z_lt_le_dec z (days_from_civil y 9 1)); [exists 8; lia|].
    destruct (Z_lt_le_dec z (days_from_civil y 10 1)); [exists 9; lia|].
    destruct (Z_lt_le_dec z (days_from_civil y 11 1)); [exists 10; lia|].
    destruct (Z_lt_le_dec z (days_from_civil y 12 1)); [exists 11; lia|].
    exists 12. lia. }
  exists m, (z - days_from_civil y m 1 + 1). split; [done|]. split; [lia|].
  apply civil_from_days_in_month; [done|]. rewrite month_tiling by done. lia.
Qed.

(* ===================================================================== *)
(** * Sessions: what the handlers keep *)
(* ===================================================================== *)

Lemma performNDVIAnalysis_map (backend : Backend) (aoi : Geometry) (year : Z)
    (pts : list Feature) (s : AppState) :
  mapCenter (performNDVIAnalysis backend aoi year pts s) = Some aoi
  /\ (exists o, mapLayers (performNDVIAnalysis backend aoi year pts s)
                = [mkLayer o None "Monthly NDVI"])
  /\ uncaught (performNDVIAnalysis backend aoi year pts s)
     = uncaught s ++ match ndviCollectionOf backend aoi year with
                     | Ok _ => []
                     | Err msg => [msg]
                     end.
Proof.
  rewrite performNDVIAnalysis_unfold. unfold analysisFrom, generateExportURL. cbv zeta.
  destruct (ndviCollectionOf backend aoi year); simpl;
    destruct (0 <? length pts)%nat; simpl; rewrite ?app_nil_r;
    (split; [reflexivity|]); (split; [by eexists|reflexivity]).
Qed.

Lemma step_panel (backend : Backend) (s : AppState) (e : Event) :
  exists added,
    controlPanel (step backend s e) = controlPanel s ++ added
    /\ (e <> ClickRunAnalysis -> added = []).
Proof.
  destruct e as [|ls|value| |lon lat|]; simpl.
  - exists []. by rewrite app_nil_r.
  - exists []. by rewrite app_nil_r.
  - exists []. rewrite app_nil_r. split; [|done].
    destruct (bool_decide _); [|done]. unfold yearDropdown_onChange.
    by destruct (parseInt value).
  - exists []. by rewrite app_nil_r.
  - exists []. rewrite app_nil_r. split; [|done].
    unfold Map_click.
    by destruct (run_listeners lon lat (mapListeners s) s) as (_ & _ & _ & _ & _ & _ & ->).
  - unfold runAnalysisButton_onClick.
    destruct (layers (drawingTools s)) as [|g gs].
    + exists []. by rewrite app_nil_r.
    + destruct (performNDVIAnalysis_panel backend g (startYear (set_userAOI (Some g) s))
                  (points (set_userAOI (Some g) s)) (set_userAOI (Some g) s))
        as (ex & Hp & _).
      eexists. split; [exact Hp|]. done.
Qed.

Lemma run_snoc (backend : Backend) (s : AppState) (es : list Event) (e : Event) :
  run backend s (es ++ [e]) = step backend (run backend s es) e.
Proof. unfold run. by rewrite foldl_app. Qed.

(** X1: nothing is ever taken off the panel or moved on it: after any
    sequence of user actions the panel is the panel before, followed by what
    was added; and only Run Analysis adds. *)
Theorem panel_only_grows (backend : Backend) (s : AppState) (es : list Event) :
  exists added,
    controlPanel (run backend s es) = controlPanel s ++ added
    /\ (~ In ClickRunAnalysis es -> added = []).
Proof.
  induction es as [|e es IH] using rev_ind.
  - exists []. simpl. by rewrite app_nil_r.
  - destruct IH as (added & Hp & Hnil).
    destruct (step_panel backend (run backend s es) e) as (added' & Hp' & Hnil').
    exists (added ++ added'). rewrite run_snoc, Hp', Hp, app_assoc. split; [done|].
    intros Hnot. rewrite Hnil, Hnil'; [done| |].
    + intros ->. apply Hnot, in_app_iff. right. by left.
    + intros Hin. apply Hnot, in_app_iff. by left.
Qed.

Lemma step_startYear (backend : Backend) (s : AppState) (e : Event) :
  2020 <= startYear s <= 2024 -> 2020 <= startYear (step backend s e) <= 2024.
Proof.
  intros H. destruct e as [|ls|value| |lon lat|]; simpl; try done.
  - destruct (bool_decide (value ∈ yearItems)) eqn:Hv; [|done].
    apply bool_decide_eq_true in Hv. unfold yearItems in Hv.
    repeat (apply elem_of_cons in Hv as [->|Hv]; [vm_compute; split; discriminate|]).
    by apply elem_of_nil in Hv.
  - unfold Map_click.
    by destruct (run_listeners lon lat (mapListeners s) s) as (_ & _ & _ & _ & -> & _).
  - unfold runAnalysisButton_onClick.
    destruct (layers (drawingTools s)) as [|g gs]; [done|].
    by destruct (performNDVIAnalysis_frame backend g (startYear (set_userAOI (Some g) s))
                   (points (set_userAOI (Some g) s)) (set_userAOI (Some g) s))
      as (_ & -> & _).
Qed.

(** X2: the selected year never leaves the dropdown's range: in every
    state a session can reach it is one of 2020..2024.  Choosing an item
    sets it to the number the item spells. *)
Theorem startYear_is_an_item (backend : Backend) (s : AppState) :
  reachable backend s ->
  2020 <= startYear s <= 2024
  /\ forall value, In value yearItems ->
       exists y, parseInt value = Some y
                 /\ startYear (step backend s (ChangeYear value)) = y
                 /\ pretty y = value.
Proof.
  intros [es ->]. split.
  - induction es as [|e es IH] using rev_ind; [by vm_compute|].
    rewrite run_snoc. by apply step_startYear.
  - intros value Hin. simpl.
    rewrite bool_decide_eq_true_2 by (by apply list_elem_of_In).
    unfold yearItems in Hin. simpl in Hin.
    destruct Hin as [<-|[<-|[<-|[<-|[<-|[]]]]]]; eexists; (split; [reflexivity|]);
      split; reflexivity.
Qed.

Lemma startYear_is_an_item_witness :
  reachable Samples.northern (Samples.session Samples.northern)
  /\ 2020 <= startYear (Samples.session Samples.northern) <= 2024
  /\ forall value, In value yearItems ->
       exists y, parseInt value = Some y
                 /\ startYear (step Samples.northern (Samples.session Samples.northern)
                                 (ChangeYear value)) = y
                 /\ pretty y = value.
Proof.
  assert (reachable Samples.northern (Samples.session Samples.northern)) as Hr
    by (eexists; reflexivity).
  split; [exact Hr|].
  apply (startYear_is_an_item Samples.northern (Samples.session Samples.northern) Hr).
Defined.

Lemma step_points (backend : Backend) (s : AppState) (e : Event) :
  exists added,
    points (step backend s e) = points s ++ added
    /\ pointCounter (step backend s e) = (pointCounter s + N.of_nat (length added))%N
    /\ (added <> [] -> exists lon lat, e = ClickMap lon lat).
Proof.
  destruct e as [|ls|value| |lon lat|].
  5: { simpl. unfold Map_click.
       destruct (run_listeners lon lat (mapListeners s) s) as (Hc & Hp & _).
       cbv zeta in *. eexists. split; [exact Hp|]. split.
       - by rewrite Hc, length_map, length_seq.
       - intros _. by exists lon, lat. }
  all: exists []; rewrite app_nil_r, N.add_0_r;
       match goal with
       | |- context [step _ ?s0 ?e] =>
           destruct (step_points_other backend s0 e) as [-> ->];
             [intros; discriminate|repeat split; done]
       end.
Qed.

Lemma length_points_namedInOrder (s : AppState) :
  namedInOrder s -> N.of_nat (length (points s)) = pointCounter s.
Proof.
  unfold namedInOrder. intros H.
  apply (f_equal length) in H. rewrite !length_map, length_seq in H. lia.
Qed.

(** X3: points are only ever appended.  In every state a session can
    reach, the counter equals the number of points; any user action leaves
    the points there are in place and in order, appends as many as it adds
    to the counter, and only a click on the map appends any. *)
Theorem points_only_accumulate (backend : Backend) (s : AppState) (e : Event) :
  reachable backend s ->
  N.of_nat (length (points s)) = pointCounter s
  /\ exists added,
       points (step backend s e) = points s ++ added
       /\ pointCounter (step backend s e) = (pointCounter s + N.of_nat (length added))%N
       /\ (added <> [] -> exists lon lat, e = ClickMap lon lat).
Proof.
  intros Hr. split.
  - by apply length_points_namedInOrder, (namedInOrder_reachable backend).
  - apply step_points.
Qed.

Lemma points_only_accumulate_witness :
  reachable Samples.northern (Samples.session Samples.northern)
  /\ N.of_nat (length (points (Samples.session Samples.northern)))
     = pointCounter (Samples.session Samples.northern)
  /\ exists added,
       points (step Samples.northern (Samples.session Samples.northern) (ClickMap 5 6))
       = points (Samples.session Samples.northern) ++ added
       /\ pointCounter (step Samples.northern (Samples.session Samples.northern)
                          (ClickMap 5 6))
          = (pointCounter (Samples.session Samples.northern) + N.of_nat (length added))%N
       /\ (added <> [] -> exists lon lat, ClickMap 5 6 = ClickMap lon lat).
Proof.
  assert (reachable Samples.northern (Samples.session Samples.northern)) as Hr
    by (eexists; reflexivity).
  split; [exact Hr|].
  apply (points_only_accumulate Samples.northern (Samples.session Samples.northern)
           (ClickMap 5 6) Hr).
Defined.

Lemma runAnalysis_fields (backend : Backend) (s : AppState) (aoi : Geometry)
    (others : list Geometry) :
  layers (drawingTools s) = aoi :: others ->
  userAOI (runAnalysisButton_onClick backend s) = Some aoi
  /\ mapCenter (runAnalysisButton_onClick backend s) = Some aoi
  /\ (exists o, mapLayers (runAnalysisButton_onClick backend s)
                = [mkLayer o None "Monthly NDVI"])
  /\ points (runAnalysisButton_onClick backend s) = points s
  /\ pointCounter (runAnalysisButton_onClick backend s) = pointCounter s
  /\ startYear (runAnalysisButton_onClick backend s) = startYear s
  /\ drawingTools (runAnalysisButton_onClick backend s) = drawingTools s.
Proof.
  intros Hl. unfold runAnalysisButton_onClick. rewrite Hl.
  destruct (performNDVIAnalysis_frame backend aoi (startYear (set_userAOI (Some aoi) s))
              (points (set_userAOI (Some aoi) s)) (set_userAOI (Some aoi) s))
    as (Ha & Hy & Hp & Hc & Hd & _).
  destruct (performNDVIAnalysis_map backend aoi (startYear (set_userAOI (Some aoi) s))
              (points (set_userAOI (Some aoi) s)) (set_userAOI (Some aoi) s))
    as (Hm & Ho & _).
  cbv zeta in *. rewrite Ha, Hy, Hp, Hc, Hd, Hm. repeat split; done.
Qed.

(** X4: a run on a drawn AOI takes the first geometry of the drawing
    layer as the AOI, centres the map on it and leaves exactly one layer on
    the map, the one named Monthly NDVI: the red markers of the points are
    gone from the map, while the points, the counter and the year are
    untouched. *)
Theorem run_replaces_map_layers (backend : Backend) (s : AppState) (aoi : Geometry)
    (others : list Geometry) :
  layers (drawingTools s) = aoi :: others ->
  userAOI (runAnalysisButton_onClick backend s) = Some aoi
  /\ mapCenter (runAnalysisButton_onClick backend s) = Some aoi
  /\ (exists o, mapLayers (runAnalysisButton_onClick backend s)
                = [mkLayer o None "Monthly NDVI"])
  /\ points (runAnalysisButton_onClick backend s) = points s
  /\ pointCounter (runAnalysisButton_onClick backend s) = pointCounter s
  /\ startYear (runAnalysisButton_onClick backend s) = startYear s.
Proof.
  intros Hl.
  destruct (runAnalysis_fields backend s aoi others Hl)
    as (Ha & Hm & Ho & Hp & Hc & Hy & _).
  repeat split; done.
Qed.

Lemma run_replaces_map_layers_witness :
  layers (drawingTools (Samples.session Samples.northern)) = [Samples.aoi]
  /\ userAOI (runAnalysisButton_onClick Samples.northern (Samples.session Samples.northern))
     = Some Samples.aoi
  /\ mapCenter (runAnalysisButton_onClick Samples.northern
                  (Samples.session Samples.northern))
     = Some Samples.aoi
  /\ (exists o, mapLayers (runAnalysisButton_onClick Samples.northern
                             (Samples.session Samples.northern))
                = [mkLayer o None "Monthly NDVI"])
  /\ points (runAnalysisButton_onClick Samples.northern (Samples.session Samples.northern))
     = points (Samples.session Samples.northern)
  /\ pointCounter (runAnalysisButton_onClick Samples.northern
                     (Samples.session Samples.northern))
     = pointCounter (Samples.session Samples.northern)
  /\ startYear (runAnalysisButton_onClick Samples.northern
                  (Samples.session Samples.northern))
     = startYear (Samples.session Samples.northern).
Proof.
  split; [reflexivity|].
  apply (run_replaces_map_layers Samples.northern (Samples.session Samples.northern)
           Samples.aoi []).
  reflexivity.
Defined.

(* ===================================================================== *)
(** * The collection of a run *)
(* ===================================================================== *)

Lemma year_of_in_range (y t : Z) :
  fromYMD y 1 1 <= t < fromYMD (y + 1) 1 1 ->
  year_of t = y /\ 1 <= month_of t <= 12.
Proof.
  unfold fromYMD. intros [Hlo Hhi].
  assert (days_from_civil y 1 1 <= t / msPerDay < days_from_civil (y + 1) 1 1) as Hz.
  { split.
    - apply Z.div_le_lower_bound; [unfold msPerDay; lia|lia].
    - apply Z.div_lt_upper_bound; [unfold msPerDay; lia|lia]. }
  destruct (civil_from_days_in_year y _ Hz) as (m & d & Hm & _ & Hc).
  unfold year_of, month_of, civil. rewrite Hc. simpl. lia.
Qed.

Lemma ndviCollectionOf_inv (backend : Backend) (aoi : Geometry) (year : Z)
    (c : list Image) :
  ndviCollectionOf backend aoi year = Ok c ->
  exists l8 l9 s2,
    mapC processLandsat (loaded backend aoi year "LANDSAT/LC08/C02/T1_L2") = Ok l8
    /\ mapC processLandsat (loaded backend aoi year "LANDSAT/LC09/C02/T1_L2") = Ok l9
    /\ mapC processSentinel (loaded backend aoi year "COPERNICUS/S2_SR_HARMONIZED") = Ok s2
    /\ c = sortByTime ((l8 ++ l9) ++ s2).
Proof.
  unfold ndviCollectionOf, loaded. cbv zeta.
  destruct (mapC processLandsat
              (filterBounds _ aoi (filterDate _ _ (ImageCollection backend "LANDSAT/LC08/C02/T1_L2"))))
    as [l8|] eqn:H8; simpl; [|done].
  destruct (mapC processLandsat
              (filterBounds _ aoi (filterDate _ _ (ImageCollection backend "LANDSAT/LC09/C02/T1_L2"))))
    as [l9|] eqn:H9; simpl; [|done].
  destruct (mapC processSentinel
              (filterBounds _ aoi
                 (filterDate _ _ (ImageCollection backend "COPERNICUS/S2_SR_HARMONIZED"))))
    as [s2|] eqn:H2; simpl; [|done].
  intros [= <-]. by exists l8, l9, s2.
Qed.

Lemma inMonth_iff (m : Z) (r : Image) (t : Z) :
  timeStart r = Some t -> inMonth m r = true <-> m = month_of t.
Proof.
  intros Ht. unfold inMonth. rewrite Ht. rewrite Z.eqb_eq. split; intros; lia.
Qed.

Lemma ndviCollectionOf_in_year (backend : Backend) (aoi : Geometry) (year : Z)
    (c : list Image) :
  ndviCollectionOf backend aoi year = Ok c ->
  Forall (fun r => exists t, timeStart r = Some t
                             /\ year_of t = year /\ 1 <= month_of t <= 12) c.
Proof.
  intros Hc.
  eapply Forall_impl; [apply (ndviCollectionOf_runRaster backend aoi year c Hc)|].
  intros r [_ (t & Ht & Hrange)]. simpl.
  rewrite advance_one_year in Hrange.
  destruct (year_of_in_range year t Hrange) as [Hy Hm].
  by exists t.
Qed.

(** X6: every raster of the collection of a run was acquired in the
    calendar year asked for, and therefore contributes to exactly one of the
    twelve composites, the one of its month. *)
Theorem run_images_in_year (backend : Backend) (aoi : Geometry) (year : Z) :
  catalogUsable backend = true ->
  exists c,
    ndviCollectionOf backend aoi year = Ok c
    /\ Forall (fun r => exists t,
                 timeStart r = Some t
                 /\ year_of t = year /\ 1 <= month_of t <= 12
                 /\ forall m, inMonth m r = true <-> m = month_of t) c.
Proof.
  intros Hu. destruct (ndviCollectionOf_is_Ok backend aoi year Hu) as [c Hc].
  exists c. split; [done|].
  eapply Forall_impl; [apply (ndviCollectionOf_in_year backend aoi year c Hc)|].
  intros r (t & Ht & Hy & Hm). simpl.
  exists t. split; [done|]. split; [done|]. split; [done|].
  intros m. by apply inMonth_iff.
Qed.

Lemma run_images_in_year_witness :
  catalogUsable Samples.northern = true
  /\ exists c,
       ndviCollectionOf Samples.northern Samples.aoi 2022 = Ok c
       /\ Forall (fun r => exists t,
                    timeStart r = Some t
                    /\ year_of t = 2022 /\ 1 <= month_of t <= 12
                    /\ forall m, inMonth m r = true <-> m = month_of t) c.
Proof.
  split; [reflexivity|].
  apply (run_images_in_year Samples.northern Samples.aoi 2022). reflexivity.
Defined.

Lemma time_le_total (a b : Image) : time_le a b = false -> time_le b a = true.
Proof.
  unfold time_le. destruct (timeStart a) as [x|], (timeStart b) as [y|]; try done.
  intros H. apply Z.leb_gt in H. apply Z.leb_le. lia.
Qed.

Lemma time_le_trans (a b c : Image) :
  time_le a b = true -> time_le b c = true -> time_le a c = true.
Proof.
  unfold time_le.
  destruct (timeStart a) as [x|], (timeStart b) as [y|], (timeStart c) as [z|]; try done.
  rewrite !Z.leb_le. lia.
Qed.

Lemma mapC_length {A B} (f : A -> Computed B) (l : list A) (l' : list B) :
  mapC f l = Ok l' -> length l' = length l.
Proof. intros H%mapC_Ok. symmetry. by eapply Forall2_length. Qed.

(** X7: the collection of a run holds one raster for each image the three
    sources have in the year and over the AOI, no more and no fewer, and it
    is ordered by acquisition instant, earliest first. *)
Theorem run_collection_sorted (backend : Backend) (aoi : Geometry) (year : Z) :
  catalogUsable backend = true ->
  exists c l8 l9 s2,
    ndviCollectionOf backend aoi year = Ok c
    /\ Forall2 (fun img r => processLandsat img = Ok r)
               (loaded backend aoi year "LANDSAT/LC08/C02/T1_L2") l8
    /\ Forall2 (fun img r => processLandsat img = Ok r)
               (loaded backend aoi year "LANDSAT/LC09/C02/T1_L2") l9
    /\ Forall2 (fun img r => processSentinel img = Ok r)
               (loaded backend aoi year "COPERNICUS/S2_SR_HARMONIZED") s2
    /\ Permutation c (l8 ++ l9 ++ s2)
    /\ length c
       = (length (loaded backend aoi year "LANDSAT/LC08/C02/T1_L2")
          + length (loaded backend aoi year "LANDSAT/LC09/C02/T1_L2")
          + length (loaded backend aoi year "COPERNICUS/S2_SR_HARMONIZED"))%nat
    /\ StronglySorted notLater c.
Proof.
  intros Hu. destruct (ndviCollectionOf_is_Ok backend aoi year Hu) as [c Hc].
  destruct (ndviCollectionOf_inv backend aoi year c Hc) as (l8 & l9 & s2 & H8 & H9 & H2 & Hs).
  exists c, l8, l9, s2. split; [done|].
  split; [by apply mapC_Ok|]. split; [by apply mapC_Ok|]. split; [by apply mapC_Ok|].
  assert (Permutation c (l8 ++ l9 ++ s2)) as Hperm.
  { rewrite Hs. unfold sortByTime. rewrite isort_perm. by rewrite <- app_assoc. }
  split; [exact Hperm|]. split.
  - rewrite (Permutation_length Hperm), !length_app.
    rewrite (mapC_length _ _ _ H8), (mapC_length _ _ _ H9), (mapC_length _ _ _ H2). lia.
  - pose proof (ndviCollectionOf_runRaster backend aoi year c Hc) as Hrr.
    assert (StronglySorted (fun a b => time_le a b = true) c) as Hsorted.
    { rewrite Hs. apply isort_sorted; [apply time_le_total|apply time_le_trans]. }
    clear Hs Hperm Hc. induction Hsorted as [|a c Hsorted IH Ha]; [constructor|].
    apply Forall_cons in Hrr as [[_ (ta & Hta & _)] Hrr].
    constructor; [by apply IH|].
    rewrite Forall_forall in Ha, Hrr |- *. intros b Hb.
    destruct (Hrr b Hb) as [_ (tb & Htb & _)].
    exists ta, tb. split; [done|]. split; [done|].
    specialize (Ha b Hb). unfold time_le in Ha. rewrite Hta, Htb in Ha.
    by apply Z.leb_le.
Qed.

Lemma run_collection_sorted_witness :
  catalogUsable Samples.northern = true
  /\ exists c l8 l9 s2,
       ndviCollectionOf Samples.northern Samples.aoi 2022 = Ok c
       /\ Forall2 (fun img r => processLandsat img = Ok r)
                  (loaded Samples.northern Samples.aoi 2022 "LANDSAT/LC08/C02/T1_L2") l8
       /\ Forall2 (fun img r => processLandsat img = Ok r)
                  (loaded Samples.northern Samples.aoi 2022 "LANDSAT/LC09/C02/T1_L2") l9
       /\ Forall2 (fun img r => processSentinel img = Ok r)
                  (loaded Samples.northern Samples.aoi 2022 "COPERNICUS/S2_SR_HARMONIZED") s2
       /\ Permutation c (l8 ++ l9 ++ s2)
       /\ length c
          = (length (loaded Samples.northern Samples.aoi 2022 "LANDSAT/LC08/C02/T1_L2")
             + length (loaded Samples.northern Samples.aoi 2022 "LANDSAT/LC09/C02/T1_L2")
             + length (loaded Samples.northern Samples.aoi 2022
                         "COPERNICUS/S2_SR_HARMONIZED"))%nat
       /\ StronglySorted notLater c.
Proof.
  split; [reflexivity|].
  apply (run_collection_sorted Samples.northern Samples.aoi 2022). reflexivity.
Defined.

(** X8: in a run started from the button the charted composites are those
    of the selected year's images, stamped one year later: every image that
    enters the composite of month [m] was acquired in month [m] of the
    selected year, and the composite carries the first of month [m] of the
    year after. *)
Theorem run_composites_one_year_late (backend : Backend) (s : AppState)
    (aoi : Geometry) (others : list Geometry) :
  catalogUsable backend = true ->
  layers (drawingTools s) = aoi :: others ->
  exists c,
    ndviCollectionOf backend aoi (startYear s) = Ok c
    /\ In (ChartWidget (aoiChartOf (Ok (computeMonthlyNDVI (startYear s) c)) aoi))
          (controlPanel (runAnalysisButton_onClick backend s))
    /\ forall m, 1 <= m <= 12 ->
         (forall x, In x (List.filter (inMonth m) c) ->
            exists t, timeStart x = Some t
                      /\ year_of t = startYear s /\ month_of t = m)
         /\ exists img t',
              computeMonthlyNDVI (startYear s) c !! Z.to_nat (m - 1) = Some img
              /\ timeStart img = Some t'
              /\ year_of t' = startYear s + 1 /\ month_of t' = m.
Proof.
  intros Hu Hl.
  destruct (ndviCollectionOf_is_Ok backend aoi (startYear s) Hu) as [c Hc].
  exists c. split; [done|]. split.
  - unfold runAnalysisButton_onClick. rewrite Hl.
    destruct (performNDVIAnalysis_panel backend aoi (startYear (set_userAOI (Some aoi) s))
                (points (set_userAOI (Some aoi) s)) (set_userAOI (Some aoi) s))
      as (ex & Hp & _).
    rewrite Hp. simpl startYear. rewrite Hc.
    apply in_app_iff. right. right. by left.
  - intros m Hm. split.
    + intros x [Hx Hin]%filter_In.
      pose proof (ndviCollectionOf_in_year backend aoi (startYear s) c Hc) as Hall.
      rewrite Forall_forall in Hall. apply list_elem_of_In in Hx.
      destruct (Hall x Hx) as (t & Ht & Hy & _).
      exists t. split; [done|]. split; [done|].
      symmetry. by apply (inMonth_iff m x t Ht).
    + exists (monthlyComposite (startYear s) c m), (fromYMD (startYear s + 1) m 1).
      split; [by apply computeMonthlyNDVI_lookup|].
      split; [apply timeStart_monthlyComposite|].
      unfold year_of, month_of. by rewrite civil_fromYMD_first.
Qed.

Lemma run_composites_one_year_late_witness :
  catalogUsable Samples.northern = true
  /\ layers (drawingTools (Samples.session Samples.northern)) = [Samples.aoi]
  /\ exists c,
       ndviCollectionOf Samples.northern Samples.aoi
         (startYear (Samples.session Samples.northern)) = Ok c
       /\ In (ChartWidget
                (aoiChartOf
                   (Ok (computeMonthlyNDVI (startYear (Samples.session Samples.northern)) c))
                   Samples.aoi))
             (controlPanel (runAnalysisButton_onClick Samples.northern
                              (Samples.session Samples.northern)))
       /\ forall m, 1 <= m <= 12 ->
            (forall x, In x (List.filter (inMonth m) c) ->
               exists t, timeStart x = Some t
                         /\ year_of t = startYear (Samples.session Samples.northern)
                         /\ month_of t = m)
            /\ exists img t',
                 computeMonthlyNDVI (startYear (Samples.session Samples.northern)) c
                   !! Z.to_nat (m - 1) = Some img
                 /\ timeStart img = Some t'
                 /\ year_of t' = startYear (Samples.session Samples.northern) + 1
                 /\ month_of t' = m.
Proof.
  split; [reflexivity|]. split; [reflexivity|].
  apply (run_composites_one_year_late Samples.northern (Samples.session Samples.northern)
           Samples.aoi []); reflexivity.
Defined.

(* ===================================================================== *)
(** * More on the median *)
(* ===================================================================== *)

Lemma filter_none {A} (f : A -> bool) (l : list A) :
  (forall x, x ∈ l -> f x = false) -> List.filter f l = [].
Proof.
  induction l as [|x l IH]; intros H; simpl; [done|].
  rewrite (H x) by apply list_elem_of_here.
  apply IH. intros y Hy. apply H. by apply list_elem_of_further.
Qed.

Lemma length_filter_impl {A} (f g : A -> bool) (l : list A) :
  (forall x, f x = true -> g x = true) ->
  (length (List.filter f l) <= length (List.filter g l))%nat.
Proof.
  intros H. induction l as [|x l IH]; simpl; [done|].
  destruct (f x) eqn:Hf.
  - rewrite (H x Hf). simpl. lia.
  - destruct (g x); simpl; lia.
Qed.

Lemma filter_perm {A} (f : A -> bool) (l1 l2 : list A) :
  Permutation l1 l2 -> Permutation (List.filter f l1) (List.filter f l2).
Proof.
  induction 1 as [|x l1 l2 _ IH|x y l|l1 l2 l3 _ IH1 _ IH2]; simpl.
  - done.
  - destruct (f x); [by constructor|done].
  - destruct (f x), (f y); try done. apply perm_swap.
  - by etransitivity.
Qed.

(** In a sorted list, fewer than [k + 1] entries lie strictly below the
    entry at position [k]. *)
Lemma count_below_sorted (s : list Q) (k : nat) (v : Q) :
  StronglySorted (fun a b => Qle_bool a b = true) s ->
  s !! k = Some v ->
  (length (List.filter (fun x => negb (Qle_bool v x)) s) <= k)%nat.
Proof.
  intros Hs Hk.
  rewrite <- (take_drop k s), Stdlib.Lists.List.filter_app, length_app.
  rewrite (filter_none _ (drop k s)).
  - simpl. rewrite Nat.add_0_r.
    etransitivity; [apply length_filter_le|]. rewrite length_take. lia.
  - intros x [i Hi]%list_elem_of_lookup_1. rewrite lookup_drop in Hi.
    rewrite (sorted_lookup_le Qle_bool Qle_bool_refl s k (k + i) v x); [done|done|lia|done|done].
Qed.

(** Two sorted arrangements of the same values agree position by
    position. *)
Lemma sorted_perm_lookup (s1 s2 : list Q) (k : nat) (v1 v2 : Q) :
  StronglySorted (fun a b => Qle_bool a b = true) s1 ->
  StronglySorted (fun a b => Qle_bool a b = true) s2 ->
  Permutation s1 s2 ->
  s1 !! k = Some v1 -> s2 !! k = Some v2 -> (v1 == v2)%Q.
Proof.
  assert (forall s1 s2 v1 v2,
            StronglySorted (fun a b => Qle_bool a b = true) s1 ->
            StronglySorted (fun a b => Qle_bool a b = true) s2 ->
            Permutation s1 s2 ->
            s1 !! k = Some v1 -> s2 !! k = Some v2 -> ~ (v1 < v2)%Q) as Hlt.
  { clear. intros s1 s2 v1 v2 H1 H2 Hp Hk1 Hk2 Hlt.
    pose proof (count_prefix (fun x => Qle_bool x v1) s1 (S k)) as Hc1.
    assert (S k <= length s1)%nat as Hlen by (apply lookup_lt_Some in Hk1; lia).
    specialize (Hc1 Hlen).
    assert (S k <= length (List.filter (fun x => Qle_bool x v1) s1))%nat as Hge.
    { apply Hc1. intros i x Hi Hx.
      apply (sorted_lookup_le Qle_bool Qle_bool_refl s1 i k); [done|lia|done|done]. }
    rewrite (length_filter_perm _ _ _ Hp) in Hge.
    pose proof (count_below_sorted s2 k v2 H2 Hk2) as Hle.
    pose proof (length_filter_impl (fun x => Qle_bool x v1)
                  (fun x => negb (Qle_bool v2 x)) s2) as Himp.
    assert (forall x, Qle_bool x v1 = true -> negb (Qle_bool v2 x) = true) as Hx.
    { intros x Hx. apply Qle_bool_iff in Hx.
      destruct (Qle_bool v2 x) eqn:E; [|done].
      apply Qle_bool_iff in E. exfalso.
      apply (Qlt_irrefl v1). apply Qlt_le_trans with v2; [done|].
      by apply Qle_trans with x. }
    specialize (Himp Hx). lia. }
  intros H1 H2 Hp Hk1 Hk2.
  destruct (Q_dec v1 v2) as [[Hl|Hg]|He]; [| |done].
  - by destruct (Hlt s1 s2 v1 v2 H1 H2 Hp Hk1 Hk2).
  - by destruct (Hlt s2 s1 v2 v1 H2 H1 (Permutation_sym Hp) Hk2 Hk1).
Qed.

Lemma samePixel_lookup_sorted (l1 l2 : list Q) (k : nat) :
  Permutation l1 l2 ->
  samePixel (isort Qle_bool l1 !! k) (isort Qle_bool l2 !! k).
Proof.
  intros Hp.
  assert (Permutation (isort Qle_bool l1) (isort Qle_bool l2)) as Hps
    by (by rewrite !isort_perm).
  pose proof (Permutation_length Hps) as Hlen.
  destruct (isort Qle_bool l1 !! k) as [v1|] eqn:H1,
           (isort Qle_bool l2 !! k) as [v2|] eqn:H2; simpl.
  - eapply (sorted_perm_lookup _ _ k); try done;
      apply isort_sorted; (apply Qle_bool_total || apply Qle_bool_trans).
  - apply lookup_lt_Some in H1. apply lookup_ge_None in H2. lia.
  - apply lookup_lt_Some in H2. apply lookup_ge_None in H1. lia.
  - done.
Qed.

(** The median does not depend on the order of the values. *)
Lemma medianQ_perm (l1 l2 : list Q) :
  Permutation l1 l2 -> samePixel (medianQ l1) (medianQ l2).
Proof.
  intros Hp. unfold medianQ. cbv zeta.
  rewrite !length_isort, <- (Permutation_length Hp).
  destruct (Nat.eqb (length l1) 0); [done|].
  destruct (Nat.odd (length l1)).
  - by apply samePixel_lookup_sorted.
  - pose proof (samePixel_lookup_sorted l1 l2 (length l1 / 2 - 1) Hp) as Ha.
    pose proof (samePixel_lookup_sorted l1 l2 (length l1 / 2) Hp) as Hb.
    destruct (isort Qle_bool l1 !! (length l1 / 2 - 1)%nat),
             (isort Qle_bool l2 !! (length l1 / 2 - 1)%nat),
             (isort Qle_bool l1 !! (length l1 / 2)%nat),
             (isort Qle_bool l2 !! (length l1 / 2)%nat); simpl in *; try done.
    by rewrite Ha, Hb.
Qed.

(** The median lies between any two bounds of the values. *)
Lemma medianQ_range (l : list Q) (lo hi v : Q) :
  (forall x, In x l -> (lo <= x <= hi)%Q) ->
  medianQ l = Some v -> (lo <= v <= hi)%Q.
Proof.
  intros Hall. unfold medianQ. cbv zeta.
  assert (forall k x, isort Qle_bool l !! k = Some x -> (lo <= x <= hi)%Q) as Hs.
  { intros k x Hk. apply Hall.
    apply (Permutation_in x (isort_perm Qle_bool l)).
    apply list_elem_of_In. by eapply list_elem_of_lookup_2. }
  destruct (Nat.eqb _ 0); [done|].
  destruct (Nat.odd _).
  - apply Hs.
  - destruct (isort Qle_bool l !! _) as [a|] eqn:Ha; [|done].
    destruct (isort Qle_bool l !! (_ / 2)%nat) as [b|] eqn:Hb; [|done].
    simpl. intros [= <-].
    destruct (Hs _ _ Ha), (Hs _ _ Hb).
    split; [apply Qle_shift_div_l|apply Qle_shift_div_r]; lra.
Qed.

(* ===================================================================== *)
(** * More on the composites *)
(* ===================================================================== *)

Lemma valueAt_monthlyComposite (Y : Z) (c : list Image) (m : Z) (n : string) (p : Pixel) :
  valueAt (monthlyComposite Y c m) n p
  = valueAt (median (List.filter (inMonth m) c)) n p.
Proof.
  unfold valueAt, band. by rewrite bands_monthlyComposite, filter_calendarRangeMonth.
Qed.

Lemma bandNames_monthlyComposite_median (Y : Z) (c : list Image) (m : Z) :
  bandNames (monthlyComposite Y c m) = bandNames (median (List.filter (inMonth m) c)).
Proof.
  unfold bandNames. by rewrite bands_monthlyComposite, filter_calendarRangeMonth.
Qed.

Lemma bandNames_median_uniform (names : list string) (l : list Image) :
  Forall (fun r => bandNames r = names) l ->
  bandNames (median l) = match l with [] => [] | _ :: _ => names end.
Proof.
  intros H. rewrite bandNames_median. destruct l as [|first rest]; [done|].
  by apply Forall_cons in H as [-> _].
Qed.

(** X9: the composites do not depend on the order of the collection they
    are computed from (so the sort by time before the aggregation changes
    nothing in them): for two arrangements of the same rasters, all with the
    same bands, the composite of a month has the same bands, the same
    timestamp and, pixel by pixel, the same values. *)
Theorem composites_order_independent (Y m : Z) (c c' : list Image)
    (names : list string) :
  Permutation c c' ->
  Forall (fun r => bandNames r = names) c ->
  bandNames (monthlyComposite Y c m) = bandNames (monthlyComposite Y c' m)
  /\ timeStart (monthlyComposite Y c m) = timeStart (monthlyComposite Y c' m)
  /\ forall n p,
       samePixel (valueAt (monthlyComposite Y c m) n p)
                 (valueAt (monthlyComposite Y c' m) n p).
Proof.
  intros Hp Hn.
  assert (Forall (fun r => bandNames r = names) c') as Hn' by (by rewrite <- Hp).
  pose proof (filter_perm (inMonth m) c c' Hp) as Hpf.
  assert (bandNames (median (List.filter (inMonth m) c))
          = bandNames (median (List.filter (inMonth m) c'))) as Hb.
  { rewrite (bandNames_median_uniform names), (bandNames_median_uniform names)
      by (by apply Forall_filter_sub).
    pose proof (Permutation_length Hpf) as Hlen.
    destruct (List.filter (inMonth m) c), (List.filter (inMonth m) c'); done. }
  split; [by rewrite !bandNames_monthlyComposite_median|].
  split; [by rewrite !timeStart_monthlyComposite|].
  intros n p. rewrite !valueAt_monthlyComposite, !valueAt_median, Hb.
  destruct (bool_decide _); [|done].
  apply medianQ_perm. by apply omap_Permutation.
Qed.

Lemma composites_order_independent_witness :
  Permutation Samples.winterStack (rev Samples.winterStack)
  /\ Forall (fun r => bandNames r = ["ndvi"]) Samples.winterStack
  /\ bandNames (monthlyComposite 2022 Samples.winterStack 1)
     = bandNames (monthlyComposite 2022 (rev Samples.winterStack) 1)
  /\ timeStart (monthlyComposite 2022 Samples.winterStack 1)
     = timeStart (monthlyComposite 2022 (rev Samples.winterStack) 1)
  /\ forall n p,
       samePixel (valueAt (monthlyComposite 2022 Samples.winterStack 1) n p)
                 (valueAt (monthlyComposite 2022 (rev Samples.winterStack) 1) n p).
Proof.
  assert (Permutation Samples.winterStack (rev Samples.winterStack)) as Hp
    by apply Permutation_rev.
  assert (Forall (fun r => bandNames r = ["ndvi"]) Samples.winterStack) as Hn
    by (repeat constructor).
  split; [exact Hp|]. split; [exact Hn|].
  apply (composites_order_independent 2022 1 Samples.winterStack
           (rev Samples.winterStack) ["ndvi"] Hp Hn).
Defined.

Lemma assoc_None_notin {A} (n : string) (l : list (string * A)) :
  n ∉ l.*1 -> assoc n l = None.
Proof.
  induction l as [|[k v] l IH]; simpl; [done|].
  intros Hn. destruct (String.eqb_spec k n) as [->|Hne].
  - destruct Hn. apply list_elem_of_here.
  - apply IH. intros Hin. apply Hn. by apply list_elem_of_further.
Qed.

(** X10: a month with exactly one image reproduces it: the composite has
    the image's bands and, at every pixel of every band, the image's value
    (masked where the image is masked).  Only the properties differ: the
    composite carries the synthesized timestamp and index. *)
Theorem single_image_month_is_the_image (Y m : Z) (c : list Image) (img : Image) :
  List.filter (inMonth m) c = [img] ->
  bandNames (monthlyComposite Y c m) = bandNames img
  /\ (forall n p, valueAt (monthlyComposite Y c m) n p = valueAt img n p)
  /\ timeStart (monthlyComposite Y c m) = Some (fromYMD (Y + 1) m 1).
Proof.
  intros Hf. split; [|split].
  - by rewrite bandNames_monthlyComposite_median, Hf, bandNames_median.
  - intros n p. rewrite valueAt_monthlyComposite, Hf, valueAt_median, bandNames_median.
    destruct (decide (n ∈ bandNames img)) as [Hin|Hnin].
    + rewrite bool_decide_eq_true_2 by done. simpl.
      by destruct (valueAt img n p).
    + rewrite bool_decide_eq_false_2 by done.
      unfold valueAt, band. by rewrite assoc_None_notin.
  - apply timeStart_monthlyComposite.
Qed.

Lemma single_image_month_is_the_image_witness :
  List.filter (inMonth 3) Samples.winterStack
  = [Samples.ndviRaster (fromYMD 2022 3 9) (4 # 10)]
  /\ bandNames (monthlyComposite 2022 Samples.winterStack 3)
     = bandNames (Samples.ndviRaster (fromYMD 2022 3 9) (4 # 10))
  /\ (forall n p, valueAt (monthlyComposite 2022 Samples.winterStack 3) n p
                  = valueAt (Samples.ndviRaster (fromYMD 2022 3 9) (4 # 10)) n p)
  /\ timeStart (monthlyComposite 2022 Samples.winterStack 3)
     = Some (fromYMD (2022 + 1) 3 1).
Proof.
  split; [reflexivity|].
  apply (single_image_month_is_the_image 2022 3 Samples.winterStack
           (Samples.ndviRaster (fromYMD 2022 3 9) (4 # 10))).
  reflexivity.
Defined.

Lemma Forall2_Forall_r {A B} (P : A -> B -> Prop) (Q : B -> Prop) (l : list A)
    (l' : list B) :
  (forall x y, P x y -> Q y) -> Forall2 P l l' -> Forall Q l'.
Proof. intros H. induction 1; constructor; eauto. Qed.

(** Whatever holds of every raster the transform emits holds of every
    raster in the collection of a run. *)
Lemma ndviCollectionOf_Forall (P : Image -> Prop) (backend : Backend) (aoi : Geometry)
    (year : Z) (c : list Image) :
  (forall src img out, transform src img = Ok out -> P out) ->
  ndviCollectionOf backend aoi year = Ok c -> Forall P c.
Proof.
  intros HP Hc.
  destruct (ndviCollectionOf_inv backend aoi year c Hc) as (l8 & l9 & s2 & H8 & H9 & H2 & ->).
  unfold sortByTime. apply Forall_isort. rewrite !Forall_app. split; [split|].
  - eapply Forall2_Forall_r; [|apply (mapC_Ok _ _ _ H8)]. intros x y. apply (HP Landsat).
  - eapply Forall2_Forall_r; [|apply (mapC_Ok _ _ _ H9)]. intros x y. apply (HP Landsat).
  - eapply Forall2_Forall_r; [|apply (mapC_Ok _ _ _ H2)]. intros x y. apply (HP Sentinel2).
Qed.

Lemma transform_values_in_range (src : Source) (img out : Image) (n : string)
    (p : Pixel) (v : Q) :
  transform src img = Ok out -> valueAt out n p = Some v -> (-1 <= v <= 1)%Q.
Proof.
  intros (refl & r1 & r2 & _ & _ & _ & Hb & _)%transform_Ok.
  unfold valueAt, band. rewrite Hb. cbn [assoc].
  destruct (String.eqb "ndvi" n); cbn [assoc mbind option_bind]; [|done].
  apply ndPixel_range.
Qed.

(** X11: in a run, no pixel of any monthly composite carries a value outside
    [-1, 1]: the median of NDVI values is an NDVI value. *)
Theorem run_composites_in_range (backend : Backend) (aoi : Geometry) (year Y : Z) :
  catalogUsable backend = true ->
  exists c,
    ndviCollectionOf backend aoi year = Ok c
    /\ forall m n p v,
         valueAt (monthlyComposite Y c m) n p = Some v -> (-1 <= v <= 1)%Q.
Proof.
  intros Hu. destruct (ndviCollectionOf_is_Ok backend aoi year Hu) as [c Hc].
  exists c. split; [done|]. intros m n p v.
  rewrite valueAt_monthlyComposite, valueAt_median.
  destruct (bool_decide _); [|done].
  apply medianQ_range. intros x Hx.
  apply list_elem_of_In, list_elem_of_omap in Hx as (r & Hr & Hv).
  apply list_elem_of_In, filter_In in Hr as [Hr%list_elem_of_In _].
  pose proof (ndviCollectionOf_Forall
                (fun r => forall n p v, valueAt r n p = Some v -> (-1 <= v <= 1)%Q)
                backend aoi year c) as Hall.
  rewrite Forall_forall in Hall.
  eapply Hall; [|exact Hc|exact Hr|exact Hv].
  intros src img out Ht n' p' v'. by apply (transform_values_in_range src img).
Qed.

Lemma run_composites_in_range_witness :
  catalogUsable Samples.northern = true
  /\ exists c,
       ndviCollectionOf Samples.northern Samples.aoi 2022 = Ok c
       /\ forall m n p v,
            valueAt (monthlyComposite 2022 c m) n p = Some v -> (-1 <= v <= 1)%Q.
Proof.
  split; [reflexivity|].
  apply (run_composites_in_range Samples.northern Samples.aoi 2022 2022). reflexivity.
Defined.

(* ===================================================================== *)
(** * What the bands of the export hold *)
(* ===================================================================== *)

Lemma band_monthlyComposite_cases (Y year : Z) (c : list Image) (m : Z) :
  Forall (runRaster year) c ->
  if existsb (inMonth m) c
  then exists r, bands (monthlyComposite Y c m) = [("ndvi", r)]
  else bands (monthlyComposite Y c m) = [].
Proof.
  intros Hc. pose proof (bandNames_monthlyComposite Y year c m Hc) as Hb.
  unfold bandNames in Hb.
  destruct (existsb (inMonth m) c).
  - destruct (bands (monthlyComposite Y c m)) as [|[n r] [|b bs]]; try done.
    simpl in Hb. injection Hb as ->. by exists r.
  - by destruct (bands (monthlyComposite Y c m)).
Qed.

(** The bands of the stacked composites, month by month: each month with
    an image contributes its one band, the others none. *)
Lemma rasters_toBands_monthly (Y year : Z) (c : list Image) (ms : list Z) :
  Forall (runRaster year) c ->
  Forall2 (fun m b => band (monthlyComposite Y c m) "ndvi" = Some b.2)
    (List.filter (fun m => existsb (inMonth m) c) ms)
    (bands (toBands (map (monthlyComposite Y c) ms))).
Proof.
  intros Hc. rewrite bands_toBands_monthly.
  induction ms as [|m ms IH]; [constructor|].
  cbn [map concat List.filter].
  pose proof (band_monthlyComposite_cases Y year c m Hc) as Hm.
  destruct (existsb (inMonth m) c).
  - destruct Hm as [r Hr]. rewrite Hr. cbn [map app].
    constructor; [|exact IH]. unfold band. by rewrite Hr.
  - rewrite Hm. exact IH.
Qed.

Lemma Forall2_clip (P : Z -> Raster -> Prop) (Q' : Z -> Raster -> Prop)
    (inside : Geometry -> Pixel -> bool) (g : Geometry) (ms : list Z)
    (bs : list (string * Raster)) :
  (forall m r, P m r -> Q' m (fun p => if inside g p then r p else None)) ->
  Forall2 (fun m b => P m b.2) ms bs ->
  Forall2 (fun m b => Q' m b.2) ms
    (map (fun '(n, r) => (n, fun p => if inside g p then r p else None)) bs).
Proof.
  intros HPQ. induction 1 as [|m [n r] ms bs Hm _ IH]; [constructor|].
  cbn [map]. constructor; [|exact IH]. by apply HPQ.
Qed.

(** X12: the image sent for download holds, band after band, the composites
    of the months that have an image, in month order, each cut to the AOI:
    the k-th band has the value of the k-th such month's composite inside the
    AOI and is masked outside.  Months without an image have no band in
    it. *)
Theorem export_bands_are_clipped_composites (backend : Backend) (aoi : Geometry)
    (year : Z) (pts : list Feature) (s : AppState) :
  catalogUsable backend = true ->
  exists c req,
    ndviCollectionOf backend aoi year = Ok c
    /\ downloads (performNDVIAnalysis backend aoi year pts s) = downloads s ++ [req]
    /\ Forall2 (fun m b =>
                  bandNames (monthlyComposite (startYear s) c m) = ["ndvi"]
                  /\ forall p,
                       b.2 p = if inside backend aoi p
                               then valueAt (monthlyComposite (startYear s) c m) "ndvi" p
                               else None)
         (monthsWithImages c) (bands (exImage req)).
Proof.
  intros Hu. destruct (ndviCollectionOf_is_Ok backend aoi year Hu) as [c Hc].
  pose proof (ndviCollectionOf_runRaster backend aoi year c Hc) as Hrun.
  exists c. eexists. split; [exact Hc|].
  split; [by apply performNDVIAnalysis_download|].
  cbn [exImage]. unfold clip. cbn [bands]. unfold monthsWithImages, computeMonthlyNDVI.
  cbv zeta.
  apply (Forall2_clip
           (fun m r => existsb (inMonth m) c = true
                       /\ band (monthlyComposite (startYear s) c m) "ndvi" = Some r)
           (fun m (r : Raster) =>
              bandNames (monthlyComposite (startYear s) c m) = ["ndvi"]
              /\ forall p,
                   r p = if inside backend aoi p
                         then valueAt (monthlyComposite (startYear s) c m) "ndvi" p
                         else None)
           (inside backend) aoi).
  - intros m r [Hex Hb]. split.
    + by rewrite (bandNames_monthlyComposite _ year), Hex.
    + intros p. unfold valueAt. by rewrite Hb.
  - pose proof (rasters_toBands_monthly (startYear s) year c (sequence 1 12) Hrun) as H.
    assert (Forall (fun m => existsb (inMonth m) c = true)
              (List.filter (fun m => existsb (inMonth m) c) (sequence 1 12))) as Hall.
    { apply Forall_forall. intros m Hm. apply list_elem_of_In, filter_In in Hm. tauto. }
    revert Hall H.
    generalize (List.filter (fun m => existsb (inMonth m) c) (sequence 1 12)).
    generalize (bands (toBands (map (monthlyComposite (startYear s) c) (sequence 1 12)))).
    intros bs ms Hall H. induction H as [|m b ms bs Hb _ IH]; [constructor|].
    apply Forall_cons in Hall as [Hm Hall]. constructor; [by split|by apply IH].
Qed.

Lemma export_bands_are_clipped_composites_witness :
  catalogUsable Samples.northern = true
  /\ exists c req,
       ndviCollectionOf Samples.northern Samples.aoi 2022 = Ok c
       /\ downloads (performNDVIAnalysis Samples.northern Samples.aoi 2022 [] init)
          = downloads init ++ [req]
       /\ Forall2 (fun m b =>
                     bandNames (monthlyComposite (startYear init) c m) = ["ndvi"]
                     /\ forall p,
                          b.2 p = if inside Samples.northern Samples.aoi p
                                  then valueAt (monthlyComposite (startYear init) c m)
                                         "ndvi" p
                                  else None)
            (monthsWithImages c) (bands (exImage req)).
Proof.
  split; [reflexivity|].
  apply (export_bands_are_clipped_composites Samples.northern Samples.aoi 2022 [] init).
  reflexivity.
Defined.

(* ===================================================================== *)
(** * The date filter and the calendar year *)
(* ===================================================================== *)

Lemma year_length (y : Z) :
  days_from_civil (y + 1) 1 1
  = days_from_civil y 1 1 + (if is_leap y then 366 else 365).
Proof.
  pose proof (month_tiling y 1 ltac:(lia)) as T1.
  pose proof (month_tiling y 2 ltac:(lia)) as T2.
  pose proof (month_tiling y 3 ltac:(lia)) as T3.
  pose proof (month_tiling y 4 ltac:(lia)) as T4.
  pose proof (month_tiling y 5 ltac:(lia)) as T5.
  pose proof (month_tiling y 6 ltac:(lia)) as T6.
  pose proof (month_tiling y 7 ltac:(lia)) as T7.
  pose proof (month_tiling y 8 ltac:(lia)) as T8.
  pose proof (month_tiling y 9 ltac:(lia)) as T9.
  pose proof (month_tiling y 10 ltac:(lia)) as T10.
  pose proof (month_tiling y 11 ltac:(lia)) as T11.
  pose proof (month_tiling y 12 ltac:(lia)) as T12.
  change (nextMonthStart y 1) with (days_from_civil y 2 1) in T1.
  change (nextMonthStart y 2) with (days_from_civil y 3 1) in T2.
  change (nextMonthStart y 3) with (days_from_civil y 4 1) in T3.
  change (nextMonthStart y 4) with (days_from_civil y 5 1) in T4.
  change (nextMonthStart y 5) with (days_from_civil y 6 1) in T5.
  change (nextMonthStart y 6) with (days_from_civil y 7 1) in T6.
  change (nextMonthStart y 7) with (days_from_civil y 8 1) in T7.
  change (nextMonthStart y 8) with (days_from_civil y 9 1) in T8.
  change (nextMonthStart y 9) with (days_from_civil y 10 1) in T9.
  change (nextMonthStart y 10) with (days_from_civil y 11 1) in T10.
  change (nextMonthStart y 11) with (days_from_civil y 12 1) in T11.
  change (nextMonthStart y 12) with (days_from_civil (y + 1) 1 1) in T12.
  change (days_in_month y 1) with 31 in T1.
  change (days_in_month y 2) with (if is_leap y then 29 else 28) in T2.
  change (days_in_month y 3) with 31 in T3.
  change (days_in_month y 4) with 30 in T4.
  change (days_in_month y 5) with 31 in T5.
  change (days_in_month y 6) with 30 in T6.
  change (days_in_month y 7) with 31 in T7.
  change (days_in_month y 8) with 31 in T8.
  change (days_in_month y 9) with 30 in T9.
  change (days_in_month y 10) with 31 in T10.
  change (days_in_month y 11) with 30 in T11.
  change (days_in_month y 12) with 31 in T12.
  destruct (is_leap y); lia.
Qed.

Lemma year_start_between (z a : Z) (n : nat) :
  days_from_civil a 1 1 <= z < days_from_civil (a + Z.of_nat n) 1 1 ->
  exists y, days_from_civil y 1 1 <= z < days_from_civil (y + 1) 1 1.
Proof.
  induction n as [|n IH]; intros Hz.
  - rewrite Z.add_0_r in Hz. lia.
  - replace (a + Z.of_nat (S n)) with ((a + Z.of_nat n) + 1) in Hz by lia.
    destruct (Z_lt_le_dec z (days_from_civil (a + Z.of_nat n) 1 1)) as [Hlt|Hge].
    + apply IH. lia.
    + exists (a + Z.of_nat n). lia.
Qed.

Lemma year_exists (z : Z) :
  exists y, days_from_civil y 1 1 <= z < days_from_civil (y + 1) 1 1.
Proof.
  apply (year_start_between z (1970 + (z / 146097) * 400) 400).
  replace (1970 + z / 146097 * 400 + Z.of_nat 400)
    with (1970 + (z / 146097 + 1) * 400) by lia.
  rewrite !days_from_civil_period.
  change (days_from_civil 1970 1 1) with 0.
  pose proof (Z.div_mod z 146097 ltac:(lia)).
  pose proof (Z.mod_pos_bound z 146097 ltac:(lia)). lia.
Qed.

(** An instant is of calendar year [y] exactly when it lies from the first
    instant of [y] (included) to the first instant of [y + 1] (excluded). *)
Lemma year_of_iff (y t : Z) :
  year_of t = y <-> fromYMD y 1 1 <= t < fromYMD (y + 1) 1 1.
Proof.
  split; [|by intros []%year_of_in_range].
  intros Hy. destruct (year_exists (t / msPerDay)) as [y' Hz].
  assert (fromYMD y' 1 1 <= t < fromYMD (y' + 1) 1 1) as Ht.
  { unfold fromYMD.
    pose proof (Z.div_mod t msPerDay ltac:(unfold msPerDay; lia)).
    pose proof (Z.mod_pos_bound t msPerDay ltac:(unfold msPerDay; lia)).
    unfold msPerDay in *. nia. }
  destruct (year_of_in_range y' t Ht) as [Hy' _]. by rewrite <- Hy, Hy'.
Qed.

Lemma In_loaded (backend : Backend) (aoi : Geometry) (year : Z) (id : string)
    (img : Image) :
  In img (loaded backend aoi year id)
  <-> In img (catalog backend id)
      /\ intersects backend img aoi = true
      /\ exists t, timeStart img = Some t /\ year_of t = year.
Proof.
  unfold loaded, filterBounds, filterDate, ImageCollection.
  rewrite !filter_In, advance_one_year. split.
  - intros [[Hin Hd] Hb]. split; [done|]. split; [done|].
    destruct (timeStart img) as [t|]; [|done]. exists t. split; [done|].
    apply year_of_iff. lia.
  - intros (Hin & Hb & t & Ht & Hy). rewrite Ht.
    apply year_of_iff in Hy. repeat split; [done| |done]. lia.
Qed.

Lemma Forall2_In_l {A B} (P : A -> B -> Prop) (l : list A) (l' : list B) (x : A) :
  Forall2 P l l' -> In x l -> exists y, In y l' /\ P x y.
Proof.
  induction 1 as [|a b l l' Hab _ IH]; [done|].
  intros [<-|Hin].
  - exists b. split; [by left|done].
  - destruct (IH Hin) as (y & Hy & HP). exists y. split; [by right|done].
Qed.

Lemma Forall2_In_r {A B} (P : A -> B -> Prop) (l : list A) (l' : list B) (y : B) :
  Forall2 P l l' -> In y l' -> exists x, In x l /\ P x y.
Proof.
  induction 1 as [|a b l l' Hab _ IH]; [done|].
  intros [<-|Hin].
  - exists a. split; [by left|done].
  - destruct (IH Hin) as (x & Hx & HP). exists x. split; [by right|done].
Qed.

(** X13: the date filter [January 1 of the year, January 1 of the next)
    selects exactly the calendar year, so a run works on every image that
    one of the three sources has in that year over the AOI, and on nothing
    else: each such image has its NDVI raster in the collection, and each
    raster of the collection is the transform of such an image. *)
Theorem run_uses_exactly_the_year (backend : Backend) (aoi : Geometry) (year : Z) :
  catalogUsable backend = true ->
  exists c,
    ndviCollectionOf backend aoi year = Ok c
    /\ (forall src id img t,
          In (src, id) [(Landsat, "LANDSAT/LC08/C02/T1_L2");
                        (Landsat, "LANDSAT/LC09/C02/T1_L2");
                        (Sentinel2, "COPERNICUS/S2_SR_HARMONIZED")] ->
          In img (catalog backend id) ->
          intersects backend img aoi = true ->
          timeStart img = Some t -> year_of t = year ->
          exists r, In r c /\ transform src img = Ok r)
    /\ (forall r, In r c ->
          exists src id img t,
            In (src, id) [(Landsat, "LANDSAT/LC08/C02/T1_L2");
                          (Landsat, "LANDSAT/LC09/C02/T1_L2");
                          (Sentinel2, "COPERNICUS/S2_SR_HARMONIZED")]
            /\ In img (catalog backend id)
            /\ intersects backend img aoi = true
            /\ timeStart img = Some t /\ year_of t = year
            /\ transform src img = Ok r).
Proof.
  intros Hu. destruct (ndviCollectionOf_is_Ok backend aoi year Hu) as [c Hc].
  destruct (ndviCollectionOf_inv backend aoi year c Hc)
    as (l8 & l9 & s2 & H8%mapC_Ok & H9%mapC_Ok & H2%mapC_Ok & Hs).
  assert (forall r, In r c <-> In r l8 \/ In r l9 \/ In r s2) as Hin.
  { intros r. rewrite Hs. unfold sortByTime.
    rewrite <- !list_elem_of_In, isort_perm, !elem_of_app. tauto. }
  exists c. split; [done|]. split.
  - intros src id img t Hsrc Hcat Hb Ht Hy.
    assert (In img (loaded backend aoi year id)) as Hl.
    { apply In_loaded. split; [done|]. split; [done|]. by exists t. }
    destruct Hsrc as [[= <- <-]|[[= <- <-]|[[= <- <-]|[]]]].
    + destruct (Forall2_In_l _ _ _ _ H8 Hl) as (r & Hr & Hp).
      exists r. split; [|done]. apply Hin. by left.
    + destruct (Forall2_In_l _ _ _ _ H9 Hl) as (r & Hr & Hp).
      exists r. split; [|done]. apply Hin. right. by left.
    + destruct (Forall2_In_l _ _ _ _ H2 Hl) as (r & Hr & Hp).
      exists r. split; [|done]. apply Hin. right. by right.
  - intros r [Hr|[Hr|Hr]]%Hin.
    + destruct (Forall2_In_r _ _ _ _ H8 Hr) as (img & Hl & Hp).
      apply In_loaded in Hl as (Hcat & Hb & t & Ht & Hy).
      exists Landsat, "LANDSAT/LC08/C02/T1_L2", img, t.
      split; [by left|done].
    + destruct (Forall2_In_r _ _ _ _ H9 Hr) as (img & Hl & Hp).
      apply In_loaded in Hl as (Hcat & Hb & t & Ht & Hy).
      exists Landsat, "LANDSAT/LC09/C02/T1_L2", img, t.
      split; [right; by left|done].
    + destruct (Forall2_In_r _ _ _ _ H2 Hr) as (img & Hl & Hp).
      apply In_loaded in Hl as (Hcat & Hb & t & Ht & Hy).
      exists Sentinel2, "COPERNICUS/S2_SR_HARMONIZED", img, t.
      split; [right; right; by left|done].
Qed.

Lemma run_uses_exactly_the_year_witness :
  catalogUsable Samples.northern = true
  /\ exists c,
       ndviCollectionOf Samples.northern Samples.aoi 2022 = Ok c
       /\ (forall src id img t,
             In (src, id) [(Landsat, "LANDSAT/LC08/C02/T1_L2");
                           (Landsat, "LANDSAT/LC09/C02/T1_L2");
                           (Sentinel2, "COPERNICUS/S2_SR_HARMONIZED")] ->
             In img (catalog Samples.northern id) ->
             intersects Samples.northern img Samples.aoi = true ->
             timeStart img = Some t -> year_of t = 2022 ->
             exists r, In r c /\ transform src img = Ok r)
       /\ (forall r, In r c ->
             exists src id img t,
               In (src, id) [(Landsat, "LANDSAT/LC08/C02/T1_L2");
                             (Landsat, "LANDSAT/LC09/C02/T1_L2");
                             (Sentinel2, "COPERNICUS/S2_SR_HARMONIZED")]
               /\ In img (catalog Samples.northern id)
               /\ intersects Samples.northern img Samples.aoi = true
               /\ timeStart img = Some t /\ year_of t = 2022
               /\ transform src img = Ok r).
Proof.
  split; [reflexivity|].
  apply (run_uses_exactly_the_year Samples.northern Samples.aoi 2022). reflexivity.
Defined.

(* ===================================================================== *)
(** * The timestamps of the composites *)
(* ===================================================================== *)

Lemma month_start_next (y m : Z) :
  1 <= m <= 11 ->
  days_from_civil y (m + 1) 1 = days_from_civil y m 1 + days_in_month y m.
Proof.
  intros Hm. rewrite <- month_tiling by lia. unfold nextMonthStart.
  by rewrite (proj2 (Z.eqb_neq m 12)) by lia.
Qed.

Lemma month_start_mono (y m : Z) (n : nat) :
  1 <= m -> m + Z.of_nat n <= 12 ->
  days_from_civil y m 1 + 28 * Z.of_nat n <= days_from_civil y (m + Z.of_nat n) 1.
Proof.
  intros Hm. induction n as [|n IH]; intros Hn.
  - change (Z.of_nat 0) with 0. rewrite Z.mul_0_r, !Z.add_0_r. lia.
  - replace (m + Z.of_nat (S n)) with ((m + Z.of_nat n) + 1) by lia.
    rewrite month_start_next by lia.
    pose proof (days_in_month_bounds y (m + Z.of_nat n)). lia.
Qed.

(** X14: the twelve composites are stamped in strictly increasing order,
    each at the first instant of its month: two consecutive stamps are
    exactly one calendar month apart (28 to 31 days, by the calendar of the
    year after the selected one), and the twelve span less than that year. *)
Theorem composite_stamps_a_month_apart (Y : Z) (c : list Image) (m m' : Z) :
  1 <= m -> m < m' -> m' <= 12 ->
  exists t t',
    timeStart (monthlyComposite Y c m) = Some t
    /\ timeStart (monthlyComposite Y c m') = Some t'
    /\ t < t'
    /\ fromYMD (Y + 1) 1 1 <= t /\ t' < fromYMD (Y + 2) 1 1
    /\ (m' = m + 1 -> t' - t = days_in_month (Y + 1) m * msPerDay).
Proof.
  intros H1 Hlt H12.
  exists (fromYMD (Y + 1) m 1), (fromYMD (Y + 1) m' 1).
  rewrite !timeStart_monthlyComposite. split; [done|]. split; [done|].
  unfold fromYMD.
  pose proof (month_start_mono (Y + 1) m (Z.to_nat (m' - m)) H1) as Hmm'.
  rewrite Z2Nat.id in Hmm' by lia.
  replace (m + (m' - m)) with m' in Hmm' by lia.
  pose proof (month_start_mono (Y + 1) 1 (Z.to_nat (m - 1)) ltac:(lia)) as H1m.
  rewrite Z2Nat.id in H1m by lia.
  replace (1 + (m - 1)) with m in H1m by lia.
  pose proof (month_tiling (Y + 1) 12 ltac:(lia)) as Hdec.
  change (nextMonthStart (Y + 1) 12) with (days_from_civil (Y + 1 + 1) 1 1) in Hdec.
  replace (Y + 1 + 1) with (Y + 2) in Hdec by lia.
  pose proof (month_start_mono (Y + 1) m' (Z.to_nat (12 - m')) ltac:(lia)) as Hm12.
  rewrite Z2Nat.id in Hm12 by lia.
  replace (m' + (12 - m')) with 12 in Hm12 by lia.
  pose proof (days_in_month_bounds (Y + 1) 12).
  unfold msPerDay. repeat split; try lia.
  intros ->. rewrite month_start_next by lia. lia.
Qed.

Lemma composite_stamps_a_month_apart_witness :
  1 <= 2 /\ 2 < 3 /\ 3 <= 12
  /\ exists t t',
       timeStart (monthlyComposite 2023 Samples.winterStack 2) = Some t
       /\ timeStart (monthlyComposite 2023 Samples.winterStack 3) = Some t'
       /\ t < t'
       /\ fromYMD (2023 + 1) 1 1 <= t /\ t' < fromYMD (2023 + 2) 1 1
       /\ (3 = 2 + 1 -> t' - t = days_in_month (2023 + 1) 2 * msPerDay).
Proof.
  split; [lia|]. split; [lia|]. split; [lia|].
  apply (composite_stamps_a_month_apart 2023 Samples.winterStack 2 3); lia.
Defined.

(* ===================================================================== *)
(** * Running the analysis again *)
(* ===================================================================== *)

Lemma performNDVIAnalysis_same_widgets (backend : Backend) (aoi : Geometry) (year : Z)
    (pts : list Feature) (s1 s2 : AppState) :
  startYear s1 = startYear s2 ->
  exists added,
    controlPanel (performNDVIAnalysis backend aoi year pts s1) = controlPanel s1 ++ added
    /\ controlPanel (performNDVIAnalysis backend aoi year pts s2) = controlPanel s2 ++ added
    /\ (2 <= length added)%nat.
Proof.
  intros Hy. rewrite !performNDVIAnalysis_unfold.
  unfold analysisFrom, generateExportURL. cbv zeta.
  change (startYear (Map_centerObject aoi (Map_clear (clearUnlistens backend) s1)))
    with (startYear s1).
  change (startYear (Map_centerObject aoi (Map_clear (clearUnlistens backend) s2)))
    with (startYear s2).
  rewrite Hy.
  destruct (ndviCollectionOf backend aoi year) as [c|e]; simpl;
    destruct (0 <? length pts)%nat; simpl;
    rewrite <- !app_assoc; simpl; eexists; (split; [reflexivity|]);
    (split; [reflexivity|]); simpl; lia.
Qed.

(** X16: nothing of an earlier analysis is taken off the panel by a later
    one.  Performing the analysis a second time with the same AOI, year and
    points appends the same labels, charts and link once more, below those
    of the first time; each time at least the AOI label and chart are
    appended. *)
Theorem rerun_appends_results_again (backend : Backend) (aoi : Geometry) (year : Z)
    (pts : list Feature) (s : AppState) :
  exists added,
    controlPanel (performNDVIAnalysis backend aoi year pts s) = controlPanel s ++ added
    /\ controlPanel (performNDVIAnalysis backend aoi year pts
                       (performNDVIAnalysis backend aoi year pts s))
       = controlPanel s ++ added ++ added
    /\ (2 <= length added)%nat.
Proof.
  destruct (performNDVIAnalysis_frame backend aoi year pts s) as (_ & Hy & _).
  cbv zeta in Hy.
  destruct (performNDVIAnalysis_same_widgets backend aoi year pts s
              (performNDVIAnalysis backend aoi year pts s))
    as (added & H1 & H2 & Hlen); [by rewrite Hy|].
  exists added. split; [exact H1|]. split; [|exact Hlen].
  by rewrite H2, H1, app_assoc.
Qed.

(* ===================================================================== *)
(** * The point chart of a run *)
(* ===================================================================== *)

Lemma mapC_Err_in {A B} (f : A -> Computed B) (l : list A) (x : A) :
  In x l -> (exists e, f x = Err e) -> exists e, mapC f l = Err e.
Proof.
  induction l as [|a l IH]; [done|].
  intros [->|Hin] Hx; simpl.
  - destruct Hx as [e ->]. by exists e.
  - destruct (f a) as [y|e]; simpl; [|by exists e].
    destruct (IH Hin Hx) as [e ->]. by exists e.
Qed.

(** Selecting the band ndvi from a composite of a run works exactly when
    the month has an image. *)
Lemma select_ndvi_monthlyComposite (Y year : Z) (c : list Image) (m : Z) :
  Forall (runRaster year) c ->
  if existsb (inMonth m) c
  then is_Ok (select (monthlyComposite Y c m) (RLit "ndvi"))
  else exists e, select (monthlyComposite Y c m) (RLit "ndvi") = Err e.
Proof.
  intros Hc. pose proof (band_monthlyComposite_cases Y year c m Hc) as Hm.
  unfold select. destruct (existsb (inMonth m) c).
  - destruct Hm as [r ->]. by eexists.
  - rewrite Hm. by eexists.
Qed.

Lemma regionSeries_pointsChartOf (Y year : Z) (c : list Image) (pts : list Feature) :
  Forall (runRaster year) c ->
  ((forall m, 1 <= m <= 12 -> existsb (inMonth m) c = true) ->
   regionSeries (pointsChartOf (Ok (computeMonthlyNDVI Y c)) pts) = Ok (map nameOf pts))
  /\ (forall m, 1 <= m <= 12 -> existsb (inMonth m) c = false ->
      exists e, regionSeries (pointsChartOf (Ok (computeMonthlyNDVI Y c)) pts) = Err e).
Proof.
  intros Hc. unfold pointsChartOf, regionSeries, computeMonthlyNDVI. cbv zeta.
  cbn [mbind Computed_bind]. split.
  - intros Hall.
    destruct (mapC_is_Ok (fun img => select img (RLit "ndvi"))
                (map (monthlyComposite Y c) (sequence 1 12))) as [sel ->]; [|done].
    apply Forall_forall. intros img (m & -> & Hm)%list_elem_of_fmap.
    pose proof (select_ndvi_monthlyComposite Y year c m Hc) as Hs.
    rewrite Hall in Hs; [done|].
    vm_compute in Hm. repeat (apply elem_of_cons in Hm as [->|Hm]; [lia|]).
    by apply elem_of_nil in Hm.
  - intros m Hm Hnone.
    destruct (mapC_Err_in (fun img => select img (RLit "ndvi"))
                (map (monthlyComposite Y c) (sequence 1 12)) (monthlyComposite Y c m))
      as [e ->]; [| |by exists e].
    + apply in_map.
      assert (sequence 1 12 = [1; 2; 3; 4; 5; 6; 7; 8; 9; 10; 11; 12]) as ->
        by reflexivity.
      simpl. lia.
    + pose proof (select_ndvi_monthlyComposite Y year c m Hc) as Hs.
      by rewrite Hnone in Hs.
Qed.

(** C7, as the code has it.  In any session, when the analysis runs on a
    drawn AOI: with no point the chart by region is left out altogether (no
    chart, no series, and nothing fails on that account); with points, one
    chart by region is added.  That chart draws exactly one series per
    point, labelled with the point's name, all labels different, when the
    run's collection computes and every month of the year has an image; when
    a month has no image its composite has no band ndvi for the chart to
    select and the chart fails, as it does when the collection fails. *)
Theorem C7_point_series (backend : Backend) (s : AppState) (aoi : Geometry)
    (others : list Geometry) :
  reachable backend s ->
  layers (drawingTools s) = aoi :: others ->
  (points s = [] ->
     regionCharts (addedWidgets s (runAnalysisButton_onClick backend s)) = [])
  /\ (points s <> [] ->
        exists c,
          regionCharts (addedWidgets s (runAnalysisButton_onClick backend s)) = [c]
          /\ (forall coll,
                ndviCollectionOf backend aoi (startYear s) = Ok coll ->
                (forall m, 1 <= m <= 12 -> existsb (inMonth m) coll = true) ->
                regionSeries c = Ok (map nameOf (points s)))
          /\ (forall coll m,
                ndviCollectionOf backend aoi (startYear s) = Ok coll ->
                1 <= m <= 12 -> existsb (inMonth m) coll = false ->
                exists e, regionSeries c = Err e)
          /\ (forall e,
                ndviCollectionOf backend aoi (startYear s) = Err e ->
                regionSeries c = Err e))
  /\ NoDup (map nameOf (points s)).
Proof.
  intros Hr Hl.
  assert (regionCharts (addedWidgets s (runAnalysisButton_onClick backend s))
          = match points s with
            | [] => []
            | _ :: _ =>
                [pointsChartOf
                   (computeMonthlyNDVI (startYear s)
                      <$> ndviCollectionOf backend aoi (startYear s)) (points s)]
            end) as Hcharts.
  { unfold runAnalysisButton_onClick. rewrite Hl.
    change (addedWidgets s ?x) with (addedWidgets (set_userAOI (Some aoi) s) x).
    apply (performNDVIAnalysis_point_charts backend aoi (startYear s) (points s)
             (set_userAOI (Some aoi) s)). }
  rewrite Hcharts. split; [by intros ->|]. split.
  - intros Hne. destruct (points s) as [|f pts] eqn:Hpts; [done|].
    eexists. split; [reflexivity|]. split; [|split].
    + intros coll Hc Hall. rewrite Hc.
      pose proof (ndviCollectionOf_runRaster backend aoi (startYear s) coll Hc) as Hrun.
      by apply (regionSeries_pointsChartOf (startYear s) (startYear s) coll (f :: pts) Hrun).
    + intros coll m Hc Hm Hnone. rewrite Hc.
      pose proof (ndviCollectionOf_runRaster backend aoi (startYear s) coll Hc) as Hrun.
      by apply (regionSeries_pointsChartOf (startYear s) (startYear s) coll (f :: pts) Hrun
                  ) with m.
    + intros e He. by rewrite He.
  - by apply NoDup_namedInOrder, (namedInOrder_reachable backend).
Qed.

Lemma C7_point_series_witness :
  reachable Samples.allYear (Samples.session Samples.allYear)
  /\ layers (drawingTools (Samples.session Samples.allYear)) = [Samples.aoi]
  /\ (points (Samples.session Samples.allYear) = [] ->
      regionCharts (addedWidgets (Samples.session Samples.allYear)
                      (runAnalysisButton_onClick Samples.allYear
                         (Samples.session Samples.allYear))) = [])
  /\ (points (Samples.session Samples.allYear) <> [] ->
        exists c,
          regionCharts (addedWidgets (Samples.session Samples.allYear)
                          (runAnalysisButton_onClick Samples.allYear
                             (Samples.session Samples.allYear))) = [c]
          /\ (forall coll,
                ndviCollectionOf Samples.allYear Samples.aoi
                  (startYear (Samples.session Samples.allYear)) = Ok coll ->
                (forall m, 1 <= m <= 12 -> existsb (inMonth m) coll = true) ->
                regionSeries c = Ok (map nameOf (points (Samples.session Samples.allYear))))
          /\ (forall coll m,
                ndviCollectionOf Samples.allYear Samples.aoi
                  (startYear (Samples.session Samples.allYear)) = Ok coll ->
                1 <= m <= 12 -> existsb (inMonth m) coll = false ->
                exists e, regionSeries c = Err e)
          /\ (forall e,
                ndviCollectionOf Samples.allYear Samples.aoi
                  (startYear (Samples.session Samples.allYear)) = Err e ->
                regionSeries c = Err e))
  /\ NoDup (map nameOf (points (Samples.session Samples.allYear))).
Proof.
  assert (reachable Samples.allYear (Samples.session Samples.allYear)) as Hr
    by (eexists; reflexivity).
  split; [exact Hr|]. split; [reflexivity|].
  apply (C7_point_series Samples.allYear (Samples.session Samples.allYear)
           Samples.aoi []); [exact Hr|reflexivity].
Defined.

(** With an image in every month, the session of the sample has its two
    series, labelled Point 1 and Point 2. *)
Example session_labels :
  map regionSeries
    (regionCharts
       (addedWidgets (Samples.session Samples.allYear)
          (runAnalysisButton_onClick Samples.allYear (Samples.session Samples.allYear))))
  = [Ok [Some (PStr "Point 1"); Some (PStr "Point 2")]].
Proof. vm_compute. reflexivity. Qed.

(** C7 as stated fails: in the same session over a catalogue with scenes
    from February to October only, there are two points and the chart by
    region yields no series: it fails, since the composites of the three
    months without image have no band ndvi. *)
Lemma C7_point_series_counterexample :
  length (points (Samples.session Samples.northern)) = 2%nat
  /\ exists c e,
       regionCharts
         (addedWidgets (Samples.session Samples.northern)
            (runAnalysisButton_onClick Samples.northern (Samples.session Samples.northern)))
       = [c]
       /\ regionSeries c = Err e
       /\ regionSeries c <> Ok (map nameOf (points (Samples.session Samples.northern))).
Proof.
  split; [reflexivity|]. eexists. eexists.
  split; [vm_compute; reflexivity|]. split; [vm_compute; reflexivity|].
  vm_compute. discriminate.
Qed.

(* ===================================================================== *)
(** * The rasters the transform emits *)
(* ===================================================================== *)



